(** * duomic driver: the audio pull path, the device registry, the control
    commands and the start-up configuration of [Driver.cpp], embedded in Rocq.

    Conventions of the embedding:
    - a [uint32_t] is a [Z] reduced modulo [2^32] wherever the C++ code
      computes one; an [int] is a [Z];
    - a [float] is a binary32 value of the Standard Library's [SpecFloat]
      (precision 24, [emax] 128);
    - an operation whose behaviour the C++ standard leaves undefined (a read
      past the mapped sample array, the conversion of a NaN to an integer, the
      use of an uninitialised [int]) and an operation that throws return
      [None]. *)

From Stdlib Require Import ZArith List String Ascii Bool Lia.
From Stdlib Require Import DecimalString DecimalPos.
From Stdlib Require Import Floats.SpecFloat.
Import ListNotations.

Local Open Scope Z_scope.

(** ** Machine integers *)

Module Word.

Definition modulus32 : Z := 4294967296.

(** Reduction of an integer to [uint32_t]. *)
Definition u32 (z : Z) : Z := z mod modulus32.

(** The cast [(int)] applied to a [uint32_t]. *)
Definition to_int (z : Z) : Z :=
  if z <? 2147483648 then z else z - modulus32.

Definition INT_MAX : Z := 2147483647.
Definition INT_MIN : Z := -2147483648.

(** What a stream extraction stores into an [int] for the parsed value [z]. *)
Definition clamp_int (z : Z) : Z := Z.max INT_MIN (Z.min INT_MAX z).

End Word.

(** ** Error monad: [None] is undefined behaviour or a thrown exception *)

Definition bind {A B : Type} (c : option A) (k : A -> option B) : option B :=
  match c with
  | Some a => k a
  | None => None
  end.

Notation "x <- c ;; k" := (bind c (fun x => k))
  (at level 61, c at next level, right associativity).

(** ** Constants of the driver *)

Definition ChannelCount : Z := 1.
Definition MAX_CHANNELS : Z := 8.
Definition RING_BUFFER_FRAMES : Z := 8192.
Definition HEADER_SIZE : Z := 16.
Definition TARGET_LATENCY : Z := 1024.

(** ** Sample conversion *)

Definition float32 : Type := spec_float.

Definition f32_valid (x : float32) : bool := valid_binary 24 128 x.
Definition f32_mul : float32 -> float32 -> float32 := SFmul 24 128.

(** The literals [1.0f], [-1.0f] and [32767.0f] in canonical form. *)
Definition f32_one : float32 := S754_finite false 8388608 (-23).
Definition f32_minus_one : float32 := S754_finite true 8388608 (-23).
Definition f32_32767 : float32 := S754_finite false 16776704 (-9).
Definition f32_zero : float32 := S754_zero false.

(** Truncation toward zero of a finite value; a NaN or an infinity has no
    truncated value. *)
Definition f32_trunc (x : float32) : option Z :=
  match x with
  | S754_zero _ => Some 0
  | S754_finite s m e => Some (cond_Zopp s (Z.shiftl (Zpos m) e))
  | S754_infinity _ => None
  | S754_nan => None
  end.

(** [static_cast<SInt16>] of a [float]: defined only when the truncated
    value is representable. *)
Definition static_cast_SInt16 (x : float32) : option Z :=
  z <- f32_trunc x ;;
  if (-32768 <=? z) && (z <=? 32767) then Some z else None.

Definition ConvertToSInt16 (sample : float32) : option Z :=
  if SFleb f32_one sample then Some 32767
  else if SFleb sample f32_minus_one then Some (-32768)
  else static_cast_SInt16 (f32_mul sample f32_32767).

(** ** The shared segment and its accessor *)

(** The mapped region: four [uint32_t] header words, then the interleaved
    samples. *)
Record Segment : Type := {
  seg_writePos : Z;
  seg_channelCount : Z;
  seg_reserved : Z;
  seg_activeFlag : Z;
  seg_samples : list float32
}.

(** [ptr_]: [None] is the null pointer (not connected). *)
Definition SharedAudioBuffer : Type := option Segment.

Definition isActive (b : SharedAudioBuffer) : bool :=
  match b with
  | None => false
  | Some p => Word.u32 (seg_activeFlag p) =? 1
  end.

Definition getChannelCount (b : SharedAudioBuffer) : Z :=
  match b with
  | None => 2
  | Some p => Word.u32 (seg_channelCount p)
  end.

Definition getSamples (b : SharedAudioBuffer) : option (list float32) :=
  match b with
  | None => None
  | Some p => Some (seg_samples p)
  end.

Definition getWritePos (b : SharedAudioBuffer) : Z :=
  match b with
  | None => 0
  | Some p => Word.u32 (seg_writePos p)
  end.

(** ** The IO handler of one virtual device *)

Record DuomicIOHandler : Type := {
  channelIndex_ : Z;
  readPos_ : Z
}.

Definition new_handler (channelIndex : Z) : DuomicIOHandler :=
  {| channelIndex_ := channelIndex; readPos_ := 0 |}.

Definition set_readPos (h : DuomicIOHandler) (r : Z) : DuomicIOHandler :=
  {| channelIndex_ := channelIndex_ h; readPos_ := r |}.

(** Index into the sample array of frame [readPos + i] of one channel. *)
Definition sample_index (readPos inputChannels channelIndex i : Z) : Z :=
  let frameIdx := Word.u32 (Word.u32 (readPos + i) mod RING_BUFFER_FRAMES) in
  Word.u32 (frameIdx * inputChannels + channelIndex).

(** The copy loop, [count] iterations from index [i]. *)
Fixpoint copy_loop (shmSamples : list float32)
    (readPos inputChannels channelIndex i : Z) (count : nat) : option (list Z) :=
  match count with
  | O => Some []
  | S count' =>
      x <- nth_error shmSamples
             (Z.to_nat (sample_index readPos inputChannels channelIndex i)) ;;
      v <- ConvertToSInt16 x ;;
      rest <- copy_loop shmSamples readPos inputChannels channelIndex (i + 1) count' ;;
      Some (v :: rest)
  end.

(** The block of [n] zero samples that [memset] leaves in the buffer. *)
Definition silence (n : Z) : list Z := repeat 0 (Z.to_nat n).

(** Number of [SInt16] frames in a buffer of [bytesCount] bytes
    ([bytesCount] is a [UInt32]). *)
Definition frames_of_bytes (bytesCount : Z) : Z :=
  Word.u32 bytesCount / 2 / ChannelCount.

(** Lines 173-175: the first pull of a handler starts [TARGET_LATENCY]
    frames behind the writer. *)
Definition seed_readPos (readPos writePos : Z) : Z :=
  if (readPos =? 0) && (writePos >? TARGET_LATENCY)
  then Word.u32 (writePos - TARGET_LATENCY)
  else readPos.

(** Lines 177-182: [available], and the jump when the reader fell behind;
    returns the pair of [readPos_] and [available]. *)
Definition overrun_adjust (readPos writePos : Z) : Z * Z :=
  let available := Word.u32 (writePos - readPos) in
  if available >? RING_BUFFER_FRAMES - 512
  then (Word.u32 (writePos - TARGET_LATENCY), TARGET_LATENCY)
  else (readPos, available).

(** Line 189. *)
Definition samplesToRead (numSamples writePos readPos : Z) : Z :=
  Z.min numSamples (Word.u32 (writePos - readPos)).

(** [OnReadClientInput]: the handler after the call and the [numSamples]
    samples left in the buffer. *)
Definition OnReadClientInput (h : DuomicIOHandler) (g_sharedBuffer : SharedAudioBuffer)
    (bytesCount : Z) : option (DuomicIOHandler * list Z) :=
  let numSamples := frames_of_bytes bytesCount in
  if negb (isActive g_sharedBuffer) then Some (h, silence numSamples)
  else
    match getSamples g_sharedBuffer with
    | None => Some (h, silence numSamples)
    | Some shmSamples =>
        let writePos := getWritePos g_sharedBuffer in
        let inputChannels := getChannelCount g_sharedBuffer in
        if channelIndex_ h >=? Word.to_int inputChannels
        then Some (h, silence numSamples)
        else
          let '(readPos, available) :=
            overrun_adjust (seed_readPos (readPos_ h) writePos) writePos in
          if (writePos <=? readPos) || (available <? numSamples)
          then Some (set_readPos h readPos, silence numSamples)
          else
            let n := samplesToRead numSamples writePos readPos in
            converted <- copy_loop shmSamples readPos inputChannels
                           (channelIndex_ h) 0 (Z.to_nat n) ;;
            let tail :=
              if n <? numSamples then silence (numSamples - n) else [] in
            Some (set_readPos h (Word.u32 (readPos + n)), converted ++ tail)
    end.

(** ** Characters and strings *)

Local Open Scope string_scope.

Definition LF_char : ascii := ascii_of_nat 10.

(** The one-character string written ["\n"] in C++. *)
Definition LF : string := String LF_char EmptyString.

Definition string_is_empty (s : string) : bool :=
  match s with
  | EmptyString => true
  | String _ _ => false
  end.

(** [isspace] in the C locale. *)
Definition isspace (c : ascii) : bool :=
  let n := nat_of_ascii c in
  Nat.eqb n 32 || (Nat.leb 9 n && Nat.leb n 13).

Definition isdigit (c : ascii) : bool :=
  let n := nat_of_ascii c in
  Nat.leb 48 n && Nat.leb n 57.

Definition digit_value (c : ascii) : Z := Z.of_nat (nat_of_ascii c) - 48.

Fixpoint skip_ws (s : string) : string :=
  match s with
  | EmptyString => EmptyString
  | String c r => if isspace c then skip_ws r else s
  end.

(** The characters up to the next whitespace, and what follows them. *)
Fixpoint take_word (s : string) : string * string :=
  match s with
  | EmptyString => (EmptyString, EmptyString)
  | String c r =>
      if isspace c then (EmptyString, s)
      else let '(w, rest) := take_word r in (String c w, rest)
  end.

(** The characters before the first [delim], and what follows the
    delimiter; [None] when the input ends before a delimiter. *)
Fixpoint take_until (delim : ascii) (s : string) : string * option string :=
  match s with
  | EmptyString => (EmptyString, None)
  | String c r =>
      if Ascii.eqb c delim then (EmptyString, Some r)
      else let '(w, rest) := take_until delim r in (String c w, rest)
  end.

(** Accumulation of a run of decimal digits; [seen] tells whether a digit
    has been read. *)
Fixpoint take_digits (acc : Z) (seen : bool) (s : string) : Z * bool * string :=
  match s with
  | EmptyString => (acc, seen, EmptyString)
  | String c r =>
      if isdigit c then take_digits (10 * acc + digit_value c) true r
      else (acc, seen, s)
  end.

(** An optional sign, then digits: the value, whether a digit was read, and
    the rest of the input. *)
Definition take_integer (s : string) : Z * bool * string :=
  match s with
  | String "-" r =>
      let '(v, seen, rest) := take_digits 0 false r in (- v, seen, rest)
  | String "+" r => take_digits 0 false r
  | _ => take_digits 0 false s
  end.

(** Decimal text of an [int], as [operator<<] prints it. *)
Definition string_of_int (z : Z) : string :=
  NilZero.string_of_int (Z.to_int z).

(** ** Input string streams *)

Record istringstream : Type := {
  is_buf : string;
  is_eofbit : bool;
  is_failbit : bool
}.

Definition open_stream (s : string) : istringstream :=
  {| is_buf := s; is_eofbit := false; is_failbit := false |}.

Definition good (s : istringstream) : bool :=
  negb (is_eofbit s) && negb (is_failbit s).

(** [istream::sentry]: refuses a stream that is not good; otherwise skips
    leading whitespace unless [noskipws], and refuses when that reaches the
    end of the input. *)
Definition sentry (noskipws : bool) (s : istringstream) : bool * istringstream :=
  if negb (good s) then
    (false, {| is_buf := is_buf s; is_eofbit := is_eofbit s; is_failbit := true |})
  else if noskipws then (true, s)
  else
    match skip_ws (is_buf s) with
    | EmptyString =>
        (false, {| is_buf := EmptyString; is_eofbit := true; is_failbit := true |})
    | b => (true, {| is_buf := b; is_eofbit := false; is_failbit := false |})
    end.

(** [is >> str] for a [std::string]; [str] is the previous value of the
    variable, kept when the sentry refuses. *)
Definition extract_word (s : istringstream) (str : string) : string * istringstream :=
  let '(ok, s1) := sentry false s in
  if ok then
    let '(w, rest) := take_word (is_buf s1) in
    (w, {| is_buf := rest; is_eofbit := string_is_empty rest;
           is_failbit := string_is_empty w |})
  else (str, s1).

(** [is >> std::ws]. *)
Definition ws (s : istringstream) : istringstream :=
  let '(ok, s1) := sentry true s in
  if ok then
    let b := skip_ws (is_buf s1) in
    {| is_buf := b; is_eofbit := string_is_empty b; is_failbit := false |}
  else s1.

(** [std::getline(is, str, delim)]. *)
Definition getline (s : istringstream) (str : string) (delim : ascii)
    : string * istringstream :=
  let '(ok, s1) := sentry true s in
  if ok then
    match take_until delim (is_buf s1) with
    | (line, Some rest) =>
        (line, {| is_buf := rest; is_eofbit := false; is_failbit := false |})
    | (line, None) =>
        (line, {| is_buf := EmptyString; is_eofbit := true;
                  is_failbit := string_is_empty line |})
    end
  else (str, s1).

(** [is >> channel] for an [int]; [None] is an [int] that has never been
    written. A failed conversion stores 0, an overflow the nearest limit; a
    refused sentry stores nothing. *)
Definition extract_int (s : istringstream) (channel : option Z)
    : option Z * istringstream :=
  let '(ok, s1) := sentry false s in
  if ok then
    let '(v, seen, rest) := take_integer (is_buf s1) in
    if seen then
      (Some (Word.clamp_int v),
       {| is_buf := rest; is_eofbit := string_is_empty rest;
          is_failbit := negb (v =? Word.clamp_int v)%Z |})
    else
      (Some 0, {| is_buf := rest; is_eofbit := string_is_empty rest;
                  is_failbit := true |})
  else (channel, s1).

(** ** The device registry *)

(** An entry of [g_devices]. The host-side [aspl::Device] object belongs to
    the audio host and is not part of the model. *)
Record DeviceInfo : Type := {
  name : string;
  channel : Z;
  handler : DuomicIOHandler
}.

Definition Registry : Type := list DeviceInfo.

Definition has_name (n : string) (dev : DeviceInfo) : bool := String.eqb (name dev) n.

Definition AddVirtualDevice (n : string) (ch : Z) (g_devices : Registry)
    : bool * Registry :=
  if existsb (has_name n) g_devices then (false, g_devices)
  else
    (true,
     (g_devices ++ [{| name := n; channel := ch; handler := new_handler ch |}])%list).

(** Erases the first entry called [n]. *)
Fixpoint erase_first (n : string) (devs : Registry) : option Registry :=
  match devs with
  | [] => None
  | dev :: rest =>
      if has_name n dev then Some rest
      else rest' <- erase_first n rest ;; Some (dev :: rest')
  end.

Definition RemoveVirtualDevice (n : string) (g_devices : Registry) : bool * Registry :=
  match erase_first n g_devices with
  | Some devs => (true, devs)
  | None => (false, g_devices)
  end.

Definition device_line (dev : DeviceInfo) : string :=
  name dev ++ ":" ++ string_of_int (channel dev) ++ LF.

Definition ListDevices (g_devices : Registry) : string * Registry :=
  (fold_right (fun dev out => device_line dev ++ out) EmptyString g_devices,
   g_devices).

(** ** The control command handler *)

Definition HandleCommand (cmd : string) (g_devices : Registry)
    : option (string * Registry) :=
  let iss := open_stream cmd in
  let '(command, iss) := extract_word iss EmptyString in
  if String.eqb command "ADD" then
    let '(n, iss) := getline (ws iss) EmptyString ":" in
    let '(ch, iss) := extract_int iss None in
    if string_is_empty n then Some ("ERROR:Invalid name" ++ LF, g_devices)
    else
      ch <- ch ;;
      if ((ch <? 0) || (ch >=? MAX_CHANNELS))%Z
      then Some ("ERROR:Invalid channel" ++ LF, g_devices)
      else
        let '(added, g_devices) := AddVirtualDevice n ch g_devices in
        if added then Some ("OK:Device added" ++ LF, g_devices)
        else Some ("ERROR:Device already exists" ++ LF, g_devices)
  else if String.eqb command "REMOVE" then
    let '(n, iss) := getline (ws iss) EmptyString LF_char in
    if string_is_empty n then Some ("ERROR:Invalid name" ++ LF, g_devices)
    else
      let '(removed, g_devices) := RemoveVirtualDevice n g_devices in
      if removed then Some ("OK:Device removed" ++ LF, g_devices)
      else Some ("ERROR:Device not found" ++ LF, g_devices)
  else if String.eqb command "LIST" then
    let '(out, g_devices) := ListDevices g_devices in
    Some ("OK" ++ LF ++ out, g_devices)
  else if String.eqb command "PING" then Some ("PONG" ++ LF, g_devices)
  else Some ("ERROR:Unknown command" ++ LF, g_devices).

(** ** The start-up configuration *)

(** The lines that successive [std::getline(file, line)] calls deliver. *)
Fixpoint file_lines (s : string) : list string :=
  match s with
  | EmptyString => []
  | String c r =>
      if Ascii.eqb c LF_char then EmptyString :: file_lines r
      else
        match file_lines r with
        | [] => [String c EmptyString]
        | l :: ls => String c l :: ls
        end
  end.

(** [std::stoi]: leading whitespace, an optional sign, decimal digits;
    throws when there is no digit or the value does not fit an [int]. *)
Definition stoi (s : string) : option Z :=
  let '(v, seen, _) := take_integer (skip_ws s) in
  if seen && (Word.INT_MIN <=? v)%Z && (v <=? Word.INT_MAX)%Z then Some v else None.

Definition is_comment (line : string) : bool :=
  match line with
  | String "#" _ => true
  | _ => false
  end.

Definition default_config : list (string * Z) :=
  [("duomic L", 0%Z); ("duomic R", 1%Z)].

(** The body of the [while] loop of [ReadConfig] over the remaining lines. *)
Fixpoint read_config_lines (lines : list string) (devices : list (string * Z))
    : option (list (string * Z)) :=
  match lines with
  | [] => Some devices
  | line :: rest =>
      if string_is_empty line || is_comment line then read_config_lines rest devices
      else
        match take_until ":" line with
        | (n, Some after) =>
            ch <- stoi after ;;
            if ((0 <=? ch) && (ch <? MAX_CHANNELS))%Z
            then read_config_lines rest (devices ++ [(n, ch)])%list
            else read_config_lines rest devices
        | (_, None) => read_config_lines rest devices
        end
  end.

(** [ReadConfig]; [file] is the content of the configuration file, [None]
    when it cannot be opened. The result is [None] when [std::stoi] throws. *)
Definition ReadConfig (file : option string) : option (list (string * Z)) :=
  match file with
  | None => Some default_config
  | Some content =>
      devices <- read_config_lines (file_lines content) [] ;;
      match devices with
      | [] => Some default_config
      | _ => Some devices
      end
  end.

(** The registry that [CreateDuomicDriver] builds from the configuration. *)
Definition CreateDuomicDriver (file : option string) : option Registry :=
  config <- ReadConfig file ;;
  Some (fold_left (fun g entry => snd (AddVirtualDevice (fst entry) (snd entry) g))
          config []).

Local Close Scope string_scope.

(** ** Sequences of pulls *)

(** One callback of the host: the shared buffer as it is during the call
    and the size of the destination buffer. *)
Definition PullCall : Type := (SharedAudioBuffer * Z)%type.

(** What one callback did: the handler before, the call, the handler after
    and the block delivered. *)
Record PullStep : Type := {
  step_before : DuomicIOHandler;
  step_buffer : SharedAudioBuffer;
  step_after : DuomicIOHandler;
  step_block : list Z
}.

(** The host calling [OnReadClientInput] of one handler again and again. *)
Fixpoint run_pulls (h : DuomicIOHandler) (calls : list PullCall)
    : option (list PullStep) :=
  match calls with
  | [] => Some []
  | (buf, bytesCount) :: rest =>
      r <- OnReadClientInput h buf bytesCount ;;
      steps <- run_pulls (fst r) rest ;;
      Some ({| step_before := h; step_buffer := buf;
               step_after := fst r; step_block := snd r |} :: steps)
  end.

(** [a] is not after [b] on the circle of [uint32_t] frame counts: going
    forward from [a] reaches [b] in fewer than [2^31] steps. *)
Definition cursor_le (a b : Z) : Prop := Word.u32 (b - a) < 2147483648.

(** ** Concrete inputs *)

(** The sample 0.5f, and an active segment of [channels] channels, every
    sample 0.5f, on which the callback is run. *)
Definition f32_half : float32 := S754_finite false 8388608 (-24).

Definition segment_of (writePos channels : Z) : Segment :=
  {| seg_writePos := writePos;
     seg_channelCount := channels;
     seg_reserved := 0;
     seg_activeFlag := 1;
     seg_samples := repeat f32_half (Z.to_nat (RING_BUFFER_FRAMES * channels)) |}.

(** ** Names that an ADD command can carry *)

Fixpoint no_colon (s : string) : bool :=
  match s with
  | EmptyString => true
  | String c r => negb (Ascii.eqb c ":") && no_colon r
  end.

(** Not empty, no whitespace in front, no colon: the names that
    [HandleCommand] reads back unchanged from the text of an ADD command. *)
Definition is_add_name (n : string) : bool :=
  match n with
  | EmptyString => false
  | String c _ => negb (isspace c) && no_colon n
  end.

Definition starts_with_digit (s : string) : bool :=
  match s with
  | EmptyString => false
  | String c _ => isdigit c
  end.

(** The value of a decimal numeral read from the left, from [acc]. *)
Fixpoint uint_value (acc : Z) (d : Decimal.uint) : Z :=
  match d with
  | Decimal.Nil => acc
  | Decimal.D0 d' => uint_value (10 * acc + 0) d'
  | Decimal.D1 d' => uint_value (10 * acc + 1) d'
  | Decimal.D2 d' => uint_value (10 * acc + 2) d'
  | Decimal.D3 d' => uint_value (10 * acc + 3) d'
  | Decimal.D4 d' => uint_value (10 * acc + 4) d'
  | Decimal.D5 d' => uint_value (10 * acc + 5) d'
  | Decimal.D6 d' => uint_value (10 * acc + 6) d'
  | Decimal.D7 d' => uint_value (10 * acc + 7) d'
  | Decimal.D8 d' => uint_value (10 * acc + 8) d'
  | Decimal.D9 d' => uint_value (10 * acc + 9) d'
  end.

(** The pairs that a listing shows. *)
Definition entries (g : Registry) : list (string * Z) :=
  map (fun dev => (name dev, channel dev)) g.

(** ** Exact description of the rounded product *)

(** The integer nearest to [M / 2^k], ties to the even one. *)
Definition rne (M k : Z) : Z :=
  let q := M / 2 ^ k in
  let r := M mod 2 ^ k in
  let half := 2 ^ (k - 1) in
  if r <? half then q
  else if half <? r then q + 1
  else if Z.even q then q else q + 1.

(** Values are counted in units of [2^-158], the weight of the last bit of
    the product of the smallest binary32 number and 32767. *)
Definition scale : Z := 2 ^ 158.

(** The weight (as a power of two, in these units) of the last bit that
    binary32 keeps of the value [V]: 24 significant bits, and nothing below
    [2^-149]. *)
Definition grid (V : Z) : Z := Z.max (Z.log2 V + 1 - 24) 9.

(** [V] rounded to binary32. *)
Definition rounded (V : Z) : Z := rne V (grid V) * 2 ^ grid V.

(** A bound above the value of every finite binary32 number. *)
Definition beyond : Z := 2 ^ 400.

(** The value of a binary32 number in units of [2^-149]; an infinity is
    placed beyond every finite number, a NaN has no value. *)
Definition f32_value (x : float32) : option Z :=
  match x with
  | S754_zero _ => Some 0
  | S754_finite s m e => Some (cond_Zopp s (Zpos m * 2 ^ (e + 149)))
  | S754_infinity s => Some (cond_Zopp s beyond)
  | S754_nan => None
  end.

(** The mantissa of [32767.0f]; [32767 = c32767 * 2^-9]. *)
Definition c32767 : Z := 16776704.

(** [ConvertToSInt16] as a function of the value of its argument. *)
Definition convert_value (v : Z) : Z :=
  if 2 ^ 149 <=? v then 32767
  else if v <=? - 2 ^ 149 then -32768
  else if 0 <=? v then rounded (v * c32767) / scale
  else - (rounded (- v * c32767) / scale).

(** ** Well-formed segments *)

(** The mapping holds the whole ring of the advertised channel count, and
    every sample in it is a binary32 number other than a NaN. *)
Definition segment_ok (p : Segment) : Prop :=
  RING_BUFFER_FRAMES * getChannelCount (Some p)
    <= Z.of_nat (List.length (seg_samples p)) /\
  Forall (fun x : float32 => f32_valid x = true /\ x <> S754_nan) (seg_samples p).

Definition buffer_ok (b : SharedAudioBuffer) : Prop :=
  match b with
  | None => True
  | Some p => segment_ok p
  end.

(** ** Invariant of the registry *)

(** Names are pairwise distinct, every channel index is one that the
    command handler and the configuration reader accept, and every handler
    pulls the channel of its entry. *)
Definition registry_ok (g : Registry) : Prop :=
  NoDup (map name g) /\
  Forall (fun dev : DeviceInfo =>
            0 <= channel dev < MAX_CHANNELS /\
            channelIndex_ (handler dev) = channel dev) g.

Fixpoint no_lf (s : string) : bool :=
  match s with
  | EmptyString => true
  | String c r => negb (Ascii.eqb c LF_char) && no_lf r
  end.

Fixpoint all_ws (s : string) : bool :=
  match s with
  | EmptyString => true
  | String c r => isspace c && all_ws r
  end.

(** Not empty, no whitespace in front, no line feed: the names that
    [HandleCommand] reads back unchanged from the text of a REMOVE command. *)
Definition is_remove_name (n : string) : bool :=
  match n with
  | EmptyString => false
  | String c _ => negb (isspace c) && no_lf n
  end.

(** ** Lines of the configuration that make [std::stoi] throw *)

(** A line that is read (not blank, not a comment), has a colon, and has
    after the colon a text that [std::stoi] does not accept. *)
Definition line_throws (line : string) : bool :=
  negb (string_is_empty line || is_comment line) &&
  match take_until ":" line with
  | (_, Some after) =>
      match stoi after with
      | None => true
      | Some _ => false
      end
  | (_, None) => false
  end.

(** ** Pulls in steady state *)

(** A call that finds the handler behind the write position by at least
    the frames requested and at most [RING_BUFFER_FRAMES - 512], on a channel
    the segment carries, with a read position that is not the start-up
    value. *)
Definition steady (h : DuomicIOHandler) (call : PullCall) : Prop :=
  isActive (fst call) = true /\
  channelIndex_ h < Word.to_int (getChannelCount (fst call)) /\
  0 < readPos_ h < getWritePos (fst call) /\
  frames_of_bytes (snd call) <= getWritePos (fst call) - readPos_ h
    <= RING_BUFFER_FRAMES - 512.

(** Every call of the run is steady for the handler as the calls before it
    leave it. *)
Fixpoint steady_run (h : DuomicIOHandler) (calls : list PullCall) : Prop :=
  match calls with
  | [] => True
  | call :: rest =>
      steady h call /\
      steady_run (set_readPos h (readPos_ h + frames_of_bytes (snd call))) rest
  end.

(** Each step starts with the handler that the step before it left. *)
Fixpoint chained (h : DuomicIOHandler) (steps : list PullStep) : Prop :=
  match steps with
  | [] => True
  | s :: rest => step_before s = h /\ chained (step_after s) rest
  end.

(** ** Mapping the shared memory file (Driver.cpp, lines 65-90)

    The private members of [SharedAudioBuffer] and the two functions that
    change them.  Pointers are integers, [nullptr] is 0 and [MAP_FAILED]
    is -1.  The results of the system calls of one [connect] are its inputs,
    and each function returns the calls it made, in order. *)

Definition MAP_FAILED : Z := -1.

Record SharedAudioBufferState : Type := {
  ptr_ : Z;
  fd_ : Z;
  bufferSize_ : Z
}.

(** Lines 120-122: the member initialisers. *)
Definition unconnected : SharedAudioBufferState :=
  {| ptr_ := 0; fd_ := -1; bufferSize_ := 0 |}.

Inductive Syscall : Type :=
| sys_open (result : Z)
| sys_lseek_end (fd result : Z)
| sys_lseek_set (fd : Z)
| sys_mmap (len fd result : Z)
| sys_munmap (addr len : Z)
| sys_close (fd : Z).

Record ConnectResults : Type := {
  open_result : Z;
  lseek_result : Z;
  mmap_result : Z
}.

Definition connect (a : SharedAudioBufferState) (os : ConnectResults)
    : SharedAudioBufferState * list Syscall :=
  if negb (ptr_ a =? 0) then (a, [])
  else
    let fd := open_result os in
    if 0 <=? fd then
      let size := lseek_result os in
      let seeks := [sys_open fd; sys_lseek_end fd size; sys_lseek_set fd] in
      if 0 <? size then
        let mapped := mmap_result os in
        if negb (mapped =? MAP_FAILED) then
          ({| ptr_ := mapped; fd_ := fd; bufferSize_ := size |},
           seeks ++ [sys_mmap size fd mapped])
        else
          ({| ptr_ := ptr_ a; fd_ := fd_ a; bufferSize_ := size |},
           seeks ++ [sys_mmap size fd mapped; sys_close fd])
      else (a, seeks ++ [sys_close fd])
    else (a, [sys_open fd]).

Definition disconnect (a : SharedAudioBufferState)
    : SharedAudioBufferState * list Syscall :=
  let p := ptr_ a in
  let unmap :=
    if negb (p =? 0) && negb (p =? MAP_FAILED)
    then [sys_munmap p (bufferSize_ a)] else [] in
  if 0 <=? fd_ a
  then ({| ptr_ := 0; fd_ := -1; bufferSize_ := bufferSize_ a |},
        unmap ++ [sys_close (fd_ a)])
  else ({| ptr_ := 0; fd_ := fd_ a; bufferSize_ := bufferSize_ a |}, unmap).

(** What the accessors see: nothing through a null [ptr_], the contents of
    the mapped file otherwise. *)
Definition mapped_view (a : SharedAudioBufferState) (contents : Segment)
    : SharedAudioBuffer :=
  if ptr_ a =? 0 then None else Some contents.

(** The descriptors and mappings of the process that a sequence of system
    calls leaves open. *)
Record Resources : Type := {
  open_fds : list Z;
  mappings : list (Z * Z)
}.

Definition no_resources : Resources := {| open_fds := []; mappings := [] |}.

Fixpoint drop_fd (fd : Z) (l : list Z) : list Z :=
  match l with
  | [] => []
  | x :: rest => if x =? fd then rest else x :: drop_fd fd rest
  end.

Fixpoint drop_mapping (p len : Z) (l : list (Z * Z)) : list (Z * Z) :=
  match l with
  | [] => []
  | x :: rest =>
      if (fst x =? p) && (snd x =? len) then rest
      else x :: drop_mapping p len rest
  end.

Definition sys_step (r : Resources) (c : Syscall) : Resources :=
  match c with
  | sys_open fd =>
      if 0 <=? fd
      then {| open_fds := fd :: open_fds r; mappings := mappings r |} else r
  | sys_mmap len _ p =>
      if p =? MAP_FAILED then r
      else {| open_fds := open_fds r; mappings := (p, len) :: mappings r |}
  | sys_munmap p len =>
      {| open_fds := open_fds r; mappings := drop_mapping p len (mappings r) |}
  | sys_close fd =>
      {| open_fds := drop_fd fd (open_fds r); mappings := mappings r |}
  | sys_lseek_end _ _ | sys_lseek_set _ => r
  end.

Definition run_syscalls (t : list Syscall) (r : Resources) : Resources :=
  fold_left sys_step t r.

(** The resources the members of the object account for. *)
Definition owns (a : SharedAudioBufferState) : Resources :=
  {| open_fds := if 0 <=? fd_ a then [fd_ a] else [];
     mappings := if ptr_ a =? 0 then [] else [(ptr_ a, bufferSize_ a)] |}.

(** The object is either unconnected, with no descriptor, or holds a mapping
    and the descriptor it was made from. *)
Definition state_ok (a : SharedAudioBufferState) : Prop :=
  (ptr_ a = 0 /\ fd_ a < 0) \/
  (ptr_ a <> 0 /\ ptr_ a <> MAP_FAILED /\ 0 <= fd_ a).

(** * Properties *)

(** ** Machine arithmetic *)

Lemma u32_range (z : Z) : 0 <= Word.u32 z < Word.modulus32.
Proof. unfold Word.u32, Word.modulus32. apply Z.mod_pos_bound. lia. Qed.

Lemma u32_small (z : Z) : 0 <= z < Word.modulus32 -> Word.u32 z = z.
Proof. intros Hz. unfold Word.u32. apply Z.mod_small. exact Hz. Qed.

Lemma to_int_le (z : Z) : Word.to_int z <= z.
Proof.
  unfold Word.to_int, Word.modulus32.
  destruct (z <? 2147483648); lia.
Qed.

Lemma frames_of_bytes_nonneg (bytesCount : Z) : 0 <= frames_of_bytes bytesCount.
Proof.
  unfold frames_of_bytes, ChannelCount.
  pose proof (u32_range bytesCount) as Hb.
  rewrite Z.div_1_r. apply Z.div_pos; lia.
Qed.

(** After the seeding and overrun steps, [available] is the distance from
    the read position to the write position. *)
Lemma overrun_adjust_available (readPos writePos r a : Z) :
  overrun_adjust readPos writePos = (r, a) -> Word.u32 (writePos - r) = a.
Proof.
  unfold overrun_adjust, RING_BUFFER_FRAMES, TARGET_LATENCY.
  destruct (Word.u32 (writePos - readPos) >? 8192 - 512); intros H;
    inversion H; subst; clear H.
  - unfold Word.u32, Word.modulus32.
    rewrite Zminus_mod_idemp_r.
    replace (writePos - (writePos - 1024)) with 1024 by lia.
    reflexivity.
  - reflexivity.
Qed.

(** ** The copy loop *)

Lemma copy_loop_length (shm : list float32) (r c ch : Z) :
  forall (count : nat) (i : Z) (blk : list Z),
    copy_loop shm r c ch i count = Some blk -> List.length blk = count.
Proof.
  induction count as [|count IH]; intros i blk H; simpl in H.
  - inversion H. reflexivity.
  - destruct (nth_error shm (Z.to_nat (sample_index r c ch i))) as [x|];
      simpl in H; [|discriminate].
    destruct (ConvertToSInt16 x) as [v|]; simpl in H; [|discriminate].
    destruct (copy_loop shm r c ch (i + 1) count) as [rest|] eqn:Hrest;
      simpl in H; [|discriminate].
    inversion H. simpl. f_equal. eapply IH. exact Hrest.
Qed.

(** Sample [k] of the block is the conversion of the sample stored at the
    slot of frame [readPos + i + k]. *)
Lemma copy_loop_nth (shm : list float32) (r c ch : Z) :
  forall (count : nat) (i : Z) (blk : list Z),
    copy_loop shm r c ch i count = Some blk ->
    forall k : Z, 0 <= k < Z.of_nat count ->
      exists x : float32,
        nth_error shm (Z.to_nat (sample_index r c ch (i + k))) = Some x /\
        ConvertToSInt16 x = Some (nth (Z.to_nat k) blk 0).
Proof.
  induction count as [|count IH]; intros i blk H k Hk; [lia|].
  simpl in H.
  destruct (nth_error shm (Z.to_nat (sample_index r c ch i))) as [x|] eqn:Hx;
    simpl in H; [|discriminate].
  destruct (ConvertToSInt16 x) as [v|] eqn:Hv; simpl in H; [|discriminate].
  destruct (copy_loop shm r c ch (i + 1) count) as [rest|] eqn:Hrest;
    simpl in H; [|discriminate].
  inversion H; subst blk; clear H.
  destruct (Z.eq_dec k 0) as [->|Hk0].
  - exists x. rewrite Z.add_0_r. split; [exact Hx | exact Hv].
  - destruct (IH (i + 1) rest Hrest (k - 1)) as [y [Hy Hc]]; [lia|].
    exists y. replace (i + k) with (i + 1 + (k - 1)) by lia.
    split; [exact Hy|].
    replace (Z.to_nat k) with (S (Z.to_nat (k - 1))) by lia.
    exact Hc.
Qed.

(** The loop completes when every slot it visits lies in the mapped array
    and holds a sample that has a conversion. *)
Lemma copy_loop_total (shm : list float32) (r c ch : Z) :
  forall (count : nat) (i : Z),
    (forall k : Z, 0 <= k < Z.of_nat count ->
       exists x : float32,
         nth_error shm (Z.to_nat (sample_index r c ch (i + k))) = Some x /\
         ConvertToSInt16 x <> None) ->
    exists blk : list Z, copy_loop shm r c ch i count = Some blk.
Proof.
  induction count as [|count IH]; intros i H.
  - exists []. reflexivity.
  - destruct (H 0) as [x [Hx Hc]]; [lia|].
    rewrite Z.add_0_r in Hx.
    destruct (ConvertToSInt16 x) as [v|] eqn:Hv; [|congruence].
    destruct (IH (i + 1)) as [rest Hrest].
    + intros k Hk. destruct (H (k + 1)) as [y [Hy Hcy]]; [lia|].
      exists y. replace (i + 1 + k) with (i + (k + 1)) by lia. auto.
    + exists (v :: rest). simpl. rewrite Hx. simpl. rewrite Hv. simpl.
      rewrite Hrest. reflexivity.
Qed.

(** ** The pull callback *)

(** A pull of an inactive or disconnected buffer. *)
Lemma pull_inactive (h : DuomicIOHandler) (buf : SharedAudioBuffer) (bytesCount : Z) :
  isActive buf = false ->
  OnReadClientInput h buf bytesCount = Some (h, silence (frames_of_bytes bytesCount)).
Proof.
  intros H. unfold OnReadClientInput. rewrite H. reflexivity.
Qed.

(** A pull of a channel that the segment does not carry. *)
Lemma pull_bad_channel (h : DuomicIOHandler) (buf : SharedAudioBuffer) (bytesCount : Z) :
  (channelIndex_ h >=? Word.to_int (getChannelCount buf)) = true ->
  OnReadClientInput h buf bytesCount = Some (h, silence (frames_of_bytes bytesCount)).
Proof.
  intros H. unfold OnReadClientInput.
  destruct (isActive buf); [|reflexivity]. simpl.
  destruct (getSamples buf); [|reflexivity].
  rewrite H. reflexivity.
Qed.

(** A pull that passes the activity and channel checks: silence on
    underrun, otherwise exactly [numSamples] converted frames. *)
Lemma pull_active (h : DuomicIOHandler) (p : Segment) (bytesCount r a : Z) :
  isActive (Some p) = true ->
  (channelIndex_ h >=? Word.to_int (getChannelCount (Some p))) = false ->
  overrun_adjust (seed_readPos (readPos_ h) (getWritePos (Some p)))
    (getWritePos (Some p)) = (r, a) ->
  OnReadClientInput h (Some p) bytesCount =
    if (getWritePos (Some p) <=? r) || (a <? frames_of_bytes bytesCount)
    then Some (set_readPos h r, silence (frames_of_bytes bytesCount))
    else
      blk <- copy_loop (seg_samples p) r (getChannelCount (Some p))
               (channelIndex_ h) 0 (Z.to_nat (frames_of_bytes bytesCount)) ;;
      Some (set_readPos h (Word.u32 (r + frames_of_bytes bytesCount)), blk).
Proof.
  intros Hact Hch Hadj.
  unfold OnReadClientInput. rewrite Hact. cbn [negb getSamples].
  rewrite Hch, Hadj.
  destruct ((getWritePos (Some p) <=? r) || (a <? frames_of_bytes bytesCount))
    eqn:Hunder; [reflexivity|].
  apply orb_false_elim in Hunder. destruct Hunder as [_ Hlt].
  apply Z.ltb_ge in Hlt.
  pose proof (overrun_adjust_available _ _ _ _ Hadj) as Hav.
  unfold samplesToRead. rewrite Hav, Z.min_l by exact Hlt.
  rewrite Z.ltb_irrefl.
  destruct (copy_loop (seg_samples p) r (getChannelCount (Some p))
              (channelIndex_ h) 0 (Z.to_nat (frames_of_bytes bytesCount)));
    simpl; [|reflexivity].
  rewrite app_nil_r. reflexivity.
Qed.

Lemma silence_length (n : Z) : List.length (silence n) = Z.to_nat n.
Proof. unfold silence. apply repeat_length. Qed.

Lemma silence_zero (n : Z) : Forall (fun v => v = 0) (silence n).
Proof.
  unfold silence. apply Forall_forall. intros v Hv.
  apply repeat_spec in Hv. exact Hv.
Qed.

(** The slot of frame [readPos + i] when no intermediate result wraps. *)
Lemma sample_index_plain (readPos inputChannels channelIndex i : Z) :
  0 <= readPos + i < Word.modulus32 ->
  0 <= ((readPos + i) mod RING_BUFFER_FRAMES) * inputChannels + channelIndex
    < Word.modulus32 ->
  sample_index readPos inputChannels channelIndex i =
  ((readPos + i) mod RING_BUFFER_FRAMES) * inputChannels + channelIndex.
Proof.
  intros H1 H2. unfold sample_index.
  rewrite (u32_small (readPos + i)) by exact H1.
  rewrite (u32_small ((readPos + i) mod RING_BUFFER_FRAMES)).
  - apply u32_small. exact H2.
  - unfold RING_BUFFER_FRAMES, Word.modulus32.
    pose proof (Z.mod_pos_bound (readPos + i) 8192). lia.
Qed.

(** Between the position at entry and the write position: every way out of
    [OnReadClientInput] leaves the read position on the arc that leads from
    where it was to the write position. *)
Lemma pull_cursor_on_arc (h h' : DuomicIOHandler) (buf : SharedAudioBuffer)
    (bytesCount : Z) (blk : list Z) :
  0 <= readPos_ h < Word.modulus32 ->
  OnReadClientInput h buf bytesCount = Some (h', blk) ->
  channelIndex_ h' = channelIndex_ h /\
  0 <= readPos_ h' < Word.modulus32 /\
  Word.u32 (readPos_ h' - readPos_ h) + Word.u32 (getWritePos buf - readPos_ h')
    = Word.u32 (getWritePos buf - readPos_ h).
Proof.
  intros Hr H.
  assert (Hsame : channelIndex_ h = channelIndex_ h /\
                  0 <= readPos_ h < Word.modulus32 /\
                  Word.u32 (readPos_ h - readPos_ h) +
                  Word.u32 (getWritePos buf - readPos_ h) =
                  Word.u32 (getWritePos buf - readPos_ h)).
  { repeat split; try lia. rewrite Z.sub_diag. reflexivity. }
  destruct (isActive buf) eqn:Hact.
  2:{ rewrite pull_inactive in H by exact Hact. inversion H; subst. exact Hsame. }
  destruct (channelIndex_ h >=? Word.to_int (getChannelCount buf)) eqn:Hch.
  { rewrite pull_bad_channel in H by exact Hch. inversion H; subst. exact Hsame. }
  destruct buf as [p|]; [|discriminate Hact].
  destruct (overrun_adjust (seed_readPos (readPos_ h) (getWritePos (Some p)))
              (getWritePos (Some p))) as [r a] eqn:Hadj.
  rewrite (pull_active h p bytesCount r a Hact Hch Hadj) in H.
  pose proof (overrun_adjust_available _ _ _ _ Hadj) as Hav.
  pose proof (frames_of_bytes_nonneg bytesCount) as Hn.
  set (n := frames_of_bytes bytesCount) in *.
  set (W := getWritePos (Some p)) in *.
  assert (HW : 0 <= W < Word.modulus32) by (apply u32_range).
  (* the position after seeding and overrun handling is on the arc *)
  assert (Harc : 0 <= r < Word.modulus32 /\
                 Word.u32 (r - readPos_ h) + a = Word.u32 (W - readPos_ h)).
  { clearbody W n. clear H Hact Hch Hsame.
    unfold overrun_adjust, seed_readPos, RING_BUFFER_FRAMES, TARGET_LATENCY in Hadj.
    unfold Word.u32, Word.modulus32 in *.
    destruct ((readPos_ h =? 0) && (W >? 1024)) eqn:Hseed.
    - apply andb_true_iff in Hseed. destruct Hseed as [H0 HW1].
      apply Z.eqb_eq in H0. apply Z.gtb_lt in HW1. rewrite H0 in *.
      destruct ((W - (W - 1024) mod 4294967296) mod 4294967296 >? 8192 - 512) eqn:Hov;
        inversion Hadj; subst; clear Hadj;
        try (apply Z.gtb_lt in Hov);
        Z.div_mod_to_equations; lia.
    - destruct ((W - readPos_ h) mod 4294967296 >? 8192 - 512) eqn:Hov;
        inversion Hadj; subst; clear Hadj;
        try (apply Z.gtb_lt in Hov);
        Z.div_mod_to_equations; lia. }
  destruct Harc as [Hrr Harc].
  destruct ((W <=? r) || (a <? n)) eqn:Hunder.
  - inversion H; subst h' blk; clear H. cbn [set_readPos channelIndex_ readPos_].
    split; [reflexivity|]. split; [exact Hrr|]. rewrite Hav. exact Harc.
  - apply orb_false_elim in Hunder. destruct Hunder as [HWr Han].
    apply Z.leb_gt in HWr. apply Z.ltb_ge in Han.
    destruct (copy_loop (seg_samples p) r (getChannelCount (Some p))
                (channelIndex_ h) 0 (Z.to_nat n)); simpl in H; [|discriminate].
    inversion H; subst h' blk; clear H. cbn [set_readPos channelIndex_ readPos_].
    split; [reflexivity|]. split; [apply u32_range|].
    clearbody W n. clear Hact Hch Hsame Hadj.
    unfold Word.u32, Word.modulus32 in *.
    Z.div_mod_to_equations. lia.
Qed.

(** C1. A fresh handler of channel 3 (as the configuration line
    studioMic:3 creates it), an active segment of 4 channels whose write
    cursor is 2000, a buffer of 256 frames: the read position is seeded to
    976, the block is the conversion of the 256 samples at the slots
    ((976 + i) mod 8192) * 4 + 3, and the read position ends at 1232. *)
Theorem first_pull_scenario (p : Segment) (bytesCount : Z) :
  seg_channelCount p = 4 ->
  seg_activeFlag p = 1 ->
  seg_writePos p = 2000 ->
  frames_of_bytes bytesCount = 256 ->
  (forall i : Z, 0 <= i < 256 ->
     exists x : float32,
       nth_error (seg_samples p)
         (Z.to_nat (((976 + i) mod RING_BUFFER_FRAMES) * 4 + 3)) = Some x /\
       ConvertToSInt16 x <> None) ->
  CreateDuomicDriver (Some "studioMic:3"%string) =
    Some [{| name := "studioMic"%string; channel := 3; handler := new_handler 3 |}] /\
  seed_readPos (readPos_ (new_handler 3)) (getWritePos (Some p)) = 976 /\
  exists blk : list Z,
    OnReadClientInput (new_handler 3) (Some p) bytesCount =
      Some ({| channelIndex_ := 3; readPos_ := 1232 |}, blk) /\
    List.length blk = 256%nat /\
    forall i : Z, 0 <= i < 256 ->
      exists x : float32,
        nth_error (seg_samples p)
          (Z.to_nat (((976 + i) mod RING_BUFFER_FRAMES) * 4 + 3)) = Some x /\
        ConvertToSInt16 x = Some (nth (Z.to_nat i) blk 0).
Proof.
  intros Hc Ha Hw Hn Hs.
  assert (Hidx : forall i : Z, 0 <= i < 256 ->
            sample_index 976 4 3 i = ((976 + i) mod RING_BUFFER_FRAMES) * 4 + 3).
  { intros i Hi. apply sample_index_plain; unfold Word.modulus32, RING_BUFFER_FRAMES;
      [lia|]. rewrite Z.mod_small; lia. }
  split; [reflexivity|].
  split; [cbn; rewrite Hw; reflexivity|].
  assert (Hpull : OnReadClientInput (new_handler 3) (Some p) bytesCount =
            blk <- copy_loop (seg_samples p) 976 4 3 0 256 ;;
            Some ({| channelIndex_ := 3; readPos_ := 1232 |}, blk)).
  { rewrite (pull_active (new_handler 3) p bytesCount 976 1024).
    - cbn [getWritePos getChannelCount new_handler channelIndex_ readPos_].
      rewrite Hw, Hc, Hn. reflexivity.
    - cbn. rewrite Ha. reflexivity.
    - cbn [getChannelCount new_handler channelIndex_]. rewrite Hc. reflexivity.
    - cbn [getWritePos new_handler readPos_]. rewrite Hw. reflexivity. }
  destruct (copy_loop_total (seg_samples p) 976 4 3 256 0) as [blk Hblk].
  { intros k Hk. rewrite Z.add_0_l, Hidx by lia. apply Hs. lia. }
  exists blk. rewrite Hpull, Hblk. split; [reflexivity|].
  split; [eapply copy_loop_length; exact Hblk|].
  intros i Hi.
  destruct (copy_loop_nth _ _ _ _ _ _ _ Hblk i) as [x [Hx Hv]]; [lia|].
  exists x. rewrite Z.add_0_l, Hidx in Hx by lia. split; assumption.
Qed.

Lemma first_pull_scenario_witness :
  exists blk : list Z,
    OnReadClientInput (new_handler 3) (Some (segment_of 2000 4)) 512 =
      Some ({| channelIndex_ := 3; readPos_ := 1232 |}, blk) /\
    List.length blk = 256%nat.
Proof.
  destruct (first_pull_scenario (segment_of 2000 4) 512) as [_ [_ [blk [H1 [H2 _]]]]];
    try reflexivity.
  - intros i Hi. exists f32_half. split; [|vm_compute; discriminate].
    apply nth_error_repeat. unfold RING_BUFFER_FRAMES.
    rewrite Z.mod_small by lia. lia.
  - exists blk. split; assumption.
Defined.

(** C10. A pull that reaches the copy loop reads exactly the requested
    number of frames: [samplesToRead] equals [numSamples], the zero-fill
    branch after the loop is not taken, and the block delivered is the
    output of the loop alone, each sample the conversion of a stored one. *)
Theorem pull_reads_every_requested_frame (h : DuomicIOHandler) (p : Segment)
    (bytesCount r a : Z) :
  isActive (Some p) = true ->
  (channelIndex_ h >=? Word.to_int (getChannelCount (Some p))) = false ->
  overrun_adjust (seed_readPos (readPos_ h) (getWritePos (Some p)))
    (getWritePos (Some p)) = (r, a) ->
  ((getWritePos (Some p) <=? r) || (a <? frames_of_bytes bytesCount)) = false ->
  samplesToRead (frames_of_bytes bytesCount) (getWritePos (Some p)) r
    = frames_of_bytes bytesCount /\
  (samplesToRead (frames_of_bytes bytesCount) (getWritePos (Some p)) r
     <? frames_of_bytes bytesCount) = false /\
  OnReadClientInput h (Some p) bytesCount =
    (blk <- copy_loop (seg_samples p) r (getChannelCount (Some p))
              (channelIndex_ h) 0 (Z.to_nat (frames_of_bytes bytesCount)) ;;
     Some (set_readPos h (Word.u32 (r + frames_of_bytes bytesCount)), blk)) /\
  forall (h' : DuomicIOHandler) (blk : list Z),
    OnReadClientInput h (Some p) bytesCount = Some (h', blk) ->
    List.length blk = Z.to_nat (frames_of_bytes bytesCount) /\
    forall k : Z, 0 <= k < frames_of_bytes bytesCount ->
      exists x : float32,
        nth_error (seg_samples p)
          (Z.to_nat (sample_index r (getChannelCount (Some p)) (channelIndex_ h) k))
          = Some x /\
        ConvertToSInt16 x = Some (nth (Z.to_nat k) blk 0).
Proof.
  intros Hact Hch Hadj Hunder.
  pose proof (pull_active h p bytesCount r a Hact Hch Hadj) as Hpull.
  rewrite Hunder in Hpull.
  apply orb_false_elim in Hunder. destruct Hunder as [_ Hlt].
  apply Z.ltb_ge in Hlt.
  pose proof (overrun_adjust_available _ _ _ _ Hadj) as Hav.
  assert (Hn : samplesToRead (frames_of_bytes bytesCount) (getWritePos (Some p)) r
               = frames_of_bytes bytesCount).
  { unfold samplesToRead. rewrite Hav. apply Z.min_l. exact Hlt. }
  split; [exact Hn|]. split; [rewrite Hn; apply Z.ltb_irrefl|].
  split; [exact Hpull|].
  intros h' blk H. rewrite Hpull in H.
  destruct (copy_loop (seg_samples p) r (getChannelCount (Some p))
              (channelIndex_ h) 0 (Z.to_nat (frames_of_bytes bytesCount)))
    as [out|] eqn:Hout; simpl in H; [|discriminate].
  inversion H; subst h' blk; clear H.
  split; [eapply copy_loop_length; exact Hout|].
  intros k Hk.
  destruct (copy_loop_nth _ _ _ _ _ _ _ Hout k) as [x [Hx Hv]]; [lia|].
  exists x. rewrite Z.add_0_l in Hx. split; assumption.
Qed.

Lemma pull_reads_every_requested_frame_witness :
  samplesToRead (frames_of_bytes 512) (getWritePos (Some (segment_of 9000 2))) 7976
    = frames_of_bytes 512.
Proof.
  apply (pull_reads_every_requested_frame
           {| channelIndex_ := 1; readPos_ := 500 |} (segment_of 9000 2) 512 7976 1024);
    reflexivity.
Defined.

(** C3, as the code has it. A pull of an inactive or disconnected buffer,
    or of a channel index that is not less than the channel count, delivers
    a block of zeros of the requested length and leaves the handler as it
    was. A pull that finds, after the seeding and overrun steps of the same
    call, the write position not after the read position or fewer frames
    available than requested, delivers the same block of zeros and leaves
    the read position where those steps put it: at the write position minus
    the target latency when one of them fired, at its value at entry
    otherwise. *)
Theorem pull_silence (h : DuomicIOHandler) (buf : SharedAudioBuffer) (bytesCount : Z) :
  List.length (silence (frames_of_bytes bytesCount))
    = Z.to_nat (frames_of_bytes bytesCount) /\
  Forall (fun v => v = 0) (silence (frames_of_bytes bytesCount)) /\
  (isActive buf = false \/ getChannelCount buf <= channelIndex_ h ->
   OnReadClientInput h buf bytesCount
     = Some (h, silence (frames_of_bytes bytesCount))) /\
  (forall r a : Z,
     isActive buf = true ->
     channelIndex_ h < Word.to_int (getChannelCount buf) ->
     overrun_adjust (seed_readPos (readPos_ h) (getWritePos buf)) (getWritePos buf)
       = (r, a) ->
     getWritePos buf <= r \/ a < frames_of_bytes bytesCount ->
     OnReadClientInput h buf bytesCount
       = Some (set_readPos h r, silence (frames_of_bytes bytesCount)) /\
     r = if ((readPos_ h =? 0) && (getWritePos buf >? TARGET_LATENCY))
            || (Word.u32 (getWritePos buf - readPos_ h) >? RING_BUFFER_FRAMES - 512)
         then Word.u32 (getWritePos buf - TARGET_LATENCY)
         else readPos_ h).
Proof.
  split; [apply silence_length|]. split; [apply silence_zero|]. split.
  - intros [Hin|Hch].
    + apply pull_inactive. exact Hin.
    + apply pull_bad_channel. apply Z.geb_le.
      pose proof (to_int_le (getChannelCount buf)). lia.
  - intros r a Hact Hch Hadj Hunder.
    destruct buf as [p|]; [|discriminate Hact].
    split.
    + rewrite (pull_active h p bytesCount r a Hact); [| |exact Hadj].
      * replace ((getWritePos (Some p) <=? r) || (a <? frames_of_bytes bytesCount))
          with true; [reflexivity|].
        symmetry. apply orb_true_iff.
        destruct Hunder as [H|H]; [left; apply Z.leb_le | right; apply Z.ltb_lt];
          exact H.
      * rewrite Z.geb_leb. apply Z.leb_gt. exact Hch.
    + unfold overrun_adjust, seed_readPos in Hadj.
      destruct ((readPos_ h =? 0) && (getWritePos (Some p) >? TARGET_LATENCY))
        eqn:Hseed; cbn [orb].
      * destruct (Word.u32 (getWritePos (Some p)
                    - Word.u32 (getWritePos (Some p) - TARGET_LATENCY))
                  >? RING_BUFFER_FRAMES - 512);
          inversion Hadj; reflexivity.
      * destruct (Word.u32 (getWritePos (Some p) - readPos_ h)
                  >? RING_BUFFER_FRAMES - 512);
          inversion Hadj; reflexivity.
Qed.

Lemma pull_silence_witness :
  OnReadClientInput (new_handler 0) None 512
    = Some (new_handler 0, silence (frames_of_bytes 512)) /\
  OnReadClientInput {| channelIndex_ := 0; readPos_ := 1900 |}
      (Some (segment_of 2000 2)) 512
    = Some ({| channelIndex_ := 0; readPos_ := 1900 |}, silence (frames_of_bytes 512)).
Proof.
  split.
  - destruct (pull_silence (new_handler 0) None 512) as [_ [_ [H _]]].
    apply H. left. reflexivity.
  - destruct (pull_silence {| channelIndex_ := 0; readPos_ := 1900 |}
                (Some (segment_of 2000 2)) 512) as [_ [_ [_ H]]].
    exact (proj1 (H 1900 100 eq_refl eq_refl eq_refl (or_intror eq_refl))).
Defined.

(** C3 as stated fails: a fresh handler asked for 3000 frames when the
    write cursor is 2000 has fewer frames available than requested, both at
    entry (2000) and after seeding (1024); the block is silent, but the read
    position has moved from 0 to 976. *)
Lemma pull_silence_moves_cursor :
  Word.u32 (getWritePos (Some (segment_of 2000 2)) - readPos_ (new_handler 0))
    < frames_of_bytes 6000 /\
  overrun_adjust
    (seed_readPos (readPos_ (new_handler 0)) (getWritePos (Some (segment_of 2000 2))))
    (getWritePos (Some (segment_of 2000 2))) = (976, 1024) /\
  1024 < frames_of_bytes 6000 /\
  exists h' : DuomicIOHandler,
    OnReadClientInput (new_handler 0) (Some (segment_of 2000 2)) 6000
      = Some (h', silence (frames_of_bytes 6000)) /\
    readPos_ h' = 976 /\
    readPos_ h' <> readPos_ (new_handler 0).
Proof.
  split; [reflexivity|]. split; [reflexivity|]. split; [reflexivity|].
  exists {| channelIndex_ := 0; readPos_ := 976 |}.
  split; [vm_compute; reflexivity|]. split; [reflexivity|].
  cbn. discriminate.
Qed.

(** C2, as the code has it. When the frames available after the seeding
    step are more than [RING_BUFFER_FRAMES - 512], the pull moves the read
    position to the write position minus the target latency and goes on
    with [available] equal to the target latency: silence at that position
    when more than the target latency is requested, otherwise the requested
    frames read from that position. *)
Theorem pull_overrun (h : DuomicIOHandler) (p : Segment) (bytesCount : Z) :
  isActive (Some p) = true ->
  channelIndex_ h < Word.to_int (getChannelCount (Some p)) ->
  Word.u32 (getWritePos (Some p) - seed_readPos (readPos_ h) (getWritePos (Some p)))
    > RING_BUFFER_FRAMES - 512 ->
  overrun_adjust (seed_readPos (readPos_ h) (getWritePos (Some p)))
    (getWritePos (Some p))
    = (Word.u32 (getWritePos (Some p) - TARGET_LATENCY), TARGET_LATENCY) /\
  OnReadClientInput h (Some p) bytesCount =
    if (getWritePos (Some p) <=? Word.u32 (getWritePos (Some p) - TARGET_LATENCY))
       || (TARGET_LATENCY <? frames_of_bytes bytesCount)
    then Some (set_readPos h (Word.u32 (getWritePos (Some p) - TARGET_LATENCY)),
               silence (frames_of_bytes bytesCount))
    else
      blk <- copy_loop (seg_samples p)
               (Word.u32 (getWritePos (Some p) - TARGET_LATENCY))
               (getChannelCount (Some p)) (channelIndex_ h) 0
               (Z.to_nat (frames_of_bytes bytesCount)) ;;
      Some (set_readPos h
              (Word.u32 (Word.u32 (getWritePos (Some p) - TARGET_LATENCY)
                         + frames_of_bytes bytesCount)), blk).
Proof.
  intros Hact Hch Hover.
  assert (Hadj : overrun_adjust (seed_readPos (readPos_ h) (getWritePos (Some p)))
                   (getWritePos (Some p))
                 = (Word.u32 (getWritePos (Some p) - TARGET_LATENCY), TARGET_LATENCY)).
  { unfold overrun_adjust.
    replace (Word.u32 (getWritePos (Some p)
               - seed_readPos (readPos_ h) (getWritePos (Some p)))
             >? RING_BUFFER_FRAMES - 512) with true; [reflexivity|].
    symmetry. apply Z.gtb_lt. lia. }
  split; [exact Hadj|].
  apply pull_active; [exact Hact| |exact Hadj].
  rewrite Z.geb_leb. apply Z.leb_gt. exact Hch.
Qed.

Lemma pull_overrun_witness :
  exists blk : list Z,
    OnReadClientInput {| channelIndex_ := 1; readPos_ := 500 |}
        (Some (segment_of 9000 2)) 512
      = Some ({| channelIndex_ := 1; readPos_ := 8232 |}, blk).
Proof.
  destruct (pull_overrun {| channelIndex_ := 1; readPos_ := 500 |}
              (segment_of 9000 2) 512) as [_ H]; try reflexivity.
  rewrite H. eexists. vm_compute. reflexivity.
Defined.

(** C2 as stated fails at the boundary: with exactly
    [RING_BUFFER_FRAMES - 512] = 7680 frames available the read position is
    not moved to the write position minus the target latency; the pull
    reads on from where the handler was (1000) and ends at 1256. *)
Lemma pull_overrun_boundary :
  Word.u32 (getWritePos (Some (segment_of 8680 2))
            - seed_readPos 1000 (getWritePos (Some (segment_of 8680 2))))
    = RING_BUFFER_FRAMES - 512 /\
  overrun_adjust (seed_readPos 1000 (getWritePos (Some (segment_of 8680 2))))
    (getWritePos (Some (segment_of 8680 2))) = (1000, 7680) /\
  exists blk : list Z,
    OnReadClientInput {| channelIndex_ := 0; readPos_ := 1000 |}
        (Some (segment_of 8680 2)) 512
      = Some ({| channelIndex_ := 0; readPos_ := 1256 |}, blk) /\
    1256 <> Word.u32 (8680 - TARGET_LATENCY) /\
    1256 <> Word.u32 (8680 - TARGET_LATENCY) + frames_of_bytes 512.
Proof.
  split; [reflexivity|]. split; [reflexivity|].
  eexists. split; [vm_compute; reflexivity|].
  split; vm_compute; discriminate.
Qed.

(** C4. Along any sequence of pulls of one handler, a pull that starts
    with the read position not after the write position it observes (less
    than [2^31] frames behind it on the [uint32_t] circle) ends with the read
    position not before where it started and not after that write position. *)
Theorem read_cursor_monotone (calls : list PullCall) :
  forall (h : DuomicIOHandler) (steps : list PullStep),
    0 <= readPos_ h < Word.modulus32 ->
    run_pulls h calls = Some steps ->
    Forall (fun s : PullStep =>
              cursor_le (readPos_ (step_before s)) (getWritePos (step_buffer s)) ->
              cursor_le (readPos_ (step_before s)) (readPos_ (step_after s)) /\
              cursor_le (readPos_ (step_after s)) (getWritePos (step_buffer s)))
           steps.
Proof.
  induction calls as [|[buf bytesCount] rest IH]; intros h steps Hr Hrun; simpl in Hrun.
  - inversion Hrun. constructor.
  - destruct (OnReadClientInput h buf bytesCount) as [[h' blk]|] eqn:Hpull;
      simpl in Hrun; [|discriminate].
    destruct (run_pulls h' rest) as [steps'|] eqn:Hrest; simpl in Hrun; [|discriminate].
    inversion Hrun; subst steps; clear Hrun.
    destruct (pull_cursor_on_arc h h' buf bytesCount blk Hr Hpull)
      as [_ [Hr' Harc]].
    constructor.
    + cbn [step_before step_after step_buffer]. unfold cursor_le. intros Hdrift.
      pose proof (u32_range (readPos_ h' - readPos_ h)).
      pose proof (u32_range (getWritePos buf - readPos_ h')).
      lia.
    + apply (IH h' steps' Hr' Hrest).
Qed.

Lemma read_cursor_monotone_witness :
  exists steps : list PullStep,
    run_pulls (new_handler 1)
      [(Some (segment_of 2000 2), 512); (None, 512); (Some (segment_of 12000 2), 512)]
      = Some steps /\
    Forall (fun s : PullStep =>
              cursor_le (readPos_ (step_before s)) (getWritePos (step_buffer s)) ->
              cursor_le (readPos_ (step_before s)) (readPos_ (step_after s)) /\
              cursor_le (readPos_ (step_after s)) (getWritePos (step_buffer s)))
           steps.
Proof.
  destruct (run_pulls (new_handler 1)
              [(Some (segment_of 2000 2), 512); (None, 512);
               (Some (segment_of 12000 2), 512)]) as [steps|] eqn:E.
  - exists steps. split; [reflexivity|].
    apply (read_cursor_monotone
             [(Some (segment_of 2000 2), 512); (None, 512);
              (Some (segment_of 12000 2), 512)] (new_handler 1) steps).
    + cbn. unfold Word.modulus32. lia.
    + exact E.
  - vm_compute in E. discriminate E.
Defined.

(** ** Decimal numerals *)

Lemma take_digits_uint (d : Decimal.uint) :
  forall (acc : Z) (seen : bool) (rest : string),
    starts_with_digit rest = false ->
    take_digits acc seen (NilEmpty.string_of_uint d ++ rest)%string
    = (uint_value acc d,
       match d with Decimal.Nil => seen | _ => true end,
       rest).
Proof.
  induction d as [|d IH|d IH|d IH|d IH|d IH|d IH|d IH|d IH|d IH|d IH];
    intros acc seen rest Hrest;
    try (cbn [NilEmpty.string_of_uint String.append uint_value take_digits];
         change (isdigit "0") with true; change (isdigit "1") with true;
         change (isdigit "2") with true; change (isdigit "3") with true;
         change (isdigit "4") with true; change (isdigit "5") with true;
         change (isdigit "6") with true; change (isdigit "7") with true;
         change (isdigit "8") with true; change (isdigit "9") with true;
         cbv iota; rewrite IH by exact Hrest; destruct d; reflexivity).
  cbn [NilEmpty.string_of_uint String.append uint_value].
  destruct rest as [|c rest]; [reflexivity|].
  cbn [starts_with_digit] in Hrest. cbn [take_digits]. rewrite Hrest. reflexivity.
Qed.

Lemma uint_value_of_uint_acc (d : Decimal.uint) :
  forall acc : positive, uint_value (Zpos acc) d = Zpos (Pos.of_uint_acc d acc).
Proof.
  induction d as [|d IH|d IH|d IH|d IH|d IH|d IH|d IH|d IH|d IH|d IH];
    intros acc; cbn [uint_value Pos.of_uint_acc]; [reflexivity|..];
    rewrite <- IH; f_equal; lia.
Qed.

Lemma uint_value_of_uint (d : Decimal.uint) :
  uint_value 0 d = Z.of_N (Pos.of_uint d).
Proof.
  induction d as [|d IH|d IH|d IH|d IH|d IH|d IH|d IH|d IH|d IH|d IH];
    cbn [uint_value Pos.of_uint]; [reflexivity|exact IH|..];
    cbn [Z.of_N]; rewrite <- uint_value_of_uint_acc; reflexivity.
Qed.

Lemma uint_value_to_uint (p : positive) : uint_value 0 (Pos.to_uint p) = Zpos p.
Proof.
  rewrite uint_value_of_uint, DecimalPos.Unsigned.of_to. reflexivity.
Qed.

(** Reading back the decimal text of an integer. *)
Lemma take_integer_string_of_int (z : Z) (rest : string) :
  starts_with_digit rest = false ->
  take_integer (string_of_int z ++ rest)%string = (z, true, rest).
Proof.
  intros Hrest. unfold string_of_int.
  destruct z as [|p|p]; cbn [Z.to_int NilZero.string_of_int].
  - cbn. destruct rest as [|c rest]; [reflexivity|].
    cbn [starts_with_digit] in Hrest. cbn [take_digits]. rewrite Hrest. reflexivity.
  - pose proof (DecimalPos.Unsigned.to_uint_nonnil p) as Hnil.
    unfold NilZero.string_of_uint.
    destruct (Pos.to_uint p) as [|d|d|d|d|d|d|d|d|d|d] eqn:Hd; [congruence|..];
      rewrite <- Hd;
      (assert (Hhead : take_integer (NilEmpty.string_of_uint (Pos.to_uint p) ++ rest)%string
                       = take_digits 0 false
                           (NilEmpty.string_of_uint (Pos.to_uint p) ++ rest)%string)
         by (rewrite Hd; reflexivity));
      rewrite Hhead, take_digits_uint by exact Hrest;
      rewrite uint_value_to_uint, Hd; reflexivity.
  - pose proof (DecimalPos.Unsigned.to_uint_nonnil p) as Hnil.
    unfold NilZero.string_of_uint.
    assert (Hs : (String "-" (match Pos.to_uint p with
                              | Decimal.Nil => "0"
                              | _ => NilEmpty.string_of_uint (Pos.to_uint p)
                              end) ++ rest)%string
                 = String "-" (NilEmpty.string_of_uint (Pos.to_uint p) ++ rest)%string).
    { destruct (Pos.to_uint p); [congruence|..]; reflexivity. }
    rewrite Hs. cbn [take_integer].
    change (Ascii.eqb "-" "-") with true.
    rewrite take_digits_uint by exact Hrest.
    rewrite uint_value_to_uint.
    destruct (Pos.to_uint p); [congruence|..]; reflexivity.
Qed.

Lemma string_of_int_head (z : Z) :
  exists (c : ascii) (r : string),
    string_of_int z = String c r /\ isspace c = false.
Proof.
  unfold string_of_int.
  destruct z as [|p|p]; cbn [Z.to_int NilZero.string_of_int].
  - exists "0"%char, EmptyString. split; reflexivity.
  - pose proof (DecimalPos.Unsigned.to_uint_nonnil p) as Hnil.
    unfold NilZero.string_of_uint.
    destruct (Pos.to_uint p); [congruence|..];
      cbn [NilEmpty.string_of_uint]; eexists _, _; split; reflexivity.
  - eexists _, _; split; reflexivity.
Qed.

Lemma append_empty (s : string) : (s ++ EmptyString)%string = s.
Proof.
  induction s as [|c s IH]; [reflexivity|]. cbn [String.append]. rewrite IH. reflexivity.
Qed.

Lemma clamp_int_in_range (z : Z) :
  Word.INT_MIN <= z <= Word.INT_MAX -> Word.clamp_int z = z.
Proof. unfold Word.clamp_int, Word.INT_MIN, Word.INT_MAX. lia. Qed.

(** ** Stream extractions on the text of an ADD command *)

Lemma take_until_name (n rest : string) :
  no_colon n = true ->
  take_until ":" (n ++ String ":" rest)%string = (n, Some rest).
Proof.
  induction n as [|c n IH]; intros H.
  - reflexivity.
  - cbn [no_colon] in H. apply andb_true_iff in H. destruct H as [Hc Hn].
    cbn [String.append take_until].
    apply negb_true_iff in Hc. rewrite Hc, (IH Hn). reflexivity.
Qed.

Lemma skip_ws_head (c : ascii) (r : string) :
  isspace c = false -> skip_ws (String c r) = String c r.
Proof. intros H. cbn [skip_ws]. rewrite H. reflexivity. Qed.

Lemma extract_word_ADD (rest : string) :
  extract_word (open_stream ("ADD " ++ rest)%string) EmptyString
  = ("ADD"%string,
     {| is_buf := String " " rest; is_eofbit := false; is_failbit := false |}).
Proof. reflexivity. Qed.

Lemma getline_name (n rest : string) :
  is_add_name n = true ->
  getline
    (ws {| is_buf := String " " (n ++ String ":" rest)%string;
           is_eofbit := false; is_failbit := false |})
    EmptyString ":"
  = (n, {| is_buf := rest; is_eofbit := false; is_failbit := false |}).
Proof.
  intros H. destruct n as [|c n]; [discriminate H|].
  cbn [is_add_name] in H. apply andb_true_iff in H. destruct H as [Hc Hn].
  apply negb_true_iff in Hc.
  unfold ws, sentry, good. cbn [is_buf is_eofbit is_failbit negb andb].
  change (skip_ws (String " " (String c n ++ String ":" rest)%string))
    with (skip_ws (String c n ++ String ":" rest)%string).
  cbn [String.append]. rewrite (skip_ws_head c _ Hc).
  cbn [string_is_empty].
  unfold getline, sentry, good. cbn [is_buf is_eofbit is_failbit negb andb].
  change (String c (n ++ String ":" rest)%string)
    with (String c n ++ String ":" rest)%string.
  rewrite (take_until_name _ _ Hn). reflexivity.
Qed.

Lemma extract_int_string_of_int (z : Z) :
  fst (extract_int
         {| is_buf := string_of_int z; is_eofbit := false; is_failbit := false |}
         None)
  = Some (Word.clamp_int z).
Proof.
  destruct (string_of_int_head z) as [c [r [Hs Hc]]].
  unfold extract_int, sentry, good. cbn [is_buf is_eofbit is_failbit negb andb].
  rewrite Hs, (skip_ws_head c r Hc). cbn [is_buf]. rewrite <- Hs.
  rewrite <- (append_empty (string_of_int z)).
  rewrite take_integer_string_of_int by reflexivity.
  reflexivity.
Qed.

(** What [HandleCommand] does with the text ADD n:z. *)
Lemma handle_add (n : string) (z : Z) (g : Registry) :
  is_add_name n = true ->
  HandleCommand ("ADD " ++ n ++ ":" ++ string_of_int z)%string g =
    if (Word.clamp_int z <? 0) || (Word.clamp_int z >=? MAX_CHANNELS)
    then Some ("ERROR:Invalid channel" ++ LF, g)%string
    else
      if fst (AddVirtualDevice n (Word.clamp_int z) g)
      then Some ("OK:Device added" ++ LF,
                 snd (AddVirtualDevice n (Word.clamp_int z) g))%string
      else Some ("ERROR:Device already exists" ++ LF,
                 snd (AddVirtualDevice n (Word.clamp_int z) g))%string.
Proof.
  intros Hn. unfold HandleCommand.
  rewrite extract_word_ADD. cbn [String.eqb Ascii.eqb Bool.eqb].
  change (n ++ ":" ++ string_of_int z)%string
    with (n ++ String ":" (string_of_int z))%string.
  rewrite (getline_name n (string_of_int z) Hn).
  pose proof (extract_int_string_of_int z) as Hint.
  destruct (extract_int
              {| is_buf := string_of_int z; is_eofbit := false; is_failbit := false |}
              None) as [ch iss] eqn:Hext.
  cbn [fst] in Hint. subst ch.
  destruct n as [|c n]; [discriminate Hn|]. cbn [string_is_empty bind].
  destruct ((Word.clamp_int z <? 0) || (Word.clamp_int z >=? MAX_CHANNELS));
    [reflexivity|].
  destruct (AddVirtualDevice (String c n) (Word.clamp_int z) g) as [added g'].
  cbn [fst snd]. reflexivity.
Qed.

(** ** The registry *)

Lemma name_absent (n : string) (g : Registry) :
  (forall dev : DeviceInfo, In dev g -> name dev <> n) ->
  existsb (has_name n) g = false.
Proof.
  intros H. induction g as [|dev g IH]; [reflexivity|].
  cbn [existsb]. apply orb_false_iff. split.
  - unfold has_name. apply String.eqb_neq. apply H. left. reflexivity.
  - apply IH. intros d Hd. apply H. right. exact Hd.
Qed.

Lemma name_present (n : string) (g : Registry) :
  (exists dev : DeviceInfo, In dev g /\ name dev = n) ->
  existsb (has_name n) g = true.
Proof.
  intros [dev [Hin Hname]]. apply existsb_exists. exists dev.
  split; [exact Hin|]. unfold has_name. apply String.eqb_eq. exact Hname.
Qed.

Lemma string_append_assoc (a b c : string) :
  ((a ++ b) ++ c)%string = (a ++ (b ++ c))%string.
Proof.
  induction a as [|x a IH]; [reflexivity|]. cbn [String.append]. rewrite IH. reflexivity.
Qed.

(** The listing of a registry is the listing of its first part followed by
    the listing of the rest: lines come out in the order of [g_devices]. *)
Lemma ListDevices_app (g1 g2 : Registry) :
  fst (ListDevices (g1 ++ g2)) = (fst (ListDevices g1) ++ fst (ListDevices g2))%string.
Proof.
  unfold ListDevices. cbn [fst].
  induction g1 as [|dev g1 IH]; [reflexivity|].
  cbn [app fold_right]. rewrite IH, string_append_assoc. reflexivity.
Qed.

(** C6. Adding a name that is not registered succeeds and puts the entry
    last; the listing that follows is the previous listing followed by the
    line of the new entry, so entries come out in insertion order, and the
    listing leaves the registry as it is. *)
Theorem add_then_list (g : Registry) (n : string) (ch : Z) :
  (forall dev : DeviceInfo, In dev g -> name dev <> n) ->
  0 <= ch < MAX_CHANNELS ->
  let g' := g ++ [{| name := n; channel := ch; handler := new_handler ch |}] in
  AddVirtualDevice n ch g = (true, g') /\
  entries g' = entries g ++ [(n, ch)] /\
  In (n, ch) (entries g') /\
  fst (ListDevices g')
    = (fst (ListDevices g) ++ (n ++ ":" ++ string_of_int ch ++ LF))%string /\
  snd (ListDevices g') = g' /\
  snd (ListDevices g) = g.
Proof.
  intros Hfree Hch g'.
  split.
  { unfold AddVirtualDevice. rewrite (name_absent n g Hfree). reflexivity. }
  assert (He : entries g' = entries g ++ [(n, ch)]).
  { unfold entries, g'. rewrite map_app. reflexivity. }
  split; [exact He|].
  split.
  { rewrite He. apply in_or_app. right. left. reflexivity. }
  split.
  { unfold g'. rewrite ListDevices_app. f_equal.
    unfold ListDevices, device_line. cbn [fst fold_right name channel].
    rewrite append_empty. reflexivity. }
  split; reflexivity.
Qed.

Lemma add_then_list_witness :
  AddVirtualDevice "studioMic"%string 3 (snd (AddVirtualDevice "duomic L"%string 0 []))
  = (true,
     [{| name := "duomic L"%string; channel := 0; handler := new_handler 0 |};
      {| name := "studioMic"%string; channel := 3; handler := new_handler 3 |}]).
Proof.
  refine (proj1 (add_then_list
                   [{| name := "duomic L"%string; channel := 0; handler := new_handler 0 |}]
                   "studioMic"%string 3 _ _)).
  - intros dev [Hd|[]]. subst dev. cbn. discriminate.
  - unfold MAX_CHANNELS. lia.
Defined.

(** C7, as the code has it. Adding a name that is registered fails and
    leaves the registry as it is; the command ADD n:ch for such a name,
    when the name is one a command can carry and the channel index is in
    [[0, MAX_CHANNELS)], answers that the device already exists and leaves
    the registry as it is. *)
Theorem add_duplicate (g : Registry) (n : string) (ch : Z) :
  (exists dev : DeviceInfo, In dev g /\ name dev = n) ->
  AddVirtualDevice n ch g = (false, g) /\
  (is_add_name n = true ->
   0 <= ch < MAX_CHANNELS ->
   HandleCommand ("ADD " ++ n ++ ":" ++ string_of_int ch)%string g
   = Some ("ERROR:Device already exists" ++ LF, g)%string).
Proof.
  intros Hpresent.
  assert (Hadd : AddVirtualDevice n ch g = (false, g)).
  { unfold AddVirtualDevice. rewrite (name_present n g Hpresent). reflexivity. }
  split; [exact Hadd|].
  intros Hn Hch. rewrite (handle_add n ch g Hn).
  unfold MAX_CHANNELS in *.
  rewrite clamp_int_in_range by (unfold Word.INT_MIN, Word.INT_MAX; lia).
  replace ((ch <? 0) || (ch >=? 8)) with false.
  - rewrite Hadd. reflexivity.
  - symmetry. apply orb_false_iff. split; [apply Z.ltb_ge; lia|].
    rewrite Z.geb_leb. apply Z.leb_gt. lia.
Qed.

Lemma add_duplicate_witness :
  HandleCommand "ADD studioMic:3"%string
    [{| name := "studioMic"%string; channel := 3; handler := new_handler 3 |}]
  = Some ("ERROR:Device already exists" ++ LF,
          [{| name := "studioMic"%string; channel := 3; handler := new_handler 3 |}])%string.
Proof.
  refine (proj2 (add_duplicate
                   [{| name := "studioMic"%string; channel := 3; handler := new_handler 3 |}]
                   "studioMic"%string 3 _) _ _).
  - eexists. split; [left; reflexivity | reflexivity].
  - reflexivity.
  - unfold MAX_CHANNELS. lia.
Defined.

(** C7 as stated fails when the channel index of the command is out of
    range: the name is registered and [AddVirtualDevice] itself refuses it,
    but the command is answered with the channel error. *)
Lemma add_duplicate_bad_channel :
  let g := [{| name := "studioMic"%string; channel := 3; handler := new_handler 3 |}] in
  AddVirtualDevice "studioMic"%string 99 g = (false, g) /\
  HandleCommand "ADD studioMic:99"%string g
    = Some ("ERROR:Invalid channel" ++ LF, g)%string /\
  HandleCommand "ADD studioMic:99"%string g
    <> Some ("ERROR:Device already exists" ++ LF, g)%string.
Proof.
  cbv zeta. split; [reflexivity|]. split; [reflexivity|].
  vm_compute. discriminate.
Qed.

(** C8, as the code has it. The command whose first word is PING is
    answered PONG; the command ADD n:ch with a name that a command can carry
    (not empty, no whitespace in front, no colon) and a channel index outside
    [[0, MAX_CHANNELS)] is answered with the channel error; a command whose
    first word is none of ADD, REMOVE, LIST and PING is answered with the
    unknown-command error. Every answer ends with a line feed and none of
    these commands changes the registry. *)
Theorem command_responses (g : Registry) :
  (forall cmd : string,
     fst (extract_word (open_stream cmd) EmptyString) = "PING"%string ->
     HandleCommand cmd g = Some ("PONG" ++ LF, g)%string) /\
  HandleCommand "PING"%string g = Some ("PONG" ++ LF, g)%string /\
  HandleCommand "ADD bad:99"%string g
    = Some ("ERROR:Invalid channel" ++ LF, g)%string /\
  (forall (n : string) (ch : Z),
     is_add_name n = true ->
     ch < 0 \/ MAX_CHANNELS <= ch ->
     HandleCommand ("ADD " ++ n ++ ":" ++ string_of_int ch)%string g
     = Some ("ERROR:Invalid channel" ++ LF, g)%string) /\
  (forall cmd : string,
     let command := fst (extract_word (open_stream cmd) EmptyString) in
     command <> "ADD"%string -> command <> "REMOVE"%string ->
     command <> "LIST"%string -> command <> "PING"%string ->
     HandleCommand cmd g = Some ("ERROR:Unknown command" ++ LF, g)%string).
Proof.
  split.
  { intros cmd Hw. unfold HandleCommand.
    destruct (extract_word (open_stream cmd) EmptyString) as [command iss].
    cbn [fst] in Hw. subst command. reflexivity. }
  split; [reflexivity|]. split; [reflexivity|]. split.
  - intros n ch Hn Hch. rewrite (handle_add n ch g Hn).
    replace ((Word.clamp_int ch <? 0) || (Word.clamp_int ch >=? MAX_CHANNELS))
      with true; [reflexivity|].
    symmetry. apply orb_true_iff.
    unfold Word.clamp_int, Word.INT_MIN, Word.INT_MAX, MAX_CHANNELS in *.
    destruct Hch as [Hneg|Hbig].
    + left. apply Z.ltb_lt. lia.
    + right. rewrite Z.geb_leb. apply Z.leb_le. lia.
  - intros cmd command Ha Hr Hl Hp. unfold HandleCommand.
    fold command.
    destruct (extract_word (open_stream cmd) EmptyString) as [w iss] eqn:Hw.
    cbn [fst] in command. subst command.
    apply String.eqb_neq in Ha, Hr, Hl, Hp.
    rewrite Ha, Hr, Hl, Hp. reflexivity.
Qed.

Lemma command_responses_witness :
  HandleCommand "ADD mic:-1"%string [] = Some ("ERROR:Invalid channel" ++ LF, [])%string /\
  HandleCommand "STOP now"%string [] = Some ("ERROR:Unknown command" ++ LF, [])%string.
Proof.
  destruct (command_responses []) as [_ [_ [_ [Hadd Hunknown]]]].
  split.
  - apply (Hadd "mic"%string (-1)); [reflexivity | left; reflexivity].
  - apply (Hunknown "STOP now"%string); cbn; discriminate.
Defined.

(** C8 as stated fails for the empty name: the name is checked before the
    channel index (lines 276-277), so an ADD command with a channel index
    out of range and no name is answered with the name error. *)
Lemma command_responses_empty_name :
  HandleCommand "ADD :99"%string []
    = Some ("ERROR:Invalid name" ++ LF, [])%string /\
  HandleCommand "ADD :99"%string []
    <> Some ("ERROR:Invalid channel" ++ LF, [])%string.
Proof.
  split; [reflexivity|]. vm_compute. discriminate.
Qed.

(** ** Floating-point rounding *)

Lemma digits2_pos_size (m : positive) : digits2_pos m = Pos.size m.
Proof. induction m as [m IH|m IH|]; cbn; [rewrite IH..|]; reflexivity. Qed.

Lemma Zdigits2_log2 (m : positive) : Zpos (digits2_pos m) = Z.log2 (Zpos m) + 1.
Proof.
  rewrite digits2_pos_size.
  destruct m as [m|m|]; cbn [Z.log2 Pos.size]; lia.
Qed.

Lemma iter_pos_nat {A : Type} (f : A -> A) (p : positive) :
  forall x : A, iter_pos f p x = Nat.iter (Pos.to_nat p) f x.
Proof.
  induction p as [p IH|p IH|]; intros x; cbn [iter_pos].
  - rewrite !IH, Pos2Nat.inj_xI.
    replace (S (2 * Pos.to_nat p)) with (Pos.to_nat p + (Pos.to_nat p + 1))%nat by lia.
    rewrite !Nat.iter_add. reflexivity.
  - rewrite !IH, Pos2Nat.inj_xO.
    replace (2 * Pos.to_nat p)%nat with (Pos.to_nat p + Pos.to_nat p)%nat by lia.
    rewrite Nat.iter_add. reflexivity.
  - reflexivity.
Qed.

Lemma shr_1_nonneg (m : Z) (r s : bool) :
  0 <= m ->
  shr_1 {| shr_m := m; shr_r := r; shr_s := s |}
  = {| shr_m := m / 2; shr_r := Z.odd m; shr_s := r || s |}.
Proof.
  intros Hm. destruct m as [|p|p]; [reflexivity| |lia].
  destruct p as [p|p|]; cbn [shr_1 Z.odd].
  - f_equal. apply (Z.div_unique _ _ _ 1); lia.
  - f_equal. apply (Z.div_unique _ _ _ 0); lia.
  - reflexivity.
Qed.

(** A number is a multiple of [2^(k+1)] when it is a multiple of [2^k] and
    bit [k] is clear. *)
Lemma low_bits_step (M k : Z) :
  0 <= k ->
  M mod 2 ^ (k + 1) = 2 ^ k * ((M / 2 ^ k) mod 2) + M mod 2 ^ k.
Proof.
  intros Hk. rewrite Z.pow_add_r, Z.pow_1_r by lia.
  rewrite Z.rem_mul_r by lia. lia.
Qed.

(** [n] right shifts of [M], for [n] at least 1: the quotient, the bit
    shifted out last, and whether a bit shifted out before it was set. *)
Lemma shr_iter (M : Z) (n : nat) :
  0 <= M ->
  Nat.iter (S n) shr_1 {| shr_m := M; shr_r := false; shr_s := false |}
  = {| shr_m := M / 2 ^ Z.of_nat (S n);
       shr_r := Z.odd (M / 2 ^ Z.of_nat n);
       shr_s := negb (M mod 2 ^ Z.of_nat n =? 0) |}.
Proof.
  intros HM. induction n as [|n IH].
  - cbn [Nat.iter]. rewrite shr_1_nonneg by exact HM.
    change (Z.of_nat 1) with 1. change (Z.of_nat 0) with 0.
    rewrite Z.pow_0_r, Z.pow_1_r, Z.div_1_r, Z.mod_1_r. reflexivity.
  - change (Nat.iter (S (S n)) shr_1 ?x) with (shr_1 (Nat.iter (S n) shr_1 x)).
    rewrite IH. rewrite shr_1_nonneg by (apply Z.div_pos; lia).
    f_equal.
    + rewrite Z.div_div by lia. f_equal.
      replace (Z.of_nat (S (S n))) with (Z.of_nat (S n) + 1) by lia.
      rewrite Z.pow_add_r, Z.pow_1_r by lia. reflexivity.
    + replace (Z.of_nat (S n)) with (Z.of_nat n + 1) by lia.
      rewrite low_bits_step by lia.
      assert (Hpow : 0 < 2 ^ Z.of_nat n) by (apply Z.pow_pos_nonneg; lia).
      pose proof (Z.mod_pos_bound M (2 ^ Z.of_nat n) Hpow) as Hlow.
      rewrite <- Z.bit0_mod, Z.bit0_odd.
      destruct (Z.odd (M / 2 ^ Z.of_nat n)); cbn [Z.b2z orb].
      * symmetry. apply negb_true_iff. apply Z.eqb_neq. lia.
      * f_equal. f_equal. lia.
Qed.

Lemma shr_pos (M : Z) (p : positive) :
  0 <= M ->
  iter_pos shr_1 p {| shr_m := M; shr_r := false; shr_s := false |}
  = {| shr_m := M / 2 ^ Zpos p;
       shr_r := Z.odd (M / 2 ^ (Zpos p - 1));
       shr_s := negb (M mod 2 ^ (Zpos p - 1) =? 0) |}.
Proof.
  intros HM. rewrite iter_pos_nat.
  destruct (Pos2Nat.is_succ p) as [n Hn]. rewrite Hn.
  rewrite shr_iter by exact HM.
  replace (Z.of_nat (S n)) with (Zpos p) by lia.
  replace (Z.of_nat n) with (Zpos p - 1) by lia.
  reflexivity.
Qed.

(** Rounding the shifted mantissa with the two bits that [shr] keeps is
    rounding to nearest, ties to even. *)
Lemma round_shr (M k : Z) :
  0 <= M -> 1 <= k ->
  round_nearest_even (M / 2 ^ k)
    (loc_of_shr_record
       {| shr_m := M / 2 ^ k;
          shr_r := Z.odd (M / 2 ^ (k - 1));
          shr_s := negb (M mod 2 ^ (k - 1) =? 0) |})
  = rne M k.
Proof.
  intros HM Hk. unfold rne.
  replace (M mod 2 ^ k) with (2 ^ (k - 1) * ((M / 2 ^ (k - 1)) mod 2) + M mod 2 ^ (k - 1)).
  2:{ rewrite <- low_bits_step by lia. f_equal. f_equal. lia. }
  assert (Hpow : 0 < 2 ^ (k - 1)) by (apply Z.pow_pos_nonneg; lia).
  pose proof (Z.mod_pos_bound M (2 ^ (k - 1)) Hpow) as Hlow.
  rewrite <- Z.bit0_mod, Z.bit0_odd.
  destruct (Z.odd (M / 2 ^ (k - 1))); cbn [Z.b2z loc_of_shr_record].
  - destruct (M mod 2 ^ (k - 1) =? 0) eqn:Hz; cbn [negb round_nearest_even].
    + apply Z.eqb_eq in Hz. rewrite Hz, Z.mul_1_r, Z.add_0_r.
      rewrite Z.ltb_irrefl. reflexivity.
    + apply Z.eqb_neq in Hz.
      replace (2 ^ (k - 1) * 1 + M mod 2 ^ (k - 1) <? 2 ^ (k - 1)) with false
        by (symmetry; apply Z.ltb_ge; lia).
      replace (2 ^ (k - 1) <? 2 ^ (k - 1) * 1 + M mod 2 ^ (k - 1)) with true
        by (symmetry; apply Z.ltb_lt; lia).
      reflexivity.
  - replace (2 ^ (k - 1) * 0 + M mod 2 ^ (k - 1) <? 2 ^ (k - 1)) with true
      by (symmetry; apply Z.ltb_lt; lia).
    destruct (M mod 2 ^ (k - 1) =? 0); reflexivity.
Qed.

Lemma rne_bounds (M k : Z) : M / 2 ^ k <= rne M k <= M / 2 ^ k + 1.
Proof.
  unfold rne.
  destruct (M mod 2 ^ k <? 2 ^ (k - 1)); [lia|].
  destruct (2 ^ (k - 1) <? M mod 2 ^ k); [lia|].
  destruct (Z.even (M / 2 ^ k)); lia.
Qed.

(** Rounding does not depend on the unit in which the number is written. *)
Lemma rne_scale (M k j : Z) :
  1 <= k -> 0 <= j -> rne (M * 2 ^ j) (k + j) = rne M k.
Proof.
  intros Hk Hj. unfold rne.
  assert (Hpj : 0 < 2 ^ j) by (apply Z.pow_pos_nonneg; lia).
  assert (Hpk : 0 < 2 ^ k) by (apply Z.pow_pos_nonneg; lia).
  rewrite (Z.pow_add_r 2 k j) by lia.
  rewrite Z.div_mul_cancel_r by lia.
  rewrite Z.mul_mod_distr_r by lia.
  replace (k + j - 1) with (k - 1 + j) by lia.
  rewrite (Z.pow_add_r 2 (k - 1) j) by lia.
  replace (M mod 2 ^ k * 2 ^ j <? 2 ^ (k - 1) * 2 ^ j) with (M mod 2 ^ k <? 2 ^ (k - 1)).
  2:{ destruct (M mod 2 ^ k <? 2 ^ (k - 1)) eqn:Hc; symmetry.
      - apply Z.ltb_lt. apply Z.ltb_lt in Hc. nia.
      - apply Z.ltb_ge. apply Z.ltb_ge in Hc. nia. }
  replace (2 ^ (k - 1) * 2 ^ j <? M mod 2 ^ k * 2 ^ j) with (2 ^ (k - 1) <? M mod 2 ^ k).
  2:{ destruct (2 ^ (k - 1) <? M mod 2 ^ k) eqn:Hc; symmetry.
      - apply Z.ltb_lt. apply Z.ltb_lt in Hc. nia.
      - apply Z.ltb_ge. apply Z.ltb_ge in Hc. nia. }
  reflexivity.
Qed.

(** Rounding on one grid is monotone. *)
Lemma rne_mono (k M1 M2 : Z) :
  1 <= k -> M1 <= M2 -> rne M1 k <= rne M2 k.
Proof.
  intros Hk HM.
  assert (Hpk : 0 < 2 ^ k) by (apply Z.pow_pos_nonneg; lia).
  assert (Hq : M1 / 2 ^ k <= M2 / 2 ^ k) by (apply Z.div_le_mono; lia).
  destruct (Z.eq_dec (M1 / 2 ^ k) (M2 / 2 ^ k)) as [Heq|Hne].
  - assert (Hr : M1 mod 2 ^ k <= M2 mod 2 ^ k).
    { rewrite (Z.mod_eq M1), (Z.mod_eq M2), Heq by lia. lia. }
    unfold rne. rewrite Heq.
    destruct (M1 mod 2 ^ k <? 2 ^ (k - 1)) eqn:H1;
      destruct (M2 mod 2 ^ k <? 2 ^ (k - 1)) eqn:H2;
      destruct (2 ^ (k - 1) <? M1 mod 2 ^ k) eqn:H3;
      destruct (2 ^ (k - 1) <? M2 mod 2 ^ k) eqn:H4;
      destruct (Z.even (M2 / 2 ^ k));
      try (apply Z.ltb_lt in H1); try (apply Z.ltb_ge in H1);
      try (apply Z.ltb_lt in H2); try (apply Z.ltb_ge in H2);
      try (apply Z.ltb_lt in H3); try (apply Z.ltb_ge in H3);
      try (apply Z.ltb_lt in H4); try (apply Z.ltb_ge in H4);
      lia.
  - pose proof (rne_bounds M1 k). pose proof (rne_bounds M2 k). lia.
Qed.

Lemma grid_mono (V1 V2 : Z) : V1 <= V2 -> grid V1 <= grid V2.
Proof.
  intros H. unfold grid. pose proof (Z.log2_le_mono V1 V2 H). lia.
Qed.

(** Rounding to binary32 is monotone. *)
Lemma rounded_mono (V1 V2 : Z) : 0 < V1 -> V1 <= V2 -> rounded V1 <= rounded V2.
Proof.
  intros Hpos Hle. unfold rounded.
  pose proof (grid_mono V1 V2 Hle) as Hg.
  assert (Hg1 : 9 <= grid V1) by (unfold grid; lia).
  destruct (Z.eq_dec (grid V1) (grid V2)) as [Heq|Hne].
  - rewrite <- Heq.
    apply Z.mul_le_mono_nonneg_r; [apply Z.pow_nonneg; lia|].
    apply rne_mono; lia.
  - (* [V2] lies in a higher binade: the power of two between them is a
       binary32 number *)
    assert (Hg2 : grid V2 = Z.log2 V2 + 1 - 24) by (unfold grid in *; lia).
    assert (Hlog : Z.log2 V1 < Z.log2 V2) by (unfold grid in *; lia).
    set (g1 := grid V1) in *. set (g2 := grid V2) in *.
    assert (Hp1 : 0 < 2 ^ g1) by (apply Z.pow_pos_nonneg; lia).
    assert (Hp2 : 0 < 2 ^ g2) by (apply Z.pow_pos_nonneg; lia).
    pose proof (Z.log2_spec V1 Hpos) as [_ Hup].
    assert (HV2 : 0 < V2) by lia.
    pose proof (Z.log2_spec V2 HV2) as [Hlow _].
    assert (Hmid : 2 ^ Z.succ (Z.log2 V1) <= 2 ^ Z.log2 V2)
      by (apply Z.pow_le_mono_r; lia).
    (* the lower one rounds to at most [2 ^ log2 V2] *)
    assert (H1 : rne V1 g1 * 2 ^ g1 <= 2 ^ Z.log2 V2).
    { pose proof (rne_bounds V1 g1) as [_ Hb].
      assert (Hsplit : 2 ^ Z.log2 V2 = 2 ^ (Z.log2 V2 - g1) * 2 ^ g1).
      { rewrite <- Z.pow_add_r by lia. f_equal. lia. }
      rewrite Hsplit. apply Z.mul_le_mono_nonneg_r; [lia|].
      assert (Hq : V1 / 2 ^ g1 < 2 ^ (Z.log2 V2 - g1)).
      { apply Z.div_lt_upper_bound; [lia|]. rewrite Z.mul_comm, <- Hsplit. lia. }
      lia. }
    (* the upper one rounds to at least [2 ^ log2 V2] *)
    assert (H2 : 2 ^ Z.log2 V2 <= rne V2 g2 * 2 ^ g2).
    { pose proof (rne_bounds V2 g2) as [Hb _].
      assert (Hsplit : 2 ^ Z.log2 V2 = 2 ^ (Z.log2 V2 - g2) * 2 ^ g2).
      { rewrite <- Z.pow_add_r by lia. f_equal. lia. }
      rewrite Hsplit. apply Z.mul_le_mono_nonneg_r; [lia|].
      assert (Hq : 2 ^ (Z.log2 V2 - g2) <= V2 / 2 ^ g2).
      { apply Z.div_le_lower_bound; [lia|]. rewrite Z.mul_comm, <- Hsplit. lia. }
      lia. }
    lia.
Qed.

Lemma shiftl_scaled (m e : Z) :
  -158 <= e -> Z.shiftl m e = (m * 2 ^ (e + 158)) / scale.
Proof.
  intros He. unfold scale.
  destruct (Z_le_gt_dec 0 e) as [Hpos|Hneg].
  - rewrite Z.shiftl_mul_pow2 by lia.
    rewrite Z.pow_add_r, Z.mul_assoc by lia.
    rewrite Z.div_mul; [reflexivity|]. apply Z.pow_nonzero; lia.
  - rewrite Z.shiftl_div_pow2 by lia.
    replace (2 ^ 158) with (2 ^ (- e) * 2 ^ (e + 158)).
    + rewrite Z.div_mul_cancel_r; [reflexivity| |]; apply Z.pow_nonzero; lia.
    + rewrite <- Z.pow_add_r by lia. f_equal. lia.
Qed.

Lemma fexp_grid (M : positive) (E : Z) :
  -158 <= E ->
  fexp 24 128 (Zdigits2 (Zpos M) + E) = grid (Zpos M * 2 ^ (E + 158)) - 158.
Proof.
  intros HE. unfold fexp, emin, grid. cbn [Zdigits2].
  rewrite Zdigits2_log2.
  rewrite Z.log2_mul_pow2 by lia. lia.
Qed.

Lemma log2_digits (q : Z) (k : Z) :
  0 <= k -> 2 ^ k <= q < 2 ^ (k + 1) -> Z.log2 q = k.
Proof.
  intros Hk Hq. apply Z.log2_unique; [lia|].
  replace (Z.succ k) with (k + 1) by lia. exact Hq.
Qed.

(** The product [M * 2^E] rounded by [binary_round_aux], then truncated
    to an integer: when the product has bits below the binary32 grid, lies
    in the range of the normal and subnormal numbers and is at least
    [2^23] units. *)
Lemma binary_round_aux_trunc (s : bool) (M : positive) (E : Z) :
  -158 <= E ->
  E + 158 < grid (Zpos M * 2 ^ (E + 158)) <= 200 ->
  23 <= Z.log2 (Zpos M * 2 ^ (E + 158)) ->
  f32_trunc (binary_round_aux 24 128 s (Zpos M) E loc_Exact)
  = Some (cond_Zopp s (rounded (Zpos M * 2 ^ (E + 158)) / scale)).
Proof.
  intros HE Hgrid Hlog.
  set (V := Zpos M * 2 ^ (E + 158)) in *.
  set (g := grid V) in *.
  assert (HV : 0 < V) by (unfold V; apply Z.mul_pos_pos; [lia|apply Z.pow_pos_nonneg; lia]).
  unfold binary_round_aux.
  (* first shift *)
  unfold shr_fexp at 1. rewrite (fexp_grid M E HE). fold V. fold g.
  cbn [shr_record_of_loc].
  destruct (g - 158 - E) as [|n|n] eqn:Hn; [lia| |lia].
  cbn [shr]. rewrite shr_pos by lia.
  cbn [shr_m]. rewrite round_shr by lia.
  rewrite <- (rne_scale (Zpos M) (Zpos n) (E + 158)) by lia.
  fold V. replace (Zpos n + (E + 158)) with g by lia.
  replace (E + Zpos n) with (g - 158) by lia.
  set (q1 := rne V g).
  (* bounds on the rounded mantissa *)
  assert (Hg9 : 9 <= g) by (unfold g, grid; lia).
  assert (Hpg : 0 < 2 ^ g) by (apply Z.pow_pos_nonneg; lia).
  pose proof (rne_bounds V g) as Hb. fold q1 in Hb.
  pose proof (Z.log2_spec V HV) as [Hlo Hhi].
  assert (Hq1 : 2 ^ 14 <= q1 <= 2 ^ 24 /\ (9 < g -> 2 ^ 23 <= q1)).
  { assert (Hup : V / 2 ^ g < 2 ^ 24).
    { apply Z.div_lt_upper_bound; [lia|].
      rewrite <- Z.pow_add_r by lia.
      apply Z.lt_le_trans with (1 := Hhi).
      apply Z.pow_le_mono_r; unfold g, grid; lia. }
    assert (Hdown : 2 ^ (Z.log2 V - g) <= V / 2 ^ g).
    { apply Z.div_le_lower_bound; [lia|].
      rewrite <- Z.pow_add_r by (unfold g, grid; lia).
      replace (g + (Z.log2 V - g)) with (Z.log2 V) by lia. exact Hlo. }
    assert (H14 : 2 ^ 14 <= 2 ^ (Z.log2 V - g))
      by (apply Z.pow_le_mono_r; unfold g, grid; lia).
    split; [lia|]. intros Hnorm.
    assert (H23 : Z.log2 V - g = 23) by (unfold g, grid in *; lia).
    rewrite H23 in Hdown. lia. }
  destruct Hq1 as [[Hq14 Hq24] Hq23].
  (* second shift: only after a carry into bit 24 *)
  unfold shr_fexp. cbn [shr_record_of_loc].
  destruct q1 as [|q|q] eqn:Hq; [lia| |lia].
  cbn [Zdigits2]. rewrite Zdigits2_log2. unfold fexp, emin.
  destruct (Z.eq_dec (Zpos q) (2 ^ 24)) as [Hcarry|Hnocarry].
  - assert (Hq' : q = 16777216%positive) by (apply Pos2Z.inj; exact Hcarry).
    subst q.
    replace (Z.max (Z.log2 (Zpos 16777216) + 1 + (g - 158) - 24) (3 - 128 - 24)
             - (g - 158)) with 1 by (cbn [Z.log2 Pos.size]; lia).
    cbn [shr iter_pos shr_1 shr_m].
    replace (g - 158 + 1 <=? 128 - 24) with true by (symmetry; apply Z.leb_le; lia).
    cbn [f32_trunc]. f_equal. f_equal.
    rewrite shiftl_scaled by lia. unfold rounded. fold g. fold q1. rewrite Hq.
    f_equal. replace (g - 158 + 1 + 158) with (1 + g) by lia.
    rewrite Z.pow_add_r by lia. lia.
  - assert (Hdig : Z.max (Z.log2 (Zpos q) + 1 + (g - 158) - 24) (3 - 128 - 24)
                   - (g - 158) = 0).
    { assert (Hl : Z.log2 (Zpos q) <= 23).
      { apply Z.lt_succ_r. apply Z.log2_lt_pow2; lia. }
      destruct (Z.eq_dec g 9) as [Hg|Hg]; [lia|].
      assert (Hl' : Z.log2 (Zpos q) = 23).
      { apply log2_digits; [lia|]. split; [apply Hq23; lia|]. simpl (23 + 1). lia. }
      unfold g, grid in *. lia. }
    rewrite Hdig. cbn [shr shr_m].
    replace (g - 158 <=? 128 - 24) with true by (symmetry; apply Z.leb_le; lia).
    cbn [f32_trunc]. f_equal. f_equal.
    rewrite shiftl_scaled by lia. unfold rounded. fold g. fold q1. rewrite Hq.
    f_equal. f_equal. f_equal. lia.
Qed.

(** ** Order and value of binary32 numbers *)

(** A canonical mantissa has at most 24 bits, and exactly 24 unless the
    exponent is the smallest one. *)
Lemma bounded_finite (m : positive) (e : Z) :
  bounded 24 128 m e = true ->
  -149 <= e <= 104 /\
  Z.log2 (Zpos m) <= 23 /\
  (e = -149 \/ Z.log2 (Zpos m) = 23).
Proof.
  unfold bounded, canonical_mantissa, fexp, emin. intros H.
  apply andb_true_iff in H. destruct H as [Hc He].
  apply Z.eqb_eq in Hc. apply Z.leb_le in He.
  rewrite Zdigits2_log2 in Hc. lia.
Qed.

Lemma finite_value_bounds (m : positive) (e : Z) :
  bounded 24 128 m e = true ->
  0 < Zpos m * 2 ^ (e + 149) < 2 ^ 400 /\
  (e = -149 \/ 2 ^ (e + 172) <= Zpos m * 2 ^ (e + 149)) /\
  Zpos m * 2 ^ (e + 149) < 2 ^ (e + 173).
Proof.
  intros H. destruct (bounded_finite m e H) as [He [Hl Hn]].
  assert (Hp : 0 < 2 ^ (e + 149)) by (apply Z.pow_pos_nonneg; lia).
  assert (Hm : Zpos m < 2 ^ 24).
  { apply Z.log2_lt_pow2; lia. }
  assert (Hup : Zpos m * 2 ^ (e + 149) < 2 ^ (e + 173)).
  { replace (e + 173) with (24 + (e + 149)) by lia.
    rewrite (Z.pow_add_r 2 24 (e + 149)) by lia. apply Z.mul_lt_mono_pos_r; lia. }
  assert (Hpos : 0 < Zpos m * 2 ^ (e + 149)) by (apply Z.mul_pos_pos; lia).
  split; [split; [exact Hpos|]|split; [|exact Hup]].
  - apply Z.lt_le_trans with (1 := Hup). apply Z.pow_le_mono_r; lia.
  - destruct Hn as [Hn|Hn]; [left; exact Hn|right].
    replace (e + 172) with (23 + (e + 149)) by lia.
    rewrite (Z.pow_add_r 2 23 (e + 149)) by lia. apply Z.mul_le_mono_nonneg_r; [lia|].
    rewrite <- Hn. apply Z.log2_spec. lia.
Qed.

Lemma finite_value_compare (m1 m2 : positive) (e1 e2 : Z) :
  bounded 24 128 m1 e1 = true ->
  bounded 24 128 m2 e2 = true ->
  (Zpos m1 * 2 ^ (e1 + 149) ?= Zpos m2 * 2 ^ (e2 + 149))
  = match e1 ?= e2 with
    | Lt => Lt
    | Gt => Gt
    | Eq => Pos.compare_cont Eq m1 m2
    end.
Proof.
  intros H1 H2.
  destruct (bounded_finite m1 e1 H1) as [He1 _].
  destruct (bounded_finite m2 e2 H2) as [He2 _].
  destruct (finite_value_bounds m1 e1 H1) as [_ [Hlo1 Hup1]].
  destruct (finite_value_bounds m2 e2 H2) as [_ [Hlo2 Hup2]].
  destruct (e1 ?= e2) eqn:Hc.
  - apply Z.compare_eq in Hc. subst e2.
    assert (Hp : 0 < 2 ^ (e1 + 149)) by (apply Z.pow_pos_nonneg; lia).
    rewrite <- Zmult_compare_compat_r by lia. reflexivity.
  - change (e1 < e2) in Hc. apply Z.compare_lt_iff.
    destruct Hlo2 as [Hlo2|Hlo2]; [lia|].
    assert (Hstep : 2 ^ (e1 + 173) <= 2 ^ (e2 + 172)) by (apply Z.pow_le_mono_r; lia).
    lia.
  - change (e1 > e2) in Hc. apply Z.compare_gt_iff.
    destruct Hlo1 as [Hlo1|Hlo1]; [lia|].
    assert (Hstep : 2 ^ (e2 + 173) <= 2 ^ (e1 + 172)) by (apply Z.pow_le_mono_r; lia).
    lia.
Qed.

Lemma beyond_finite (m : positive) (e : Z) :
  bounded 24 128 m e = true -> 0 < Zpos m * 2 ^ (e + 149) < beyond.
Proof. intros H. apply (finite_value_bounds m e H). Qed.

(** On valid numbers [SFcompare] is the order of the values. *)
Lemma f32_compare_value (x y : float32) (a b : Z) :
  f32_valid x = true -> f32_valid y = true ->
  f32_value x = Some a -> f32_value y = Some b ->
  SFcompare x y = Some (a ?= b).
Proof.
  intros Hx Hy Ha Hb.
  destruct x as [sx|sx| |sx mx ex]; [| |discriminate Ha|];
    destruct y as [sy|sy| |sy my ey]; try discriminate Hb;
    unfold f32_value in Ha, Hb;
    apply (f_equal (fun o => match o with Some v => v | None => 0 end)) in Ha, Hb;
    subst a b;
    unfold f32_valid, valid_binary in Hx, Hy;
    try (pose proof (beyond_finite mx ex Hx) as Bx);
    try (pose proof (beyond_finite my ey Hy) as By);
    try (pose proof (beyond_finite 1 (-149) eq_refl) as B0);
    cbn [SFcompare]; f_equal;
    try (destruct sx); try (destruct sy); unfold cond_Zopp;
    try (symmetry;
         first [ apply Z.compare_eq_iff; lia
               | apply Z.compare_lt_iff; lia
               | apply Z.compare_gt_iff; lia ]).
  - rewrite Z.compare_opp, (finite_value_compare my mx ey ex Hy Hx).
    rewrite (Z.compare_antisym ex ey), (Pos.compare_cont_antisym mx my Eq).
    destruct (ex ?= ey); reflexivity.
  - symmetry. apply finite_value_compare; assumption.
Qed.

Lemma f32_leb_value (x y : float32) (a b : Z) :
  f32_valid x = true -> f32_valid y = true ->
  f32_value x = Some a -> f32_value y = Some b ->
  SFleb x y = (a <=? b).
Proof.
  intros Hx Hy Ha Hb. unfold SFleb.
  rewrite (f32_compare_value x y a b Hx Hy Ha Hb).
  unfold Z.leb. destruct (a ?= b); reflexivity.
Qed.

(** ** The conversion as a function of the value *)

Lemma rounded_nonneg (V : Z) : 0 <= V -> 0 <= rounded V.
Proof.
  intros HV. unfold rounded.
  assert (Hg : 9 <= grid V) by (unfold grid; lia).
  assert (Hp : 0 < 2 ^ grid V) by (apply Z.pow_pos_nonneg; lia).
  pose proof (rne_bounds V (grid V)) as [Hb _].
  assert (Hq : 0 <= V / 2 ^ grid V) by (apply Z.div_pos; lia).
  apply Z.mul_nonneg_nonneg; lia.
Qed.

Lemma rounded_mono_nonneg (V1 V2 : Z) : 0 <= V1 <= V2 -> rounded V1 <= rounded V2.
Proof.
  intros [H0 Hle]. destruct (Z.eq_dec V1 0) as [->|Hpos].
  - change (rounded 0) with 0. apply rounded_nonneg. lia.
  - apply rounded_mono; lia.
Qed.

(** 32767 itself is a binary32 number. *)
Lemma rounded_32767 : rounded (2 ^ 149 * c32767) = 32767 * scale.
Proof. vm_compute. reflexivity. Qed.

Lemma rounded_bounds (v : Z) :
  0 <= v <= 2 ^ 149 -> 0 <= rounded (v * c32767) / scale <= 32767.
Proof.
  intros Hv.
  assert (Hs : 0 < scale) by (unfold scale; apply Z.pow_pos_nonneg; lia).
  assert (Hc : 0 < c32767) by reflexivity.
  assert (HV : 0 <= v * c32767 <= 2 ^ 149 * c32767).
  { split; [apply Z.mul_nonneg_nonneg; lia|].
    apply Z.mul_le_mono_nonneg_r; lia. }
  pose proof (rounded_nonneg (v * c32767) (proj1 HV)) as H0.
  pose proof (rounded_mono_nonneg _ _ HV) as H1.
  rewrite rounded_32767 in H1.
  split.
  - apply Z.div_pos; lia.
  - apply Z.div_le_upper_bound; lia.
Qed.

(** The product with [32767.0f], rounded and cast, for a number of
    magnitude below one. *)
Lemma convert_finite (s : bool) (m : positive) (e : Z) :
  bounded 24 128 m e = true ->
  Zpos m * 2 ^ (e + 149) < 2 ^ 149 ->
  static_cast_SInt16 (f32_mul (S754_finite s m e) f32_32767)
  = Some (cond_Zopp s (rounded (Zpos m * 2 ^ (e + 149) * c32767) / scale)).
Proof.
  intros Hb Hlt.
  destruct (bounded_finite m e Hb) as [He _].
  destruct (finite_value_bounds m e Hb) as [[Hpos _] [Hlo _]].
  set (A := Zpos m * 2 ^ (e + 149)) in *.
  assert (HV : Zpos (m * 16776704) * 2 ^ (e + -9 + 158) = A * c32767).
  { unfold A, c32767. rewrite Pos2Z.inj_mul.
    replace (e + -9 + 158) with (e + 149) by lia. ring. }
  assert (Hc23 : 2 ^ 23 <= c32767 < 2 ^ 24) by (unfold c32767; split; vm_compute; congruence).
  assert (HVpos : 0 < A * c32767) by (apply Z.mul_pos_pos; lia).
  assert (HVlo : 2 ^ 23 <= A * c32767) by nia.
  assert (HVup : A * c32767 < 2 ^ 173).
  { change (2 ^ 173) with (2 ^ 149 * 2 ^ 24). nia. }
  assert (Hlog : 23 <= Z.log2 (A * c32767) < 173).
  { split; [apply Z.log2_le_pow2; lia | apply Z.log2_lt_pow2; lia]. }
  assert (Hgrid : e + 149 < grid (A * c32767) <= 200).
  { unfold grid. split; [|lia].
    destruct Hlo as [->|Hlo]; [lia|].
    assert (Hbig : 2 ^ (e + 195) <= A * c32767).
    { replace (e + 195) with (e + 172 + 23) by lia.
      rewrite Z.pow_add_r by lia.
      assert (0 < 2 ^ (e + 172)) by (apply Z.pow_pos_nonneg; lia). nia. }
    apply Z.log2_le_pow2 in Hbig; lia. }
  unfold static_cast_SInt16.
  cbn [f32_mul SFmul f32_32767]. rewrite xorb_false_r.
  rewrite binary_round_aux_trunc; rewrite ?HV; try lia.
  cbn [bind].
  pose proof (rounded_bounds A) as Hr.
  assert (HA : 0 <= A <= 2 ^ 149) by lia. specialize (Hr HA).
  destruct s; cbn [cond_Zopp];
    [replace ((-32768 <=? - (rounded (A * c32767) / scale))
              && (- (rounded (A * c32767) / scale) <=? 32767)) with true
    |replace ((-32768 <=? rounded (A * c32767) / scale)
              && (rounded (A * c32767) / scale <=? 32767)) with true];
    try reflexivity;
    symmetry; apply andb_true_iff; split; apply Z.leb_le; lia.
Qed.

Lemma beyond_large : 2 ^ 149 < beyond.
Proof. unfold beyond. apply Z.pow_lt_mono_r; lia. Qed.

(** [ConvertToSInt16] of a valid number that is not a NaN. *)
Lemma convert_spec (x : float32) (v : Z) :
  f32_valid x = true ->
  f32_value x = Some v ->
  ConvertToSInt16 x = Some (convert_value v).
Proof.
  intros Hx Hv. unfold ConvertToSInt16, convert_value.
  rewrite (f32_leb_value f32_one x (2 ^ 149) v eq_refl Hx) by (vm_compute; reflexivity || exact Hv).
  destruct (2 ^ 149 <=? v) eqn:Hone; [reflexivity|].
  rewrite (f32_leb_value x f32_minus_one v (- 2 ^ 149) Hx eq_refl Hv)
    by (vm_compute; reflexivity).
  destruct (v <=? - 2 ^ 149) eqn:Hmone; [reflexivity|].
  apply Z.leb_gt in Hone, Hmone.
  pose proof beyond_large as Hbig.
  destruct x as [s|s| |s m e]; [| |discriminate Hv|]; unfold f32_value in Hv;
    apply (f_equal (fun o => match o with Some v => v | None => 0 end)) in Hv;
    subst v.
  - reflexivity.
  - destruct s; unfold cond_Zopp in *; lia.
  - unfold f32_valid, valid_binary in Hx.
    destruct (finite_value_bounds m e Hx) as [[Hpos _] _].
    rewrite (convert_finite s m e Hx) by (destruct s; unfold cond_Zopp in *; lia).
    destruct s; unfold cond_Zopp in *.
    + replace (0 <=? - (Zpos m * 2 ^ (e + 149))) with false
        by (symmetry; apply Z.leb_gt; lia).
      rewrite Z.opp_involutive. reflexivity.
    + replace (0 <=? Zpos m * 2 ^ (e + 149)) with true
        by (symmetry; apply Z.leb_le; lia).
      reflexivity.
Qed.

Lemma convert_value_mono (a b : Z) : a <= b -> convert_value a <= convert_value b.
Proof.
  intros Hab. unfold convert_value.
  assert (Hs : 0 < scale) by (unfold scale; apply Z.pow_pos_nonneg; lia).
  assert (Hc : 0 < c32767) by reflexivity.
  assert (Hp : 0 < 2 ^ 149) by (apply Z.pow_pos_nonneg; lia).
  destruct (2 ^ 149 <=? a) eqn:Ha1; destruct (2 ^ 149 <=? b) eqn:Hb1;
    try (apply Z.leb_le in Ha1); try (apply Z.leb_gt in Ha1);
    try (apply Z.leb_le in Hb1); try (apply Z.leb_gt in Hb1);
    try lia;
    destruct (a <=? - 2 ^ 149) eqn:Ha2; destruct (b <=? - 2 ^ 149) eqn:Hb2;
    try (apply Z.leb_le in Ha2); try (apply Z.leb_gt in Ha2);
    try (apply Z.leb_le in Hb2); try (apply Z.leb_gt in Hb2);
    try lia;
    destruct (0 <=? a) eqn:Ha3; destruct (0 <=? b) eqn:Hb3;
    try (apply Z.leb_le in Ha3); try (apply Z.leb_gt in Ha3);
    try (apply Z.leb_le in Hb3); try (apply Z.leb_gt in Hb3);
    try lia;
    try (pose proof (rounded_bounds a ltac:(lia)));
    try (pose proof (rounded_bounds b ltac:(lia)));
    try (pose proof (rounded_bounds (- a) ltac:(lia)));
    try (pose proof (rounded_bounds (- b) ltac:(lia)));
    try lia.
  - apply Z.div_le_mono; [lia|]. apply rounded_mono_nonneg.
    split; [apply Z.mul_nonneg_nonneg; lia|]. apply Z.mul_le_mono_nonneg_r; lia.
  - apply -> Z.opp_le_mono.
    apply Z.div_le_mono; [lia|]. apply rounded_mono_nonneg.
    split; [apply Z.mul_nonneg_nonneg; lia|]. apply Z.mul_le_mono_nonneg_r; lia.
Qed.

(** C5. The conversion is monotone on binary32 numbers: when [x <= y]
    both have a conversion and that of [x] is not above that of [y]. Every
    input at or above [1.0f] gives 32767, every input at or below [-1.0f]
    gives -32768, and both zeros give 0. *)
Theorem ConvertToSInt16_monotone_symmetric :
  (forall x y : float32,
     f32_valid x = true -> f32_valid y = true ->
     SFleb x y = true ->
     exists a b : Z,
       ConvertToSInt16 x = Some a /\ ConvertToSInt16 y = Some b /\ a <= b) /\
  (forall x : float32, SFleb f32_one x = true -> ConvertToSInt16 x = Some 32767) /\
  (forall x : float32,
     SFleb x f32_minus_one = true -> ConvertToSInt16 x = Some (-32768)) /\
  ConvertToSInt16 f32_zero = Some 0 /\
  ConvertToSInt16 (S754_zero true) = Some 0.
Proof.
  split; [|split; [|split; [|split; reflexivity]]].
  - intros x y Hx Hy Hle.
    destruct (f32_value x) as [a|] eqn:Ha.
    2:{ destruct x; try discriminate Ha. discriminate Hle. }
    destruct (f32_value y) as [b|] eqn:Hb.
    2:{ destruct y; try discriminate Hb. destruct x; discriminate Hle. }
    exists (convert_value a), (convert_value b).
    split; [apply convert_spec; assumption|].
    split; [apply convert_spec; assumption|].
    apply convert_value_mono.
    rewrite (f32_leb_value x y a b Hx Hy Ha Hb) in Hle.
    apply Z.leb_le. exact Hle.
  - intros x H. unfold ConvertToSInt16. rewrite H. reflexivity.
  - intros x H. unfold ConvertToSInt16.
    replace (SFleb f32_one x) with false; [rewrite H; reflexivity|].
    destruct x as [s|s| |s m e]; try discriminate H; destruct s;
      try discriminate H; reflexivity.
Qed.

Lemma ConvertToSInt16_monotone_symmetric_witness :
  exists a b : Z,
    ConvertToSInt16 (S754_finite true 12582912 (-24)) = Some a /\
    ConvertToSInt16 f32_half = Some b /\ a <= b.
Proof.
  apply (proj1 ConvertToSInt16_monotone_symmetric); reflexivity.
Defined.

(** ** Pulls of well-formed segments are defined *)

Lemma ConvertToSInt16_defined (x : float32) :
  f32_valid x = true -> x <> S754_nan -> ConvertToSInt16 x <> None.
Proof.
  intros Hx Hnan.
  destruct (f32_value x) as [v|] eqn:Hv.
  - rewrite (convert_spec x v Hx Hv). discriminate.
  - destruct x; try discriminate Hv. congruence.
Qed.

Lemma sample_index_bound (readPos inputChannels channelIndex i : Z) :
  0 <= channelIndex < inputChannels ->
  0 <= sample_index readPos inputChannels channelIndex i
    < RING_BUFFER_FRAMES * inputChannels.
Proof.
  intros Hch. unfold sample_index, RING_BUFFER_FRAMES.
  pose proof (Z.mod_pos_bound (Word.u32 (readPos + i)) 8192 ltac:(lia)) as Hf.
  rewrite (u32_small (Word.u32 (readPos + i) mod 8192))
    by (unfold Word.modulus32; lia).
  set (f := Word.u32 (readPos + i) mod 8192) in *.
  assert (Hprod : 0 <= f * inputChannels + channelIndex < 8192 * inputChannels) by nia.
  pose proof (u32_range (f * inputChannels + channelIndex)) as Hu.
  split; [lia|].
  apply Z.le_lt_trans with (m := f * inputChannels + channelIndex); [|lia].
  unfold Word.u32, Word.modulus32. apply Z.mod_le; lia.
Qed.

(** On a well-formed buffer the callback of a handler with a channel index
    that is not negative completes and fills the whole buffer. *)
Lemma pull_defined (h : DuomicIOHandler) (buf : SharedAudioBuffer) (bytesCount : Z) :
  0 <= channelIndex_ h ->
  buffer_ok buf ->
  exists (h' : DuomicIOHandler) (blk : list Z),
    OnReadClientInput h buf bytesCount = Some (h', blk) /\
    channelIndex_ h' = channelIndex_ h /\
    List.length blk = Z.to_nat (frames_of_bytes bytesCount).
Proof.
  intros Hch Hok.
  destruct (isActive buf) eqn:Hact.
  2:{ rewrite pull_inactive by exact Hact. eexists _, _.
      split; [reflexivity|]. split; [reflexivity|apply silence_length]. }
  destruct (channelIndex_ h >=? Word.to_int (getChannelCount buf)) eqn:Hc.
  { rewrite pull_bad_channel by exact Hc. eexists _, _.
    split; [reflexivity|]. split; [reflexivity|apply silence_length]. }
  destruct buf as [p|]; [|discriminate Hact].
  destruct (overrun_adjust (seed_readPos (readPos_ h) (getWritePos (Some p)))
              (getWritePos (Some p))) as [r a] eqn:Hadj.
  rewrite (pull_active h p bytesCount r a Hact Hc Hadj).
  destruct ((getWritePos (Some p) <=? r) || (a <? frames_of_bytes bytesCount)).
  { eexists _, _. split; [reflexivity|]. split; [reflexivity|apply silence_length]. }
  destruct Hok as [Hlen Hall].
  rewrite Z.geb_leb in Hc. apply Z.leb_gt in Hc.
  pose proof (to_int_le (getChannelCount (Some p))) as Hint.
  destruct (copy_loop_total (seg_samples p) r (getChannelCount (Some p))
              (channelIndex_ h) (Z.to_nat (frames_of_bytes bytesCount)) 0)
    as [blk Hblk].
  { intros k Hk.
    pose proof (sample_index_bound r (getChannelCount (Some p)) (channelIndex_ h)
                  (0 + k) ltac:(lia)) as Hidx.
    destruct (nth_error (seg_samples p)
                (Z.to_nat (sample_index r (getChannelCount (Some p))
                             (channelIndex_ h) (0 + k)))) as [x|] eqn:Hx.
    - exists x. split; [reflexivity|].
      apply nth_error_In in Hx.
      rewrite Forall_forall in Hall. destruct (Hall x Hx) as [Hv Hn].
      apply ConvertToSInt16_defined; assumption.
    - apply nth_error_None in Hx. lia. }
  rewrite Hblk. cbn [bind]. eexists _, _.
  split; [reflexivity|]. split; [reflexivity|].
  eapply copy_loop_length. exact Hblk.
Qed.

(** A run of callbacks on well-formed buffers completes. *)
Lemma run_pulls_defined (calls : list PullCall) :
  forall h : DuomicIOHandler,
    0 <= channelIndex_ h ->
    Forall (fun call : PullCall => buffer_ok (fst call)) calls ->
    exists steps : list PullStep,
      run_pulls h calls = Some steps /\ List.length steps = List.length calls.
Proof.
  induction calls as [|[buf bytesCount] rest IH]; intros h Hch Hok.
  - exists []. split; reflexivity.
  - inversion Hok as [|c l Hbuf Hrest]; subst.
    destruct (pull_defined h buf bytesCount Hch Hbuf) as [h' [blk [Hpull [Hch' _]]]].
    destruct (IH h') as [steps [Hrun Hlen]]; [lia|exact Hrest|].
    eexists. cbn [run_pulls]. rewrite Hpull. cbn [bind fst snd].
    rewrite Hrun. cbn [bind]. split; [reflexivity|].
    cbn [List.length]. rewrite Hlen. reflexivity.
Qed.

(** ** The start-up configuration *)

Lemma ReadConfig_absent : ReadConfig None = Some default_config.
Proof. reflexivity. Qed.

Lemma ReadConfig_empty : ReadConfig (Some EmptyString) = Some default_config.
Proof. reflexivity. Qed.

(** A file none of whose lines yields an entry gives the default. *)
Lemma ReadConfig_no_entry (content : string) :
  read_config_lines (file_lines content) [] = Some [] ->
  ReadConfig (Some content) = Some default_config.
Proof. intros H. unfold ReadConfig. rewrite H. reflexivity. Qed.

(** C9. A configuration file whose only line has a colon followed by text
    that is not a number: [std::stoi] throws, and neither [ReadConfig] nor
    [CreateDuomicDriver] delivers the default of two endpoints; a file of
    comments, blank lines and lines without a colon does. *)
Theorem ReadConfig_malformed_channel :
  stoi "abc"%string = None /\
  ReadConfig (Some ("mic:abc" ++ LF)%string) = None /\
  CreateDuomicDriver (Some ("mic:abc" ++ LF)%string) = None /\
  ReadConfig (Some ("# devices" ++ LF ++ LF ++ "no colon here" ++ LF)%string)
    = Some default_config /\
  ReadConfig (Some ("studioMic:3" ++ LF ++ "far:99" ++ LF ++ "# x:1" ++ LF)%string)
    = Some [("studioMic"%string, 3)].
Proof. repeat split; reflexivity. Qed.

(** * Further properties of the registry, the commands, the configuration,
      the pull callback, the sample conversion and the mapping *)

(** ** Removal from the registry *)

Lemma erase_first_absent (n : string) (g : Registry) :
  existsb (has_name n) g = false -> erase_first n g = None.
Proof.
  induction g as [|dev g IH]; intros H; [reflexivity|].
  cbn [existsb] in H. apply orb_false_iff in H. destruct H as [Hd Hg].
  cbn [erase_first]. rewrite Hd, (IH Hg). reflexivity.
Qed.

Lemma erase_first_present (n : string) (g : Registry) :
  existsb (has_name n) g = true -> exists g' : Registry, erase_first n g = Some g'.
Proof.
  induction g as [|dev g IH]; intros H; [discriminate H|].
  cbn [existsb] in H. cbn [erase_first].
  destruct (has_name n dev); [eexists; reflexivity|].
  cbn [orb] in H. destruct (IH H) as [g' Hg']. rewrite Hg'. eexists. reflexivity.
Qed.

(** With distinct names, erasing the first entry called [n] leaves the
    entries not called [n], in their order. *)
Lemma erase_first_filter (n : string) (g g' : Registry) :
  NoDup (map name g) ->
  erase_first n g = Some g' ->
  g' = filter (fun dev => negb (has_name n dev)) g.
Proof.
  revert g'. induction g as [|dev g IH]; intros g' Hnd H; [discriminate H|].
  cbn [map] in Hnd. inversion Hnd as [|x l Hnot Hnd']; subst.
  cbn [erase_first] in H. cbn [filter].
  destruct (has_name n dev) eqn:Hd; cbn [negb].
  - inversion H; subst g'; clear H.
    unfold has_name in Hd. apply String.eqb_eq in Hd. subst n.
    symmetry. apply forallb_filter_id. apply forallb_forall.
    intros d Hin. apply negb_true_iff. unfold has_name. apply String.eqb_neq.
    intros Heq. apply Hnot. rewrite <- Heq. apply in_map. exact Hin.
  - destruct (erase_first n g) as [rest|] eqn:Hrest; cbn [bind] in H; [|discriminate H].
    inversion H; subst g'. f_equal. apply IH; [exact Hnd'|reflexivity].
Qed.

Lemma filter_names_sub (f : DeviceInfo -> bool) (g : Registry) (x : string) :
  In x (map name (filter f g)) -> In x (map name g).
Proof.
  intros H. apply in_map_iff in H. destruct H as [d [Hd Hin]].
  apply filter_In in Hin. apply in_map_iff. exists d. tauto.
Qed.

Lemma NoDup_names_filter (f : DeviceInfo -> bool) (g : Registry) :
  NoDup (map name g) -> NoDup (map name (filter f g)).
Proof.
  induction g as [|dev g IH]; intros H; [constructor|].
  cbn [map] in H. inversion H as [|x l Hnot Hnd]; subst.
  cbn [filter]. destruct (f dev); [|apply IH; exact Hnd].
  cbn [map]. constructor; [|apply IH; exact Hnd].
  intros Hin. apply Hnot. eapply filter_names_sub. exact Hin.
Qed.

Lemma existsb_has_name (n : string) (g : Registry) :
  existsb (has_name n) g = true <-> In n (map name g).
Proof.
  rewrite existsb_exists, in_map_iff. unfold has_name.
  split; intros [d [H1 H2]]; exists d.
  - apply String.eqb_eq in H2. tauto.
  - split; [tauto|]. apply String.eqb_eq. tauto.
Qed.

Lemma existsb_has_name_false (n : string) (g : Registry) :
  existsb (has_name n) g = false <-> ~ In n (map name g).
Proof.
  rewrite <- existsb_has_name. destruct (existsb (has_name n) g); split; intros H;
    congruence.
Qed.

(** X1. Registered names stay pairwise distinct under [AddVirtualDevice]
    and [RemoveVirtualDevice], whatever their arguments. *)
Theorem names_stay_distinct (g : Registry) (n : string) (ch : Z) :
  NoDup (map name g) ->
  NoDup (map name (snd (AddVirtualDevice n ch g))) /\
  NoDup (map name (snd (RemoveVirtualDevice n g))).
Proof.
  intros Hnd. split.
  - unfold AddVirtualDevice.
    destruct (existsb (has_name n) g) eqn:He; cbn [snd]; [exact Hnd|].
    rewrite map_app. cbn [map name].
    apply existsb_has_name_false in He.
    apply NoDup_app; [exact Hnd|repeat constructor; intros []|].
    intros x Hx [Hx'|[]]. subst x. contradiction.
  - unfold RemoveVirtualDevice.
    destruct (erase_first n g) as [g'|] eqn:He; cbn [snd]; [|exact Hnd].
    rewrite (erase_first_filter n g g' Hnd He). apply NoDup_names_filter. exact Hnd.
Qed.

Lemma names_stay_distinct_witness :
  NoDup (map name (snd (AddVirtualDevice "a"%string 1
                          [{| name := "b"%string; channel := 0; handler := new_handler 0 |}]))).
Proof.
  apply (names_stay_distinct
           [{| name := "b"%string; channel := 0; handler := new_handler 0 |}]
           "a"%string 1).
  repeat constructor; intros [].
Defined.

(** X2. Removing a name that is not registered fails and leaves the
    registry as it is. Removing a registered name (names being distinct)
    succeeds, leaves exactly the other entries in their order, and the name
    is registered no more. *)
Theorem remove_device (g : Registry) (n : string) :
  NoDup (map name g) ->
  (~ In n (map name g) -> RemoveVirtualDevice n g = (false, g)) /\
  (In n (map name g) ->
   RemoveVirtualDevice n g = (true, filter (fun dev => negb (has_name n dev)) g) /\
   ~ In n (map name (snd (RemoveVirtualDevice n g))) /\
   List.length (snd (RemoveVirtualDevice n g)) = (List.length g - 1)%nat).
Proof.
  intros Hnd. split.
  - intros Habs. unfold RemoveVirtualDevice.
    rewrite erase_first_absent; [reflexivity|].
    apply existsb_has_name_false. exact Habs.
  - intros Hin. apply existsb_has_name in Hin.
    destruct (erase_first_present n g Hin) as [g' Hg'].
    pose proof (erase_first_filter n g g' Hnd Hg') as Hf.
    unfold RemoveVirtualDevice. rewrite Hg'. cbn [snd]. subst g'.
    split; [reflexivity|]. split.
    + intros Hn. apply in_map_iff in Hn. destruct Hn as [d [Hd Hdin]].
      apply filter_In in Hdin. destruct Hdin as [_ Hneg].
      apply negb_true_iff in Hneg. unfold has_name in Hneg.
      apply String.eqb_neq in Hneg. contradiction.
    + revert Hg'. generalize (filter (fun dev => negb (has_name n dev)) g).
      clear Hnd Hin. induction g as [|dev g IH]; intros g' H; [discriminate H|].
      cbn [erase_first] in H. destruct (has_name n dev).
      * inversion H; subst. cbn [List.length]. lia.
      * destruct (erase_first n g) as [rest|] eqn:Hrest; cbn [bind] in H;
          [|discriminate H].
        inversion H; subst g'. cbn [List.length]. rewrite (IH rest eq_refl).
        destruct g; [discriminate Hrest|]. cbn [List.length]. lia.
Qed.

Lemma remove_device_witness :
  RemoveVirtualDevice "a"%string
    [{| name := "a"%string; channel := 1; handler := new_handler 1 |};
     {| name := "b"%string; channel := 0; handler := new_handler 0 |}]
  = (true, [{| name := "b"%string; channel := 0; handler := new_handler 0 |}]).
Proof.
  refine (proj1 (proj2 (remove_device
            [{| name := "a"%string; channel := 1; handler := new_handler 1 |};
             {| name := "b"%string; channel := 0; handler := new_handler 0 |}]
            "a"%string _) _)).
  - repeat constructor; cbn; intuition discriminate.
  - left. reflexivity.
Defined.

Lemma erase_first_last (n : string) (ch : Z) (g : Registry) :
  existsb (has_name n) g = false ->
  erase_first n (g ++ [{| name := n; channel := ch; handler := new_handler ch |}])
  = Some g.
Proof.
  induction g as [|dev g IH]; intros H.
  - cbn [app erase_first]. unfold has_name. cbn [name]. rewrite String.eqb_refl.
    reflexivity.
  - cbn [existsb] in H. apply orb_false_iff in H. destruct H as [Hd Hg].
    cbn [app erase_first]. rewrite Hd, (IH Hg). reflexivity.
Qed.

(** X3. Adding a name that is not registered and then removing it gives
    back the registry as it was. *)
Theorem add_then_remove (g : Registry) (n : string) (ch : Z) :
  ~ In n (map name g) ->
  RemoveVirtualDevice n (snd (AddVirtualDevice n ch g)) = (true, g).
Proof.
  intros Habs. apply existsb_has_name_false in Habs.
  unfold AddVirtualDevice. rewrite Habs. cbn [snd].
  unfold RemoveVirtualDevice. rewrite (erase_first_last n ch g Habs). reflexivity.
Qed.

Lemma add_then_remove_witness :
  RemoveVirtualDevice "a"%string (snd (AddVirtualDevice "a"%string 1 [])) = (true, []).
Proof. apply (add_then_remove [] "a"%string 1). intros []. Defined.
(** ** Commands that succeed, and commands without a channel *)

Lemma take_until_absent (n : string) :
  no_colon n = true -> take_until ":" n = (n, None).
Proof.
  induction n as [|c n IH]; intros H; [reflexivity|].
  cbn [no_colon] in H. apply andb_true_iff in H. destruct H as [Hc Hn].
  apply negb_true_iff in Hc. cbn [take_until]. rewrite Hc, (IH Hn). reflexivity.
Qed.

Lemma take_until_no_lf (n : string) :
  no_lf n = true -> take_until LF_char n = (n, None).
Proof.
  induction n as [|c n IH]; intros H; [reflexivity|].
  cbn [no_lf] in H. apply andb_true_iff in H. destruct H as [Hc Hn].
  apply negb_true_iff in Hc. cbn [take_until]. rewrite Hc, (IH Hn). reflexivity.
Qed.

Lemma skip_ws_all_ws (s : string) : all_ws s = true -> skip_ws s = EmptyString.
Proof.
  induction s as [|c s IH]; intros H; [reflexivity|].
  cbn [all_ws] in H. apply andb_true_iff in H. destruct H as [Hc Hs].
  cbn [skip_ws]. rewrite Hc. apply IH. exact Hs.
Qed.

(** X4. The command ADD n:ch for a name that a command can carry and that
    is not registered, with a channel index in [[0, MAX_CHANNELS)], answers
    that the device was added and appends the entry, its handler fresh. *)
Theorem handle_add_fresh (g : Registry) (n : string) (ch : Z) :
  is_add_name n = true ->
  ~ In n (map name g) ->
  0 <= ch < MAX_CHANNELS ->
  HandleCommand ("ADD " ++ n ++ ":" ++ string_of_int ch)%string g
  = Some (("OK:Device added" ++ LF)%string,
          g ++ [{| name := n; channel := ch; handler := new_handler ch |}]).
Proof.
  intros Hn Hfresh Hch. rewrite (handle_add n ch g Hn).
  unfold MAX_CHANNELS in *.
  rewrite clamp_int_in_range by (unfold Word.INT_MIN, Word.INT_MAX; lia).
  replace ((ch <? 0) || (ch >=? 8)) with false.
  - unfold AddVirtualDevice.
    replace (existsb (has_name n) g) with false; [reflexivity|].
    symmetry. apply name_absent. intros dev Hdev Heq. apply Hfresh.
    rewrite <- Heq. apply in_map. exact Hdev.
  - symmetry. apply orb_false_iff. split; [apply Z.ltb_ge; lia|].
    rewrite Z.geb_leb. apply Z.leb_gt. lia.
Qed.

Lemma handle_add_fresh_witness :
  HandleCommand "ADD left mic:7"%string []
  = Some (("OK:Device added" ++ LF)%string,
          [{| name := "left mic"%string; channel := 7; handler := new_handler 7 |}]).
Proof.
  apply (handle_add_fresh [] "left mic"%string 7);
    [reflexivity | intros [] | unfold MAX_CHANNELS; lia].
Defined.

Lemma extract_word_REMOVE (rest : string) :
  extract_word (open_stream ("REMOVE " ++ rest)%string) EmptyString
  = ("REMOVE"%string,
     {| is_buf := String " " rest; is_eofbit := false; is_failbit := false |}).
Proof. reflexivity. Qed.

Lemma ws_name (c : ascii) (r : string) :
  isspace c = false ->
  ws {| is_buf := String " " (String c r); is_eofbit := false; is_failbit := false |}
  = {| is_buf := String c r; is_eofbit := false; is_failbit := false |}.
Proof.
  intros Hc. unfold ws, sentry, good. cbn [is_buf is_eofbit is_failbit negb andb].
  change (skip_ws (String " " (String c r))) with (skip_ws (String c r)).
  rewrite (skip_ws_head c r Hc). reflexivity.
Qed.

(** X5. The command REMOVE n, for a name that a command can carry: when
    the name is registered (names being distinct) the answer is that the
    device was removed and exactly that entry is gone; when it is not, the
    answer is that the device was not found and the registry is as it was. *)
Theorem handle_remove (g : Registry) (n : string) :
  is_remove_name n = true ->
  NoDup (map name g) ->
  (In n (map name g) ->
   HandleCommand ("REMOVE " ++ n)%string g
   = Some (("OK:Device removed" ++ LF)%string,
           filter (fun dev => negb (has_name n dev)) g)) /\
  (~ In n (map name g) ->
   HandleCommand ("REMOVE " ++ n)%string g
   = Some (("ERROR:Device not found" ++ LF)%string, g)).
Proof.
  intros Hn Hnd.
  assert (Hcmd : HandleCommand ("REMOVE " ++ n)%string g
                 = if fst (RemoveVirtualDevice n g)
                   then Some (("OK:Device removed" ++ LF)%string,
                              snd (RemoveVirtualDevice n g))
                   else Some (("ERROR:Device not found" ++ LF)%string,
                              snd (RemoveVirtualDevice n g))).
  { unfold HandleCommand. rewrite extract_word_REMOVE.
    cbn [String.eqb Ascii.eqb Bool.eqb].
    destruct n as [|c n]; [discriminate Hn|].
    cbn [is_remove_name] in Hn. apply andb_true_iff in Hn. destruct Hn as [Hc Hlf].
    apply negb_true_iff in Hc.
    rewrite (ws_name c n Hc).
    unfold getline, sentry, good. cbn [is_buf is_eofbit is_failbit negb andb].
    rewrite (take_until_no_lf _ Hlf). cbn [string_is_empty].
    destruct (RemoveVirtualDevice (String c n) g) as [removed g']. reflexivity. }
  split; intros H; rewrite Hcmd.
  - apply existsb_has_name in H.
    destruct (erase_first_present n g H) as [g' Hg'].
    unfold RemoveVirtualDevice. rewrite Hg'. cbn [fst snd].
    rewrite (erase_first_filter n g g' Hnd Hg'). reflexivity.
  - apply existsb_has_name_false in H.
    unfold RemoveVirtualDevice. rewrite (erase_first_absent n g H). reflexivity.
Qed.

Lemma handle_remove_witness :
  HandleCommand "REMOVE left mic"%string
    [{| name := "left mic"%string; channel := 7; handler := new_handler 7 |}]
  = Some (("OK:Device removed" ++ LF)%string, []).
Proof.
  refine (proj1 (handle_remove
            [{| name := "left mic"%string; channel := 7; handler := new_handler 7 |}]
            "left mic"%string _ _) _).
  - reflexivity.
  - repeat constructor. intros [].
  - left. reflexivity.
Defined.

(** X6. An ADD command that names a device but has no colon, or nothing but
    whitespace after the colon, makes [HandleCommand] compare a channel
    index that no extraction has written. *)
Theorem handle_add_without_channel (g : Registry) (n : string) :
  is_add_name n = true ->
  HandleCommand ("ADD " ++ n)%string g = None /\
  forall t : string,
    all_ws t = true ->
    HandleCommand ("ADD " ++ n ++ ":" ++ t)%string g = None.
Proof.
  intros Hn. split.
  - unfold HandleCommand. rewrite extract_word_ADD.
    cbn [String.eqb Ascii.eqb Bool.eqb].
    destruct n as [|c n]; [discriminate Hn|].
    cbn [is_add_name] in Hn. apply andb_true_iff in Hn. destruct Hn as [Hc Hcol].
    apply negb_true_iff in Hc.
    rewrite (ws_name c n Hc).
    unfold getline, sentry, good. cbn [is_buf is_eofbit is_failbit negb andb].
    rewrite (take_until_absent _ Hcol). cbn [string_is_empty].
    reflexivity.
  - intros t Ht. unfold HandleCommand. rewrite extract_word_ADD.
    cbn [String.eqb Ascii.eqb Bool.eqb].
    change (n ++ ":" ++ t)%string with (n ++ String ":" t)%string.
    rewrite (getline_name n t Hn).
    unfold extract_int, sentry, good. cbn [is_buf is_eofbit is_failbit negb andb].
    rewrite (skip_ws_all_ws t Ht).
    destruct n as [|c n]; [discriminate Hn|]. reflexivity.
Qed.

Lemma handle_add_without_channel_witness :
  HandleCommand "ADD studioMic"%string [] = None.
Proof. apply (handle_add_without_channel [] "studioMic"%string). reflexivity. Defined.
(** ** Whitespace around a command *)

Lemma skip_ws_app_ws (s t : string) :
  all_ws s = true -> skip_ws (s ++ t)%string = skip_ws t.
Proof.
  induction s as [|c s IH]; intros H; [reflexivity|].
  cbn [all_ws] in H. apply andb_true_iff in H. destruct H as [Hc Hs].
  cbn [String.append skip_ws]. rewrite Hc. apply IH. exact Hs.
Qed.

Lemma skip_ws_app_head (s t : string) (c : ascii) (r : string) :
  skip_ws s = String c r -> skip_ws (s ++ t)%string = (String c r ++ t)%string.
Proof.
  induction s as [|x s IH]; intros H; [discriminate H|].
  cbn [skip_ws] in H. cbn [String.append skip_ws].
  destruct (isspace x).
  - apply IH. exact H.
  - inversion H; subst. reflexivity.
Qed.

Lemma skip_ws_empty_all_ws (s : string) : skip_ws s = EmptyString -> all_ws s = true.
Proof.
  induction s as [|c s IH]; intros H; [reflexivity|].
  cbn [skip_ws] in H. cbn [all_ws].
  destruct (isspace c); [apply IH; exact H|discriminate H].
Qed.

Lemma take_word_app_lf (s : string) :
  take_word (s ++ LF)%string
  = (fst (take_word s), (snd (take_word s) ++ LF)%string).
Proof.
  induction s as [|c s IH]; [reflexivity|].
  cbn [String.append take_word].
  destruct (isspace c); [reflexivity|].
  rewrite IH. destruct (take_word s) as [w rest]. reflexivity.
Qed.

Lemma take_until_colon_app_lf (s : string) :
  take_until ":" (s ++ LF)%string
  = match take_until ":" s with
    | (w, Some rest) => (w, Some (rest ++ LF)%string)
    | (w, None) => ((w ++ LF)%string, None)
    end.
Proof.
  induction s as [|c s IH]; [reflexivity|].
  cbn [String.append take_until].
  destruct (Ascii.eqb c ":"); [reflexivity|].
  rewrite IH. destruct (take_until ":" s) as [w [rest|]]; reflexivity.
Qed.

Lemma take_until_lf_app_lf (s : string) :
  take_until LF_char (s ++ LF)%string
  = match take_until LF_char s with
    | (w, Some rest) => (w, Some (rest ++ LF)%string)
    | (w, None) => (w, Some EmptyString)
    end.
Proof.
  induction s as [|c s IH]; [reflexivity|].
  cbn [String.append take_until].
  destruct (Ascii.eqb c LF_char); [reflexivity|].
  rewrite IH. destruct (take_until LF_char s) as [w [rest|]]; reflexivity.
Qed.

Lemma take_digits_app_lf (s : string) :
  forall (acc : Z) (seen : bool),
    take_digits acc seen (s ++ LF)%string
    = (fst (fst (take_digits acc seen s)), snd (fst (take_digits acc seen s)),
       (snd (take_digits acc seen s) ++ LF)%string).
Proof.
  induction s as [|c s IH]; intros acc seen; [reflexivity|].
  cbn [String.append take_digits].
  destruct (isdigit c); [apply IH|reflexivity].
Qed.

Lemma take_integer_head (c : ascii) (r : string) :
  take_integer (String c r)
  = if Ascii.eqb c "-" then
      (- fst (fst (take_digits 0 false r)), snd (fst (take_digits 0 false r)),
       snd (take_digits 0 false r))
    else if Ascii.eqb c "+" then take_digits 0 false r
    else take_digits 0 false (String c r).
Proof.
  destruct c as [[] [] [] [] [] [] [] []]; try reflexivity;
    cbn [take_integer Ascii.eqb Bool.eqb];
    destruct (take_digits 0 false r) as [[v seen] rest]; reflexivity.
Qed.

Lemma take_integer_app_lf (s : string) :
  s <> EmptyString ->
  take_integer (s ++ LF)%string
  = (fst (fst (take_integer s)), snd (fst (take_integer s)),
     (snd (take_integer s) ++ LF)%string).
Proof.
  intros Hs. destruct s as [|c s]; [congruence|].
  cbn [String.append]. rewrite !take_integer_head.
  destruct (Ascii.eqb c "-"); [rewrite take_digits_app_lf; reflexivity|].
  destruct (Ascii.eqb c "+"); [apply take_digits_app_lf|].
  change (String c (s ++ LF)%string) with (String c s ++ LF)%string.
  apply take_digits_app_lf.
Qed.

(** The name and channel that the ADD branch reads from the rest of the
    command, and whether a line feed after the command changes them. *)
Lemma add_arguments_lf (rest : string) :
  forall (n0 n1 : string) (c0 c1 : option Z) (i0 i1 j0 j1 : istringstream),
    getline (ws {| is_buf := rest; is_eofbit := string_is_empty rest;
                   is_failbit := false |}) EmptyString ":" = (n0, i0) ->
    extract_int i0 None = (c0, j0) ->
    getline (ws {| is_buf := (rest ++ LF)%string; is_eofbit := false;
                   is_failbit := false |}) EmptyString ":" = (n1, i1) ->
    extract_int i1 None = (c1, j1) ->
    string_is_empty n0 = string_is_empty n1 /\
    c0 = c1 /\
    (c0 = None \/ n0 = n1).
Proof.
  intros n0 n1 c0 c1 i0 i1 j0 j1 G0 E0 G1 E1.
  destruct rest as [|x rest].
  { (* nothing after the command word *)
    cbn in G0, G1. inversion G0; subst n0 i0. inversion G1; subst n1 i1.
    cbn in E0, E1. inversion E0; inversion E1; subst. auto. }
  unfold ws, sentry, good in G0, G1.
  cbn [string_is_empty is_buf is_eofbit is_failbit negb andb] in G0, G1.
  destruct (skip_ws (String x rest)) as [|c r] eqn:Hskip.
  { (* only whitespace after the command word *)
    rewrite (skip_ws_app_ws _ LF (skip_ws_empty_all_ws _ Hskip)) in G1.
    cbn in G0, G1. inversion G0; subst n0 i0. inversion G1; subst n1 i1.
    cbn in E0, E1. inversion E0; inversion E1; subst. auto. }
  rewrite (skip_ws_app_head _ LF c r Hskip) in G1.
  cbn [String.append string_is_empty] in G0, G1.
  unfold getline, sentry, good in G0, G1.
  cbn [is_buf is_eofbit is_failbit negb andb] in G0, G1.
  change (String c (r ++ LF)%string) with (String c r ++ LF)%string in G1.
  rewrite take_until_colon_app_lf in G1.
  destruct (take_until ":" (String c r)) as [w [t|]] eqn:Hname.
  - (* a colon: the same name, then the channel text *)
    inversion G0; subst n0 i0. inversion G1; subst n1 i1.
    split; [reflexivity|]. split; [|right; reflexivity].
    unfold extract_int, sentry, good in E0, E1.
    cbn [is_buf is_eofbit is_failbit negb andb] in E0, E1.
    destruct (skip_ws t) as [|d u] eqn:Ht.
    + rewrite (skip_ws_app_ws _ LF (skip_ws_empty_all_ws _ Ht)) in E1.
      cbn in E1. inversion E0; inversion E1; subst. reflexivity.
    + rewrite (skip_ws_app_head _ LF d u Ht) in E1.
      cbn [String.append] in E1.
      change (String d (u ++ LF)%string) with (String d u ++ LF)%string in E1.
      cbn [is_buf] in E0, E1.
      rewrite take_integer_app_lf in E1 by discriminate.
      destruct (take_integer (String d u)) as [[v seen] rest'].
      cbn [fst snd] in E1.
      destruct seen; inversion E0; inversion E1; subst; reflexivity.
  - (* no colon: the input ends inside the name, nothing is extracted *)
    inversion G0; subst n0 i0. inversion G1; subst n1 i1.
    cbn in E0, E1. inversion E0; inversion E1; subst.
    assert (Hw : exists y w', w = String y w').
    { cbn [take_until] in Hname. destruct (Ascii.eqb c ":"); [discriminate Hname|].
      destruct (take_until ":" r) as [w0 o]. inversion Hname. eauto. }
    destruct Hw as [y [w' ->]]. auto.
Qed.

Lemma remove_argument_lf (rest : string) :
  fst (getline (ws {| is_buf := rest; is_eofbit := string_is_empty rest;
                      is_failbit := false |}) EmptyString LF_char)
  = fst (getline (ws {| is_buf := (rest ++ LF)%string; is_eofbit := false;
                        is_failbit := false |}) EmptyString LF_char).
Proof.
  destruct rest as [|x rest]; [reflexivity|].
  unfold ws, sentry, good.
  cbn [string_is_empty is_buf is_eofbit is_failbit negb andb].
  destruct (skip_ws (String x rest)) as [|c r] eqn:Hskip.
  { rewrite (skip_ws_app_ws _ LF (skip_ws_empty_all_ws _ Hskip)). reflexivity. }
  rewrite (skip_ws_app_head _ LF c r Hskip).
  cbn [String.append string_is_empty].
  unfold getline, sentry, good. cbn [is_buf is_eofbit is_failbit negb andb].
  change (String c (r ++ LF)%string) with (String c r ++ LF)%string.
  rewrite take_until_lf_app_lf.
  destruct (take_until LF_char (String c r)) as [w [t|]]; reflexivity.
Qed.

Lemma skip_ws_head_nonspace (s : string) (c : ascii) (r : string) :
  skip_ws s = String c r -> isspace c = false.
Proof.
  induction s as [|x s IH]; intros H; [discriminate H|].
  cbn [skip_ws] in H. destruct (isspace x) eqn:Hx; [apply IH; exact H|].
  inversion H; subst. exact Hx.
Qed.

(** X7. Whitespace in front of a command and a line feed after it change
    neither the answer nor the effect on the registry. *)
Theorem command_whitespace (cmd : string) (g : Registry) :
  HandleCommand (cmd ++ LF)%string g = HandleCommand cmd g /\
  forall pre : string,
    all_ws pre = true -> HandleCommand (pre ++ cmd)%string g = HandleCommand cmd g.
Proof.
  split.
  - unfold HandleCommand.
    unfold extract_word, sentry, open_stream, good.
    cbn [is_buf is_eofbit is_failbit negb andb].
    destruct (skip_ws cmd) as [|c r] eqn:Hskip.
    { rewrite (skip_ws_app_ws _ LF (skip_ws_empty_all_ws _ Hskip)). reflexivity. }
    rewrite (skip_ws_app_head _ LF c r Hskip).
    pose proof (skip_ws_head_nonspace _ _ _ Hskip) as Hc.
    cbn [String.append].
    change (String c (r ++ LF)%string) with (String c r ++ LF)%string.
    cbn [is_buf]. rewrite take_word_app_lf.
    cbn [take_word]. rewrite Hc.
    destruct (take_word r) as [w rest]. cbn [fst snd string_is_empty].
    replace (string_is_empty (rest ++ LF)%string) with false
      by (destruct rest; reflexivity).
    destruct (String.eqb (String c w) "ADD").
    + destruct (getline (ws {| is_buf := rest; is_eofbit := string_is_empty rest;
                               is_failbit := false |}) EmptyString ":")
        as [n0 i0] eqn:G0.
      destruct (extract_int i0 None) as [c0 j0] eqn:E0.
      destruct (getline (ws {| is_buf := (rest ++ LF)%string; is_eofbit := false;
                               is_failbit := false |}) EmptyString ":")
        as [n1 i1] eqn:G1.
      destruct (extract_int i1 None) as [c1 j1] eqn:E1.
      destruct (add_arguments_lf rest n0 n1 c0 c1 i0 i1 j0 j1 G0 E0 G1 E1)
        as [Hempty [Hch Hname]].
      rewrite <- Hempty, <- Hch.
      destruct (string_is_empty n0); [reflexivity|].
      destruct Hname as [->| ->]; reflexivity.
    + destruct (String.eqb (String c w) "REMOVE"); [|reflexivity].
      pose proof (remove_argument_lf rest) as Hrem.
      destruct (getline (ws {| is_buf := rest; is_eofbit := string_is_empty rest;
                               is_failbit := false |}) EmptyString LF_char)
        as [n0 i0].
      destruct (getline (ws {| is_buf := (rest ++ LF)%string; is_eofbit := false;
                               is_failbit := false |}) EmptyString LF_char)
        as [n1 i1].
      cbn [fst] in Hrem. subst n1. reflexivity.
  - intros pre Hpre. unfold HandleCommand.
    unfold extract_word, sentry, open_stream, good.
    cbn [is_buf is_eofbit is_failbit negb andb].
    rewrite (skip_ws_app_ws pre cmd Hpre). reflexivity.
Qed.

Lemma command_whitespace_witness :
  HandleCommand ("  " ++ "PING")%string [] = HandleCommand "PING"%string [].
Proof. apply (proj2 (command_whitespace "PING"%string [])). reflexivity. Defined.
(** ** What a command can do to the registry *)

Lemma handle_command_cases (cmd : string) (g g' : Registry) (resp : string) :
  HandleCommand cmd g = Some (resp, g') ->
  g' = g \/
  (resp = ("OK:Device added" ++ LF)%string /\
   exists (n : string) (ch : Z),
     0 <= ch < MAX_CHANNELS /\ ~ In n (map name g) /\
     g' = g ++ [{| name := n; channel := ch; handler := new_handler ch |}]) \/
  (resp = ("OK:Device removed" ++ LF)%string /\
   exists n : string, erase_first n g = Some g').
Proof.
  unfold HandleCommand.
  destruct (extract_word (open_stream cmd) EmptyString) as [command iss].
  destruct (String.eqb command "ADD").
  - destruct (getline (ws iss) EmptyString ":") as [n i].
    destruct (extract_int i None) as [c j].
    destruct (string_is_empty n); [intros H; inversion H; auto|].
    destruct c as [ch|]; cbn [bind]; [|discriminate].
    destruct ((ch <? 0) || (ch >=? MAX_CHANNELS)) eqn:Hrange;
      [intros H; inversion H; auto|].
    apply orb_false_iff in Hrange. destruct Hrange as [Hlo Hhi].
    apply Z.ltb_ge in Hlo. rewrite Z.geb_leb in Hhi. apply Z.leb_gt in Hhi.
    unfold AddVirtualDevice.
    destruct (existsb (has_name n) g) eqn:He; intros H; inversion H; subst; auto.
    right. left. split; [reflexivity|]. exists n, ch.
    split; [lia|]. split; [|reflexivity].
    apply existsb_has_name_false. exact He.
  - destruct (String.eqb command "REMOVE").
    + destruct (getline (ws iss) EmptyString LF_char) as [n i].
      destruct (string_is_empty n); [intros H; inversion H; auto|].
      unfold RemoveVirtualDevice.
      destruct (erase_first n g) as [g1|] eqn:He; intros H; inversion H; subst; auto.
      right. right. split; [reflexivity|]. exists n. exact He.
    + destruct (String.eqb command "LIST").
      * unfold ListDevices. intros H; inversion H; auto.
      * destruct (String.eqb command "PING"); intros H; inversion H; auto.
Qed.

Lemma registry_ok_filter (f : DeviceInfo -> bool) (g : Registry) :
  registry_ok g -> registry_ok (filter f g).
Proof.
  intros [Hnd Hall]. split; [apply NoDup_names_filter; exact Hnd|].
  apply Forall_forall. intros d Hd. apply filter_In in Hd.
  rewrite Forall_forall in Hall. apply Hall. tauto.
Qed.

Lemma registry_ok_add (g : Registry) (n : string) (ch : Z) :
  registry_ok g -> 0 <= ch < MAX_CHANNELS -> ~ In n (map name g) ->
  registry_ok (g ++ [{| name := n; channel := ch; handler := new_handler ch |}]).
Proof.
  intros [Hnd Hall] Hch Hfresh. split.
  - rewrite map_app. cbn [map name].
    apply NoDup_app; [exact Hnd|repeat constructor; intros []|].
    intros x Hx [Hx'|[]]. subst x. contradiction.
  - apply Forall_app. split; [exact Hall|].
    constructor; [|constructor]. cbn. split; [exact Hch|reflexivity].
Qed.

(** X8. Whatever the command, [HandleCommand] keeps the invariant of the
    registry (distinct names, channel indices in [[0, MAX_CHANNELS)]), and it
    leaves the registry as it was unless it answers that a device was added
    or removed: an error never applies a command in part. *)
Theorem handle_command_invariant (cmd : string) (g g' : Registry) (resp : string) :
  registry_ok g ->
  HandleCommand cmd g = Some (resp, g') ->
  registry_ok g' /\
  (resp <> ("OK:Device added" ++ LF)%string ->
   resp <> ("OK:Device removed" ++ LF)%string -> g' = g).
Proof.
  intros Hok H.
  destruct (handle_command_cases cmd g g' resp H)
    as [->|[[Hresp [n [ch [Hch [Hfresh ->]]]]]|[Hresp [n He]]]].
  - split; [exact Hok|reflexivity].
  - split; [apply registry_ok_add; assumption|]. intros Ha _. contradiction.
  - split.
    + rewrite (erase_first_filter n g g' (proj1 Hok) He).
      apply registry_ok_filter. exact Hok.
    + intros _ Hr. contradiction.
Qed.

Lemma handle_command_invariant_witness :
  registry_ok [{| name := "mic"%string; channel := 2; handler := new_handler 2 |}].
Proof.
  refine (proj1 (handle_command_invariant "ADD mic:2"%string []
                   [{| name := "mic"%string; channel := 2; handler := new_handler 2 |}]
                   ("OK:Device added" ++ LF)%string _ _)).
  - split; constructor.
  - reflexivity.
Defined.
(** ** The configuration reader *)

Lemma read_config_lines_channels (lines : list string) :
  forall acc devices : list (string * Z),
    read_config_lines lines acc = Some devices ->
    Forall (fun e : string * Z => 0 <= snd e < MAX_CHANNELS) acc ->
    Forall (fun e : string * Z => 0 <= snd e < MAX_CHANNELS) devices.
Proof.
  induction lines as [|line rest IH]; intros acc devices H Hacc; cbn [read_config_lines] in H.
  - inversion H; subst. exact Hacc.
  - destruct (string_is_empty line || is_comment line); [eapply IH; eassumption|].
    destruct (take_until ":" line) as [n [after|]]; [|eapply IH; eassumption].
    destruct (stoi after) as [ch|]; cbn [bind] in H; [|discriminate H].
    destruct ((0 <=? ch) && (ch <? MAX_CHANNELS)) eqn:Hr; [|eapply IH; eassumption].
    apply andb_true_iff in Hr. destruct Hr as [Hlo Hhi].
    apply Z.leb_le in Hlo. apply Z.ltb_lt in Hhi.
    eapply IH; [exact H|]. apply Forall_app. split; [exact Hacc|].
    constructor; [cbn; lia|constructor].
Qed.

(** X9. Whenever [ReadConfig] returns, the configuration is not empty and
    every channel index in it lies in [[0, MAX_CHANNELS)]. *)
Theorem ReadConfig_channels (file : option string) (config : list (string * Z)) :
  ReadConfig file = Some config ->
  config <> [] /\
  Forall (fun e : string * Z => 0 <= snd e < MAX_CHANNELS) config.
Proof.
  assert (Hdef : default_config <> [] /\
                 Forall (fun e : string * Z => 0 <= snd e < MAX_CHANNELS) default_config).
  { split; [discriminate|]. repeat constructor; cbn; unfold MAX_CHANNELS; lia. }
  unfold ReadConfig. destruct file as [content|]; [|intros H; inversion H; subst; exact Hdef].
  destruct (read_config_lines (file_lines content) []) as [devices|] eqn:Hread;
    cbn [bind]; [|discriminate].
  pose proof (read_config_lines_channels _ _ _ Hread (Forall_nil _)) as Hch.
  destruct devices as [|e devices]; intros H; inversion H; subst; [exact Hdef|].
  split; [discriminate|exact Hch].
Qed.

Lemma ReadConfig_channels_witness :
  Forall (fun e : string * Z => 0 <= snd e < MAX_CHANNELS) [("a"%string, 5)].
Proof.
  apply (ReadConfig_channels (Some ("a:5" ++ LF ++ "b:8" ++ LF)%string)).
  reflexivity.
Defined.

Lemma read_config_lines_throws (lines : list string) :
  forall acc : list (string * Z),
    read_config_lines lines acc = None <-> existsb line_throws lines = true.
Proof.
  induction lines as [|line rest IH]; intros acc; cbn [read_config_lines existsb].
  - split; discriminate.
  - unfold line_throws at 1.
    destruct (string_is_empty line || is_comment line); cbn [negb andb orb];
      [apply IH|].
    destruct (take_until ":" line) as [n [after|]]; [|apply IH].
    destruct (stoi after) as [ch|]; cbn [bind orb]; [|tauto].
    destruct ((0 <=? ch) && (ch <? MAX_CHANNELS)); apply IH.
Qed.

(** X10. [ReadConfig] of a file that can be opened throws exactly when one
    of the lines it reads (not blank, not a comment) has a colon followed by
    a text that [std::stoi] refuses; a missing file never throws. *)
Theorem ReadConfig_throws (content : string) :
  (ReadConfig (Some content) = None <->
   existsb line_throws (file_lines content) = true) /\
  ReadConfig None <> None.
Proof.
  split; [|discriminate].
  rewrite <- (read_config_lines_throws (file_lines content) []).
  unfold ReadConfig.
  destruct (read_config_lines (file_lines content) []) as [[|e devices]|];
    cbn [bind]; split; intros H; try discriminate H; reflexivity.
Qed.

(** ** Listing and configuration *)

Lemma no_lf_uint (d : Decimal.uint) : no_lf (NilEmpty.string_of_uint d) = true.
Proof.
  induction d as [|d IH|d IH|d IH|d IH|d IH|d IH|d IH|d IH|d IH|d IH];
    cbn [NilEmpty.string_of_uint no_lf]; [reflexivity|..]; rewrite IH; reflexivity.
Qed.

Lemma no_lf_string_of_int (z : Z) : no_lf (string_of_int z) = true.
Proof.
  unfold string_of_int.
  destruct z as [|p|p]; cbn [Z.to_int NilZero.string_of_int]; [reflexivity| |];
    unfold NilZero.string_of_uint;
    pose proof (no_lf_uint (Pos.to_uint p)) as H;
    destruct (Pos.to_uint p); try reflexivity; try exact H;
    cbn [no_lf]; rewrite H; reflexivity.
Qed.

Lemma no_lf_app (a b : string) :
  no_lf a = true -> no_lf b = true -> no_lf (a ++ b)%string = true.
Proof.
  intros Ha Hb. induction a as [|c a IH]; [exact Hb|].
  cbn [no_lf] in Ha. apply andb_true_iff in Ha. destruct Ha as [Hc Ha].
  cbn [String.append no_lf]. rewrite Hc, (IH Ha). reflexivity.
Qed.

Lemma file_lines_line (l rest : string) :
  no_lf l = true ->
  file_lines (l ++ LF ++ rest)%string = l :: file_lines rest.
Proof.
  induction l as [|c l IH]; intros H.
  - reflexivity.
  - cbn [no_lf] in H. apply andb_true_iff in H. destruct H as [Hc Hl].
    apply negb_true_iff in Hc.
    cbn [String.append file_lines]. rewrite Hc.
    change (l ++ String LF_char rest)%string with (l ++ LF ++ rest)%string.
    rewrite (IH Hl). reflexivity.
Qed.

Lemma stoi_string_of_int (z : Z) :
  Word.INT_MIN <= z <= Word.INT_MAX -> stoi (string_of_int z) = Some z.
Proof.
  intros Hz. unfold stoi.
  destruct (string_of_int_head z) as [c [r [Hs Hc]]].
  rewrite Hs, (skip_ws_head c r Hc), <- Hs.
  rewrite <- (append_empty (string_of_int z)).
  rewrite take_integer_string_of_int by reflexivity.
  cbn [andb].
  replace ((Word.INT_MIN <=? z) && (z <=? Word.INT_MAX)) with true; [reflexivity|].
  symmetry. apply andb_true_iff. split; apply Z.leb_le; lia.
Qed.

(** The text of one entry in a listing, without the line feed. *)
Lemma read_listing_lines (g : Registry) :
  forall acc : list (string * Z),
    Forall (fun dev : DeviceInfo =>
              no_colon (name dev) = true /\ is_comment (name dev) = false /\
              0 <= channel dev < MAX_CHANNELS) g ->
    read_config_lines
      (map (fun dev => (name dev ++ ":" ++ string_of_int (channel dev))%string) g) acc
    = Some (acc ++ entries g).
Proof.
  induction g as [|dev g IH]; intros acc H.
  - cbn. rewrite app_nil_r. reflexivity.
  - inversion H as [|d l [Hcol [Hcom Hch]] Hrest]; subst.
    cbn [map read_config_lines].
    replace (string_is_empty (name dev ++ ":" ++ string_of_int (channel dev))%string
             || is_comment (name dev ++ ":" ++ string_of_int (channel dev))%string)
      with false.
    2:{ destruct (name dev) as [|c n]; [reflexivity|].
        symmetry. exact Hcom. }
    change (name dev ++ ":" ++ string_of_int (channel dev))%string
      with (name dev ++ String ":" (string_of_int (channel dev)))%string.
    rewrite (take_until_name _ _ Hcol).
    rewrite stoi_string_of_int
      by (unfold MAX_CHANNELS, Word.INT_MIN, Word.INT_MAX in *; lia).
    cbn [bind].
    replace ((0 <=? channel dev) && (channel dev <? MAX_CHANNELS)) with true
      by (symmetry; apply andb_true_iff; split;
          [apply Z.leb_le | apply Z.ltb_lt]; lia).
    rewrite (IH _ Hrest). unfold entries. cbn [map].
    rewrite <- app_assoc. reflexivity.
Qed.

Lemma listing_lines (g : Registry) :
  Forall (fun dev : DeviceInfo => no_lf (name dev) = true) g ->
  file_lines (fst (ListDevices g))
  = map (fun dev => (name dev ++ ":" ++ string_of_int (channel dev))%string) g.
Proof.
  unfold ListDevices. cbn [fst].
  induction g as [|dev g IH]; intros H; [reflexivity|].
  inversion H as [|d l Hlf Hrest]; subst.
  cbn [fold_right map]. unfold device_line at 1.
  replace ((name dev ++ ":" ++ string_of_int (channel dev) ++ LF)
           ++ fold_right (fun dev0 out => device_line dev0 ++ out) EmptyString g)%string
    with ((name dev ++ ":" ++ string_of_int (channel dev)) ++ LF
          ++ fold_right (fun dev0 out => device_line dev0 ++ out) EmptyString g)%string.
  - rewrite file_lines_line.
    + rewrite (IH Hrest). reflexivity.
    + apply no_lf_app; [exact Hlf|].
      apply (no_lf_app ":"); [reflexivity|apply no_lf_string_of_int].
  - rewrite !string_append_assoc. reflexivity.
Qed.

(** X11. The listing of a registry that is not empty is a configuration
    file that [ReadConfig] reads back as the entries listed, in their order,
    provided no name has a colon or a line feed or starts with the comment
    mark and every channel index is in [[0, MAX_CHANNELS)]. *)
Theorem listing_read_back (g : Registry) :
  g <> [] ->
  Forall (fun dev : DeviceInfo =>
            no_colon (name dev) = true /\ no_lf (name dev) = true /\
            is_comment (name dev) = false /\
            0 <= channel dev < MAX_CHANNELS) g ->
  ReadConfig (Some (fst (ListDevices g))) = Some (entries g).
Proof.
  intros Hne Hall. unfold ReadConfig.
  rewrite listing_lines by (eapply Forall_impl; [|exact Hall]; cbn; tauto).
  rewrite read_listing_lines by (eapply Forall_impl; [|exact Hall]; cbn; tauto).
  cbn [bind app]. destruct g as [|dev g]; [congruence|]. reflexivity.
Qed.

Lemma listing_read_back_witness :
  ReadConfig
    (Some (fst (ListDevices
                  [{| name := "duomic L"%string; channel := 0; handler := new_handler 0 |};
                   {| name := "studioMic"%string; channel := 3; handler := new_handler 3 |}])))
  = Some [("duomic L"%string, 0); ("studioMic"%string, 3)].
Proof.
  apply (listing_read_back
           [{| name := "duomic L"%string; channel := 0; handler := new_handler 0 |};
            {| name := "studioMic"%string; channel := 3; handler := new_handler 3 |}]).
  - discriminate.
  - repeat constructor; cbn; unfold MAX_CHANNELS; lia.
Defined.
(** ** The registry at start-up *)

Lemma add_config_entries (config : list (string * Z)) :
  forall g0 : Registry,
    registry_ok g0 ->
    Forall (fun e : string * Z => 0 <= snd e < MAX_CHANNELS) config ->
    registry_ok
      (fold_left (fun g entry => snd (AddVirtualDevice (fst entry) (snd entry) g))
         config g0) /\
    forall n : string,
      In n (map name
              (fold_left (fun g entry => snd (AddVirtualDevice (fst entry) (snd entry) g))
                 config g0))
      <-> In n (map name g0) \/ In n (map fst config).
Proof.
  induction config as [|[n ch] config IH]; intros g0 Hok Hcfg.
  - cbn. split; [exact Hok|]. intros n. tauto.
  - inversion Hcfg as [|e l Hch Hrest]; subst. cbn [snd] in Hch.
    cbn [fold_left fst snd].
    assert (Hstep : registry_ok (snd (AddVirtualDevice n ch g0)) /\
                    forall x : string,
                      In x (map name (snd (AddVirtualDevice n ch g0)))
                      <-> In x (map name g0) \/ x = n).
    { unfold AddVirtualDevice.
      destruct (existsb (has_name n) g0) eqn:He; cbn [snd].
      - apply existsb_has_name in He. split; [exact Hok|].
        intros x. split; [tauto|]. intros [H| ->]; assumption.
      - apply existsb_has_name_false in He.
        split; [apply registry_ok_add; assumption|].
        intros x. rewrite map_app, in_app_iff. cbn. intuition congruence. }
    destruct Hstep as [Hok1 Hnames1].
    destruct (IH _ Hok1 Hrest) as [Hok2 Hnames2].
    split; [exact Hok2|].
    intros x. rewrite Hnames2, Hnames1. cbn [map fst In]. intuition congruence.
Qed.

(** X12. The registry that [CreateDuomicDriver] builds is not empty, has
    pairwise distinct names and channel indices in [[0, MAX_CHANNELS)], and
    registers exactly the names of the configuration, a name that the
    configuration repeats being registered once. *)
Theorem CreateDuomicDriver_registry (file : option string) (g : Registry) :
  CreateDuomicDriver file = Some g ->
  registry_ok g /\
  g <> [] /\
  exists config : list (string * Z),
    ReadConfig file = Some config /\
    forall n : string, In n (map name g) <-> In n (map fst config).
Proof.
  unfold CreateDuomicDriver.
  destruct (ReadConfig file) as [config|] eqn:Hread; cbn [bind]; [|discriminate].
  intros H. inversion H as [Hg]; clear H.
  assert (Hcfg : config <> [] /\
                 Forall (fun e : string * Z => 0 <= snd e < MAX_CHANNELS) config).
  { clear Hg. unfold ReadConfig in Hread.
    assert (Hdef : default_config <> [] /\
                   Forall (fun e : string * Z => 0 <= snd e < MAX_CHANNELS)
                     default_config).
    { split; [discriminate|]. repeat constructor; cbn; unfold MAX_CHANNELS; lia. }
    destruct file as [content|]; [|inversion Hread; subst; exact Hdef].
    destruct (read_config_lines (file_lines content) []) as [devices|] eqn:Hlines;
      cbn [bind] in Hread; [|discriminate Hread].
    pose proof (read_config_lines_channels _ _ _ Hlines (Forall_nil _)) as Hch.
    destruct devices; inversion Hread; subst; [exact Hdef|].
    split; [discriminate|exact Hch]. }
  destruct Hcfg as [Hne Hch].
  assert (Hempty : registry_ok []) by (split; constructor).
  destruct (add_config_entries config [] Hempty Hch) as [Hok Hnames].
  split; [exact Hok|]. split.
  - destruct config as [|[n ch] config]; [congruence|].
    intros Hnil. rewrite Hnil in Hnames.
    apply (proj2 (Hnames n)). right. left. reflexivity.
  - exists config. split; [reflexivity|].
    intros n. rewrite Hnames. cbn. tauto.
Qed.

Lemma CreateDuomicDriver_registry_witness :
  registry_ok
    [{| name := "mic"%string; channel := 1; handler := new_handler 1 |}].
Proof.
  apply (CreateDuomicDriver_registry
           (Some ("mic:1" ++ LF ++ "mic:2" ++ LF)%string)).
  reflexivity.
Defined.
(** ** More on the pull callback *)

Lemma ConvertToSInt16_range (x : float32) (v : Z) :
  ConvertToSInt16 x = Some v -> -32768 <= v <= 32767.
Proof.
  unfold ConvertToSInt16, static_cast_SInt16.
  destruct (SFleb f32_one x); [intros H; inversion H; lia|].
  destruct (SFleb x f32_minus_one); [intros H; inversion H; lia|].
  destruct (f32_trunc (f32_mul x f32_32767)) as [z|]; cbn [bind]; [|discriminate].
  destruct ((-32768 <=? z) && (z <=? 32767)) eqn:Hr; [|discriminate].
  intros H; inversion H; subst.
  apply andb_true_iff in Hr. destruct Hr as [H1 H2].
  apply Z.leb_le in H1, H2. lia.
Qed.

Lemma copy_loop_range (shm : list float32) (r c ch : Z) :
  forall (count : nat) (i : Z) (blk : list Z),
    copy_loop shm r c ch i count = Some blk ->
    Forall (fun v : Z => -32768 <= v <= 32767) blk.
Proof.
  induction count as [|count IH]; intros i blk H; cbn [copy_loop] in H.
  - inversion H. constructor.
  - destruct (nth_error shm (Z.to_nat (sample_index r c ch i))) as [x|];
      cbn [bind] in H; [|discriminate H].
    destruct (ConvertToSInt16 x) as [v|] eqn:Hv; cbn [bind] in H; [|discriminate H].
    destruct (copy_loop shm r c ch (i + 1) count) as [rest|] eqn:Hrest;
      cbn [bind] in H; [|discriminate H].
    inversion H; subst blk. constructor.
    + eapply ConvertToSInt16_range. exact Hv.
    + eapply IH. exact Hrest.
Qed.

Lemma silence_range (n : Z) : Forall (fun v : Z => -32768 <= v <= 32767) (silence n).
Proof.
  eapply Forall_impl; [|apply silence_zero]. cbn. intros v ->. lia.
Qed.

(** X13. Whenever the callback returns, the buffer holds exactly the
    requested number of samples, each one a value of [SInt16], and the
    handler still pulls the same channel. *)
Theorem pull_fills_buffer (h h' : DuomicIOHandler) (buf : SharedAudioBuffer)
    (bytesCount : Z) (blk : list Z) :
  OnReadClientInput h buf bytesCount = Some (h', blk) ->
  List.length blk = Z.to_nat (frames_of_bytes bytesCount) /\
  Forall (fun v : Z => -32768 <= v <= 32767) blk /\
  channelIndex_ h' = channelIndex_ h.
Proof.
  intros H.
  assert (Hsil : forall h0 : DuomicIOHandler,
            channelIndex_ h0 = channelIndex_ h ->
            Some (h0, silence (frames_of_bytes bytesCount)) = Some (h', blk) ->
            List.length blk = Z.to_nat (frames_of_bytes bytesCount) /\
            Forall (fun v : Z => -32768 <= v <= 32767) blk /\
            channelIndex_ h' = channelIndex_ h).
  { intros h0 Hc E. inversion E; subst.
    split; [apply silence_length|]. split; [apply silence_range|exact Hc]. }
  destruct (isActive buf) eqn:Hact.
  2:{ rewrite pull_inactive in H by exact Hact. apply (Hsil h eq_refl H). }
  destruct (channelIndex_ h >=? Word.to_int (getChannelCount buf)) eqn:Hch.
  { rewrite pull_bad_channel in H by exact Hch. apply (Hsil h eq_refl H). }
  destruct buf as [p|]; [|discriminate Hact].
  destruct (overrun_adjust (seed_readPos (readPos_ h) (getWritePos (Some p)))
              (getWritePos (Some p))) as [r a] eqn:Hadj.
  rewrite (pull_active h p bytesCount r a Hact Hch Hadj) in H.
  destruct ((getWritePos (Some p) <=? r) || (a <? frames_of_bytes bytesCount)).
  { apply (Hsil (set_readPos h r) eq_refl H). }
  destruct (copy_loop (seg_samples p) r (getChannelCount (Some p)) (channelIndex_ h) 0
              (Z.to_nat (frames_of_bytes bytesCount))) as [out|] eqn:Hout;
    cbn [bind] in H; [|discriminate H].
  inversion H; subst h' blk.
  split; [eapply copy_loop_length; exact Hout|].
  split; [eapply copy_loop_range; exact Hout|reflexivity].
Qed.

Lemma pull_fills_buffer_witness :
  List.length (silence (frames_of_bytes 512)) = Z.to_nat (frames_of_bytes 512).
Proof.
  apply (pull_fills_buffer (new_handler 0) (new_handler 0) None 512
           (silence (frames_of_bytes 512))).
  reflexivity.
Defined.

(** On the copying branch each frame position [r + i] of the request lies
    between 1 and [RING_BUFFER_FRAMES - 512] frames behind the write
    position. *)
Lemma read_frames_behind_writer (h : DuomicIOHandler) (p : Segment)
    (bytesCount r a : Z) :
  0 <= readPos_ h < Word.modulus32 ->
  overrun_adjust (seed_readPos (readPos_ h) (getWritePos (Some p)))
    (getWritePos (Some p)) = (r, a) ->
  ((getWritePos (Some p) <=? r) || (a <? frames_of_bytes bytesCount)) = false ->
  forall i : Z,
    0 <= i < frames_of_bytes bytesCount ->
    1 <= Word.u32 (getWritePos (Some p) - (r + i)) <= RING_BUFFER_FRAMES - 512.
Proof.
  intros Hr Hadj Hunder i Hi.
  apply orb_false_elim in Hunder. destruct Hunder as [HWr Han].
  apply Z.leb_gt in HWr. apply Z.ltb_ge in Han.
  pose proof (u32_range (seg_writePos p)) as HW.
  change (Word.u32 (seg_writePos p)) with (getWritePos (Some p)) in HW.
  set (W := getWritePos (Some p)) in *. clearbody W.
  unfold overrun_adjust, seed_readPos, RING_BUFFER_FRAMES, TARGET_LATENCY in *.
  unfold Word.u32, Word.modulus32 in *.
  destruct ((readPos_ h =? 0) && (W >? 1024)) eqn:Hseed.
  - apply andb_true_iff in Hseed. destruct Hseed as [H0 HW1].
    apply Z.gtb_lt in HW1.
    destruct ((W - (W - 1024) mod 4294967296) mod 4294967296 >? 8192 - 512) eqn:Hov;
      inversion Hadj; subst; clear Hadj;
      try (apply Z.gtb_lt in Hov); try (apply Z.gtb_ltb in Hov);
      Z.div_mod_to_equations; lia.
  - destruct ((W - readPos_ h) mod 4294967296 >? 8192 - 512) eqn:Hov;
      inversion Hadj; subst; clear Hadj.
    + Z.div_mod_to_equations; lia.
    + rewrite Z.gtb_ltb in Hov. apply Z.ltb_ge in Hov.
      Z.div_mod_to_equations; lia.
Qed.

(** The slot read depends on the frame position modulo [2^32] only. *)
Lemma sample_index_frame (r r' c ch i i' : Z) :
  Word.u32 (r + i) = Word.u32 (r' + i') ->
  sample_index r c ch i = sample_index r' c ch i'.
Proof. intros H. unfold sample_index. rewrite H. reflexivity. Qed.

(** X14. Every frame that the copy loop of [OnReadClientInput] reads has
    been published and is not about to be overwritten.  A pull of an active
    segment on a channel it carries either takes the silent branch and
    delivers zeros, or delivers the output of the copy loop, and then the
    sample delivered at each index [i] is the conversion of the slot of the
    frame that lies [d] frames behind the write position seen by the call,
    for some [d] between 1 and [RING_BUFFER_FRAMES - 512]. *)
Theorem pull_reads_published_frames (h h' : DuomicIOHandler) (p : Segment)
    (bytesCount : Z) (blk : list Z) :
  0 <= readPos_ h < Word.modulus32 ->
  isActive (Some p) = true ->
  (channelIndex_ h >=? Word.to_int (getChannelCount (Some p))) = false ->
  OnReadClientInput h (Some p) bytesCount = Some (h', blk) ->
  let writePos := getWritePos (Some p) in
  let inputChannels := getChannelCount (Some p) in
  let readPos := fst (overrun_adjust (seed_readPos (readPos_ h) writePos) writePos) in
  let available := snd (overrun_adjust (seed_readPos (readPos_ h) writePos) writePos) in
  if (writePos <=? readPos) || (available <? frames_of_bytes bytesCount)
  then blk = silence (frames_of_bytes bytesCount)
  else
    copy_loop (seg_samples p) readPos inputChannels (channelIndex_ h) 0
      (Z.to_nat (frames_of_bytes bytesCount)) = Some blk /\
    forall i : Z,
      0 <= i < frames_of_bytes bytesCount ->
      exists (d : Z) (x : float32),
        1 <= d <= RING_BUFFER_FRAMES - 512 /\
        sample_index readPos inputChannels (channelIndex_ h) i
          = sample_index (writePos - d) inputChannels (channelIndex_ h) 0 /\
        nth_error (seg_samples p)
          (Z.to_nat (sample_index (writePos - d) inputChannels (channelIndex_ h) 0))
          = Some x /\
        ConvertToSInt16 x = Some (nth (Z.to_nat i) blk 0).
Proof.
  intros Hr Hact Hch Hpull. cbv zeta.
  destruct (overrun_adjust (seed_readPos (readPos_ h) (getWritePos (Some p)))
              (getWritePos (Some p))) as [r a] eqn:Hadj.
  rewrite (pull_active h p bytesCount r a Hact Hch Hadj) in Hpull.
  cbn [fst snd].
  destruct ((getWritePos (Some p) <=? r) || (a <? frames_of_bytes bytesCount))
    eqn:Hguard.
  - inversion Hpull. reflexivity.
  - destruct (copy_loop (seg_samples p) r (getChannelCount (Some p))
                (channelIndex_ h) 0 (Z.to_nat (frames_of_bytes bytesCount)))
      as [out|] eqn:Hloop; [|discriminate Hpull].
    cbn [bind] in Hpull. inversion Hpull; subst out h'. clear Hpull.
    split; [reflexivity|].
    intros i Hi.
    pose proof (read_frames_behind_writer h p bytesCount r a Hr Hadj Hguard i Hi)
      as Hd.
    assert (Hidx : sample_index r (getChannelCount (Some p)) (channelIndex_ h) i
                   = sample_index
                       (getWritePos (Some p)
                        - Word.u32 (getWritePos (Some p) - (r + i)))
                       (getChannelCount (Some p)) (channelIndex_ h) 0).
    { apply sample_index_frame. unfold Word.u32, Word.modulus32.
      Z.div_mod_to_equations. lia. }
    destruct (copy_loop_nth _ _ _ _ _ _ _ Hloop i) as (x & Hx & Hv).
    { rewrite Z2Nat.id; lia. }
    exists (Word.u32 (getWritePos (Some p) - (r + i))), x.
    split; [exact Hd|]. split; [exact Hidx|].
    rewrite <- Hidx. rewrite Z.add_0_l in Hx. split; assumption.
Qed.

Lemma pull_reads_published_frames_witness :
  copy_loop (seg_samples (segment_of 2000 4)) 976 4 3 0 256
    = Some (repeat 16383 256) /\
  forall i : Z,
    0 <= i < 256 ->
    exists (d : Z) (x : float32),
      1 <= d <= 7680 /\
      sample_index 976 4 3 i = sample_index (2000 - d) 4 3 0 /\
      nth_error (seg_samples (segment_of 2000 4))
        (Z.to_nat (sample_index (2000 - d) 4 3 0)) = Some x /\
      ConvertToSInt16 x = Some (nth (Z.to_nat i) (repeat 16383 256) 0).
Proof.
  assert (Hpull : OnReadClientInput (new_handler 3) (Some (segment_of 2000 4)) 512
                  = Some (set_readPos (new_handler 3) 1232, repeat 16383 256))
    by (vm_compute; reflexivity).
  assert (Hr : 0 <= readPos_ (new_handler 3) < Word.modulus32)
    by (cbn; unfold Word.modulus32; lia).
  exact (pull_reads_published_frames (new_handler 3)
           (set_readPos (new_handler 3) 1232) (segment_of 2000 4) 512
           (repeat 16383 256) Hr eq_refl eq_refl Hpull).
Defined.

(** X15. A handler of a registry that satisfies the invariant never reads
    outside the mapped sample array and never casts a NaN: on buffers that
    are disconnected, or hold the whole ring and no NaN, every run of pulls
    of that handler completes. *)
Theorem registered_pulls_complete (g : Registry) (dev : DeviceInfo)
    (calls : list PullCall) :
  registry_ok g ->
  In dev g ->
  Forall (fun call : PullCall => buffer_ok (fst call)) calls ->
  exists steps : list PullStep,
    run_pulls (handler dev) calls = Some steps /\
    List.length steps = List.length calls.
Proof.
  intros [_ Hall] Hin Hcalls.
  rewrite Forall_forall in Hall. destruct (Hall dev Hin) as [Hch Hidx].
  apply run_pulls_defined; [lia|exact Hcalls].
Qed.

Lemma registered_pulls_complete_witness :
  exists steps : list PullStep,
    run_pulls (new_handler 1) [(Some (segment_of 2000 2), 512); (None, 512)]
      = Some steps /\
    List.length steps = 2%nat.
Proof.
  apply (registered_pulls_complete
           [{| name := "mic"%string; channel := 1; handler := new_handler 1 |}]
           {| name := "mic"%string; channel := 1; handler := new_handler 1 |}
           [(Some (segment_of 2000 2), 512); (None, 512)]).
  - split; [repeat constructor; intros []|].
    repeat constructor; cbn; unfold MAX_CHANNELS; lia.
  - left. reflexivity.
  - apply Forall_cons; [|apply Forall_cons; [exact I|apply Forall_nil]].
    unfold buffer_ok, segment_ok, fst. split.
    + vm_compute. discriminate.
    + apply Forall_forall. intros x Hx. apply repeat_spec in Hx. subst x.
      split; [reflexivity|discriminate].
Defined.

(** X16. The first pull of a handler, when more than [TARGET_LATENCY]
    frames have been written: a request of at most [TARGET_LATENCY] frames
    delivers the frames that start [TARGET_LATENCY] behind the write
    position and leaves the read position behind it by [TARGET_LATENCY]
    less the frames delivered; a larger request delivers silence and leaves
    the read position [TARGET_LATENCY] behind. *)
Theorem first_pull_latency (h : DuomicIOHandler) (p : Segment) (bytesCount : Z) :
  readPos_ h = 0 ->
  isActive (Some p) = true ->
  channelIndex_ h < Word.to_int (getChannelCount (Some p)) ->
  TARGET_LATENCY < getWritePos (Some p) ->
  OnReadClientInput h (Some p) bytesCount =
    if frames_of_bytes bytesCount <=? TARGET_LATENCY
    then
      blk <- copy_loop (seg_samples p) (getWritePos (Some p) - TARGET_LATENCY)
               (getChannelCount (Some p)) (channelIndex_ h) 0
               (Z.to_nat (frames_of_bytes bytesCount)) ;;
      Some (set_readPos h
              (getWritePos (Some p) - TARGET_LATENCY + frames_of_bytes bytesCount),
            blk)
    else
      Some (set_readPos h (getWritePos (Some p) - TARGET_LATENCY),
            silence (frames_of_bytes bytesCount)).
Proof.
  intros Hfresh Hact Hch HW.
  pose proof (u32_range (seg_writePos p)) as HWr.
  change (Word.u32 (seg_writePos p)) with (getWritePos (Some p)) in HWr.
  pose proof (frames_of_bytes_nonneg bytesCount) as Hn.
  set (W := getWritePos (Some p)) in *.
  assert (Hadj : overrun_adjust (seed_readPos (readPos_ h) W) W
                 = (W - TARGET_LATENCY, TARGET_LATENCY)).
  { unfold overrun_adjust, seed_readPos. rewrite Hfresh.
    replace ((0 =? 0) && (W >? TARGET_LATENCY)) with true
      by (symmetry; apply andb_true_iff; split; [reflexivity|apply Z.gtb_lt; lia]).
    unfold TARGET_LATENCY, RING_BUFFER_FRAMES, Word.modulus32 in *.
    rewrite (u32_small (W - 1024)) by (unfold Word.modulus32; lia).
    replace (W - (W - 1024)) with 1024 by lia. reflexivity. }
  rewrite (pull_active h p bytesCount (W - TARGET_LATENCY) TARGET_LATENCY Hact);
    [| |exact Hadj].
  2:{ rewrite Z.geb_leb. apply Z.leb_gt. exact Hch. }
  fold W. unfold TARGET_LATENCY in *.
  replace (W <=? W - 1024) with false by (symmetry; apply Z.leb_gt; lia).
  cbn [orb]. rewrite Z.ltb_antisym.
  destruct (frames_of_bytes bytesCount <=? 1024) eqn:Hle; cbn [negb]; [|reflexivity].
  apply Z.leb_le in Hle.
  rewrite (u32_small (W - 1024 + frames_of_bytes bytesCount))
    by (unfold Word.modulus32 in *; lia).
  reflexivity.
Qed.

Lemma first_pull_latency_witness :
  OnReadClientInput (new_handler 1) (Some (segment_of 5000 2)) 4096
  = Some (set_readPos (new_handler 1) 3976, silence (frames_of_bytes 4096)).
Proof.
  apply (first_pull_latency (new_handler 1) (segment_of 5000 2) 4096); reflexivity.
Defined.

(** X17. Where the write position has wrapped around [2^32] and the read
    position has not (the write position is the smaller number although the
    reader is at most [RING_BUFFER_FRAMES - 512] frames behind), the pull
    delivers silence and leaves the handler as it was, however few frames
    are requested. *)
Theorem pull_silent_across_wrap (h : DuomicIOHandler) (p : Segment) (bytesCount : Z) :
  isActive (Some p) = true ->
  channelIndex_ h < Word.to_int (getChannelCount (Some p)) ->
  getWritePos (Some p) < readPos_ h < Word.modulus32 ->
  Word.u32 (getWritePos (Some p) - readPos_ h) <= RING_BUFFER_FRAMES - 512 ->
  OnReadClientInput h (Some p) bytesCount
  = Some (h, silence (frames_of_bytes bytesCount)).
Proof.
  intros Hact Hch Hwrap Hbehind.
  pose proof (u32_range (seg_writePos p)) as HWr.
  change (Word.u32 (seg_writePos p)) with (getWritePos (Some p)) in HWr.
  set (W := getWritePos (Some p)) in *.
  assert (Hadj : overrun_adjust (seed_readPos (readPos_ h) W) W
                 = (readPos_ h, Word.u32 (W - readPos_ h))).
  { unfold overrun_adjust, seed_readPos.
    replace (readPos_ h =? 0) with false by (symmetry; apply Z.eqb_neq; lia).
    cbn [andb].
    replace (Word.u32 (W - readPos_ h) >? RING_BUFFER_FRAMES - 512) with false;
      [reflexivity|].
    symmetry. rewrite Z.gtb_ltb. apply Z.ltb_ge. exact Hbehind. }
  rewrite (pull_active h p bytesCount (readPos_ h) (Word.u32 (W - readPos_ h)) Hact);
    [| |exact Hadj].
  2:{ rewrite Z.geb_leb. apply Z.leb_gt. exact Hch. }
  fold W. replace (W <=? readPos_ h) with true by (symmetry; apply Z.leb_le; lia).
  cbn [orb]. destruct h as [c r]. reflexivity.
Qed.

Lemma pull_silent_across_wrap_witness :
  OnReadClientInput {| channelIndex_ := 0; readPos_ := 4294967000 |}
    (Some (segment_of 704 2)) 512
  = Some ({| channelIndex_ := 0; readPos_ := 4294967000 |},
          silence (frames_of_bytes 512)).
Proof.
  apply (pull_silent_across_wrap {| channelIndex_ := 0; readPos_ := 4294967000 |}
           (segment_of 704 2) 512); try reflexivity.
  - cbn. unfold Word.modulus32. lia.
  - vm_compute. discriminate.
Defined.

Lemma steady_pull (h : DuomicIOHandler) (buf : SharedAudioBuffer) (bytesCount : Z) :
  steady h (buf, bytesCount) ->
  exists p : Segment,
    buf = Some p /\
    OnReadClientInput h buf bytesCount =
      (blk <- copy_loop (seg_samples p) (readPos_ h) (getChannelCount (Some p))
                (channelIndex_ h) 0 (Z.to_nat (frames_of_bytes bytesCount)) ;;
       Some (set_readPos h (readPos_ h + frames_of_bytes bytesCount), blk)).
Proof.
  unfold steady. cbn [fst snd]. intros [Hact [Hch [Hpos Hav]]].
  destruct buf as [p|]; [|discriminate Hact].
  exists p. split; [reflexivity|].
  pose proof (u32_range (seg_writePos p)) as HWr.
  change (Word.u32 (seg_writePos p)) with (getWritePos (Some p)) in HWr.
  pose proof (frames_of_bytes_nonneg bytesCount) as Hn.
  set (W := getWritePos (Some p)) in *.
  assert (Hdist : Word.u32 (W - readPos_ h) = W - readPos_ h)
    by (apply u32_small; unfold Word.modulus32 in *; lia).
  assert (Hadj : overrun_adjust (seed_readPos (readPos_ h) W) W
                 = (readPos_ h, W - readPos_ h)).
  { unfold overrun_adjust, seed_readPos.
    replace (readPos_ h =? 0) with false by (symmetry; apply Z.eqb_neq; lia).
    cbn [andb]. rewrite Hdist.
    replace (W - readPos_ h >? RING_BUFFER_FRAMES - 512) with false; [reflexivity|].
    symmetry. rewrite Z.gtb_ltb. apply Z.ltb_ge. lia. }
  rewrite (pull_active h p bytesCount (readPos_ h) (W - readPos_ h) Hact);
    [| |exact Hadj].
  2:{ rewrite Z.geb_leb. apply Z.leb_gt. exact Hch. }
  fold W.
  replace (W <=? readPos_ h) with false by (symmetry; apply Z.leb_gt; lia).
  replace (W - readPos_ h <? frames_of_bytes bytesCount) with false
    by (symmetry; apply Z.ltb_ge; lia).
  cbn [orb].
  rewrite (u32_small (readPos_ h + frames_of_bytes bytesCount))
    by (unfold Word.modulus32 in *; lia).
  reflexivity.
Qed.

(** X18. In a run of steady pulls no frame is skipped and none is read
    twice: each pull delivers the frames from its read position on, as many
    as its block is long, and moves the read position forward by that
    number; the next pull starts where it stopped. *)
Theorem steady_run_contiguous (calls : list PullCall) :
  forall (h : DuomicIOHandler) (steps : list PullStep),
    steady_run h calls ->
    run_pulls h calls = Some steps ->
    chained h steps /\
    Forall (fun s : PullStep =>
              readPos_ (step_after s)
                = readPos_ (step_before s) + Z.of_nat (List.length (step_block s)) /\
              exists p : Segment,
                step_buffer s = Some p /\
                copy_loop (seg_samples p) (readPos_ (step_before s))
                  (getChannelCount (Some p)) (channelIndex_ (step_before s)) 0
                  (List.length (step_block s))
                = Some (step_block s))
           steps.
Proof.
  induction calls as [|[buf bytesCount] rest IH]; intros h steps Hsteady Hrun.
  - cbn in Hrun. inversion Hrun. split; constructor.
  - cbn [steady_run snd] in Hsteady. destruct Hsteady as [Hfirst Hrest].
    destruct (steady_pull h buf bytesCount Hfirst) as [p [-> Hpull]].
    cbn [run_pulls] in Hrun. rewrite Hpull in Hrun.
    destruct (copy_loop (seg_samples p) (readPos_ h) (getChannelCount (Some p))
                (channelIndex_ h) 0 (Z.to_nat (frames_of_bytes bytesCount)))
      as [blk|] eqn:Hblk; cbn [bind fst snd] in Hrun; [|discriminate Hrun].
    destruct (run_pulls (set_readPos h (readPos_ h + frames_of_bytes bytesCount)) rest)
      as [steps'|] eqn:Hrun'; cbn [bind] in Hrun; [|discriminate Hrun].
    inversion Hrun; subst steps; clear Hrun.
    destruct (IH _ _ Hrest Hrun') as [Hchain Hall].
    pose proof (copy_loop_length _ _ _ _ _ _ _ Hblk) as Hlen.
    pose proof (frames_of_bytes_nonneg bytesCount) as Hn.
    split.
    + cbn [chained step_before step_after]. split; [reflexivity|exact Hchain].
    + constructor; [|exact Hall].
      cbn [step_before step_after step_block step_buffer set_readPos readPos_].
      rewrite Hlen. split; [lia|].
      exists p. split; [reflexivity|exact Hblk].
Qed.

Lemma steady_run_contiguous_witness :
  exists steps : list PullStep,
    run_pulls {| channelIndex_ := 0; readPos_ := 1000 |}
      [(Some (segment_of 2000 2), 512); (Some (segment_of 2300 2), 512)] = Some steps /\
    chained {| channelIndex_ := 0; readPos_ := 1000 |} steps.
Proof.
  destruct (run_pulls {| channelIndex_ := 0; readPos_ := 1000 |}
              [(Some (segment_of 2000 2), 512); (Some (segment_of 2300 2), 512)])
    as [steps|] eqn:E.
  - exists steps. split; [reflexivity|].
    refine (proj1 (steady_run_contiguous
                     [(Some (segment_of 2000 2), 512); (Some (segment_of 2300 2), 512)]
                     {| channelIndex_ := 0; readPos_ := 1000 |} steps _ E)).
    cbn [steady_run]. unfold steady. cbn [fst snd].
    repeat split; try reflexivity; vm_compute; discriminate.
  - vm_compute in E. discriminate E.
Defined.
(** ** More on the sample conversion *)

Lemma f32_value_opp (x : float32) (v : Z) :
  f32_value x = Some v -> f32_value (SFopp x) = Some (- v).
Proof.
  destruct x as [s|s| |s m e]; unfold f32_value, SFopp; intros H;
    try discriminate H;
    apply (f_equal (fun o => match o with Some v => v | None => 0 end)) in H;
    subst v; try reflexivity; destruct s; unfold negb, cond_Zopp;
    rewrite ?Z.opp_involutive; reflexivity.
Qed.

Lemma f32_valid_opp (x : float32) : f32_valid (SFopp x) = f32_valid x.
Proof. destruct x; reflexivity. Qed.

(** The value of a number strictly between [-1.0f] and [1.0f]. *)
Lemma f32_value_inside (x : float32) (v : Z) :
  f32_valid x = true ->
  f32_value x = Some v ->
  SFleb f32_one x = false ->
  SFleb x f32_minus_one = false ->
  - 2 ^ 149 < v < 2 ^ 149.
Proof.
  intros Hx Hv H1 H2.
  rewrite (f32_leb_value f32_one x (2 ^ 149) v eq_refl Hx) in H1
    by (vm_compute; reflexivity || exact Hv).
  rewrite (f32_leb_value x f32_minus_one v (- 2 ^ 149) Hx eq_refl Hv) in H2
    by (vm_compute; reflexivity).
  apply Z.leb_gt in H1, H2. lia.
Qed.

Lemma convert_value_inside (v : Z) :
  - 2 ^ 149 < v < 2 ^ 149 ->
  convert_value v
  = if 0 <=? v then rounded (v * c32767) / scale
    else - (rounded (- v * c32767) / scale).
Proof.
  intros Hv. unfold convert_value.
  replace (2 ^ 149 <=? v) with false by (symmetry; apply Z.leb_gt; lia).
  replace (v <=? - 2 ^ 149) with false by (symmetry; apply Z.leb_gt; lia).
  reflexivity.
Qed.

(** X19. Between the clipping points the conversion is odd: negating the
    sample negates the result. (At the clipping points it is not: [1.0f]
    gives 32767 and [-1.0f] gives -32768.) *)
Theorem ConvertToSInt16_odd (x : float32) :
  f32_valid x = true ->
  SFleb f32_one x = false ->
  SFleb x f32_minus_one = false ->
  ConvertToSInt16 (SFopp x) = option_map Z.opp (ConvertToSInt16 x).
Proof.
  intros Hx H1 H2.
  destruct (f32_value x) as [v|] eqn:Hv.
  2:{ destruct x; try discriminate Hv. reflexivity. }
  pose proof (f32_value_inside x v Hx Hv H1 H2) as Hin.
  rewrite (convert_spec x v Hx Hv).
  rewrite (convert_spec (SFopp x) (- v)); [|rewrite f32_valid_opp; exact Hx
                                           |apply f32_value_opp; exact Hv].
  cbn [option_map]. f_equal.
  rewrite !convert_value_inside by lia.
  destruct (Z.eq_dec v 0) as [->|Hnz]; [reflexivity|].
  destruct (0 <=? v) eqn:Hpos.
  - apply Z.leb_le in Hpos.
    replace (0 <=? - v) with false by (symmetry; apply Z.leb_gt; lia).
    rewrite Z.opp_involutive. reflexivity.
  - apply Z.leb_gt in Hpos.
    replace (0 <=? - v) with true by (symmetry; apply Z.leb_le; lia).
    rewrite Z.opp_involutive. reflexivity.
Qed.

Lemma ConvertToSInt16_odd_witness :
  ConvertToSInt16 (SFopp f32_half) = option_map Z.opp (ConvertToSInt16 f32_half).
Proof. apply (ConvertToSInt16_odd f32_half); reflexivity. Defined.

(** A value on the grid is kept by the rounding. *)
Lemma rounded_exact (V : Z) :
  0 <= V -> V mod 2 ^ grid V = 0 -> rounded V = V.
Proof.
  intros HV Hmod. unfold rounded, rne. rewrite Hmod.
  assert (Hg : 9 <= grid V) by (unfold grid; lia).
  assert (Hhalf : 0 < 2 ^ (grid V - 1)) by (apply Z.pow_pos_nonneg; lia).
  replace (0 <? 2 ^ (grid V - 1)) with true by (symmetry; apply Z.ltb_lt; lia).
  assert (Hp : 0 < 2 ^ grid V) by (apply Z.pow_pos_nonneg; lia).
  pose proof (Z.div_mod V (2 ^ grid V) ltac:(lia)) as Hdm.
  rewrite Hmod in Hdm. lia.
Qed.

(** Every integer below [2^24] is a binary32 number. *)
Lemma rounded_integer (k : Z) :
  0 <= k < 2 ^ 24 -> rounded (k * scale) = k * scale.
Proof.
  intros Hk. destruct (Z.eq_dec k 0) as [->|Hnz]; [reflexivity|].
  assert (Hs : 0 < scale) by (unfold scale; apply Z.pow_pos_nonneg; lia).
  apply rounded_exact; [apply Z.mul_nonneg_nonneg; lia|].
  assert (Hlog : Z.log2 (k * scale) = 158 + Z.log2 k)
    by (unfold scale; apply Z.log2_mul_pow2; lia).
  assert (Hl : Z.log2 k < 24) by (apply Z.log2_lt_pow2; lia).
  pose proof (Z.log2_nonneg k) as Hl0.
  assert (Hg : 9 <= grid (k * scale) <= 158).
  { unfold grid. rewrite Hlog. lia. }
  set (g := grid (k * scale)) in *.
  unfold scale. replace 158 with ((158 - g) + g) by lia.
  rewrite Z.pow_add_r by lia. rewrite Z.mul_assoc.
  apply Z.mod_mul. apply Z.pow_nonzero; lia.
Qed.

(** The rounded product then cut to an integer is the integer part of the
    exact product or the next integer, and the exact one when the product is
    an integer. *)
Lemma rounded_near (V : Z) :
  0 <= V <= 32767 * scale ->
  Z.abs (rounded V / scale * scale - V) < scale.
Proof.
  intros HV.
  assert (Hs : 0 < scale) by (unfold scale; apply Z.pow_pos_nonneg; lia).
  pose proof (Z.div_mod V scale ltac:(lia)) as Hdm.
  pose proof (Z.mod_pos_bound V scale Hs) as Hm.
  set (k := V / scale) in *.
  assert (Hk : 0 <= k <= 32767).
  { split; [apply Z.div_pos; lia|]. apply Z.div_le_upper_bound; lia. }
  assert (H224 : 32768 < 2 ^ 24) by reflexivity.
  assert (Hlow : k * scale <= rounded V).
  { rewrite <- (rounded_integer k) by lia. apply rounded_mono_nonneg. nia. }
  destruct (Z.eq_dec (V mod scale) 0) as [Hz|Hnz].
  - assert (HVk : V = k * scale) by lia.
    rewrite HVk, rounded_integer by lia.
    rewrite Z.div_mul by lia. rewrite Z.sub_diag. cbn. lia.
  - assert (Hup : rounded V <= (k + 1) * scale).
    { rewrite <- (rounded_integer (k + 1)) by lia. apply rounded_mono_nonneg. nia. }
    assert (Hq : k <= rounded V / scale <= k + 1).
    { split; [apply Z.div_le_lower_bound; lia|apply Z.div_le_upper_bound; lia]. }
    nia.
Qed.

(** X20. Between the clipping points the result differs from the exact
    product of the sample and 32767 by less than one: with [v] the value of
    the sample in units of [2^-149], [r * 2^149] and [32767 * v] differ by
    less than [2^149]. *)
Theorem ConvertToSInt16_accuracy (x : float32) (v r : Z) :
  f32_valid x = true ->
  f32_value x = Some v ->
  SFleb f32_one x = false ->
  SFleb x f32_minus_one = false ->
  ConvertToSInt16 x = Some r ->
  Z.abs (r * 2 ^ 149 - 32767 * v) < 2 ^ 149.
Proof.
  intros Hx Hv H1 H2 Hr.
  pose proof (f32_value_inside x v Hx Hv H1 H2) as Hin.
  rewrite (convert_spec x v Hx Hv) in Hr. inversion Hr as [Hr']; clear Hr.
  rewrite convert_value_inside by lia.
  assert (Hscale : scale = 512 * 2 ^ 149) by reflexivity.
  assert (Hc : c32767 = 512 * 32767) by reflexivity.
  assert (Hone : 2 ^ 149 * c32767 = 32767 * scale) by reflexivity.
  set (P := 2 ^ 149) in *. assert (HP : 0 < P) by reflexivity.
  clearbody P.
  destruct (0 <=? v) eqn:Hpos.
  - apply Z.leb_le in Hpos.
    pose proof (rounded_near (v * c32767)) as Hnear.
    assert (HV : 0 <= v * c32767 <= 32767 * scale) by nia.
    specialize (Hnear HV). rewrite Hscale, Hc in *. lia.
  - apply Z.leb_gt in Hpos.
    pose proof (rounded_near (- v * c32767)) as Hnear.
    assert (HV : 0 <= - v * c32767 <= 32767 * scale) by nia.
    specialize (Hnear HV). rewrite Hscale, Hc in *. lia.
Qed.

Lemma ConvertToSInt16_accuracy_witness :
  Z.abs (16383 * 2 ^ 149 - 32767 * 2 ^ 148) < 2 ^ 149.
Proof.
  apply (ConvertToSInt16_accuracy f32_half (2 ^ 148) 16383); reflexivity.
Defined.

(** The largest binary32 number below one, [1 - 2^-24], gives 32766. *)
Lemma rounded_below_one :
  rounded ((2 ^ 149 - 2 ^ 125) * c32767) / scale = 32766.
Proof. vm_compute. reflexivity. Qed.

(** No binary32 number lies strictly between [1 - 2^-24] and one. *)
Lemma finite_below_one (m : positive) (e : Z) :
  bounded 24 128 m e = true ->
  Zpos m * 2 ^ (e + 149) < 2 ^ 149 ->
  Zpos m * 2 ^ (e + 149) <= 2 ^ 149 - 2 ^ 125.
Proof.
  intros Hb Hlt.
  destruct (bounded_finite m e Hb) as (He & Hlog & _).
  assert (Hm : Zpos m < 2 ^ 24).
  { apply Z.log2_lt_pow2; lia. }
  destruct (Z_le_gt_dec (e + 149) 125) as [Hlow|Hhigh].
  - assert (Hp : 0 < 2 ^ (e + 149) <= 2 ^ 125).
    { split; [apply Z.pow_pos_nonneg; lia|apply Z.pow_le_mono_r; lia]. }
    replace (2 ^ 149 - 2 ^ 125) with ((2 ^ 24 - 1) * 2 ^ 125) by reflexivity.
    transitivity ((2 ^ 24 - 1) * 2 ^ (e + 149)).
    + apply Z.mul_le_mono_nonneg_r; lia.
    + apply Z.mul_le_mono_nonneg_l; [lia|]. lia.
  - assert (Hneg : e < 0).
    { destruct (Z_lt_le_dec e 0) as [Hn|Hn]; [exact Hn|exfalso].
      assert (H149 : 2 ^ 149 <= 2 ^ (e + 149)) by (apply Z.pow_le_mono_r; lia).
      assert (H1 : 1 * 2 ^ (e + 149) <= Zpos m * 2 ^ (e + 149)).
      { apply Z.mul_le_mono_nonneg_r; lia. }
      lia. }
    assert (Hsplit : 2 ^ 149 = 2 ^ (- e) * 2 ^ (e + 149)).
    { rewrite <- Z.pow_add_r by lia. f_equal. lia. }
    assert (Hq : 0 < 2 ^ (e + 149)) by (apply Z.pow_pos_nonneg; lia).
    assert (Hbig : 2 ^ 126 <= 2 ^ (e + 149)) by (apply Z.pow_le_mono_r; lia).
    assert (H125 : 2 ^ 125 < 2 ^ 126) by reflexivity.
    assert (Hmlt : Zpos m < 2 ^ (- e)).
    { rewrite Hsplit in Hlt. apply Z.mul_lt_mono_pos_r in Hlt; assumption. }
    assert (Hle : Zpos m * 2 ^ (e + 149) <= (2 ^ (- e) - 1) * 2 ^ (e + 149)).
    { apply Z.mul_le_mono_nonneg_r; lia. }
    rewrite Z.mul_sub_distr_r, <- Hsplit in Hle. lia.
Qed.

Lemma f32_value_below_one (x : float32) (v : Z) :
  f32_valid x = true ->
  f32_value x = Some v ->
  - 2 ^ 149 < v < 2 ^ 149 ->
  - (2 ^ 149 - 2 ^ 125) <= v <= 2 ^ 149 - 2 ^ 125.
Proof.
  intros Hx Hv Hin.
  assert (HP : 2 ^ 125 < 2 ^ 149) by reflexivity.
  assert (HB : 2 ^ 149 < beyond) by reflexivity.
  destruct x as [s|s| |s m e]; unfold f32_value in Hv.
  - assert (Hv' : v = 0) by congruence. lia.
  - assert (Hv' : v = cond_Zopp s beyond) by congruence.
    rewrite Hv' in Hin. destruct s; unfold cond_Zopp in Hin; lia.
  - discriminate Hv.
  - assert (Hv' : v = cond_Zopp s (Zpos m * 2 ^ (e + 149))) by congruence.
    rewrite Hv' in Hin |- *.
    pose proof (finite_below_one m e Hx) as Hb.
    destruct (finite_value_bounds m e Hx) as ((Hpos & _) & _).
    destruct s; unfold cond_Zopp in *; lia.
Qed.

Lemma rounded_inside (v : Z) :
  0 <= v <= 2 ^ 149 - 2 ^ 125 -> 0 <= rounded (v * c32767) / scale <= 32766.
Proof.
  intros Hv.
  assert (Hs : 0 < scale) by reflexivity.
  assert (Hc : 0 < c32767) by reflexivity.
  split.
  - apply Z.div_pos; [|exact Hs]. apply rounded_nonneg. nia.
  - rewrite <- rounded_below_one. apply Z.div_le_mono; [exact Hs|].
    apply rounded_mono_nonneg. split; [nia|].
    apply Z.mul_le_mono_nonneg_r; lia.
Qed.

(** X21. The extreme results mark clipping and nothing else: the result is
    32767 exactly for the samples at or above [1.0f], -32768 exactly for
    those at or below [-1.0f], and every other sample gives a result between
    -32766 and 32766; -32767 is never the result. *)
Theorem ConvertToSInt16_extremes (x : float32) (r : Z) :
  f32_valid x = true ->
  ConvertToSInt16 x = Some r ->
  (r = 32767 <-> SFleb f32_one x = true) /\
  (r = -32768 <-> SFleb x f32_minus_one = true) /\
  (SFleb f32_one x = false -> SFleb x f32_minus_one = false ->
   -32766 <= r <= 32766) /\
  r <> -32767.
Proof.
  intros Hx Hr.
  destruct (f32_value x) as [v|] eqn:Hv.
  2:{ destruct x; try discriminate Hv. discriminate Hr. }
  assert (Hinside : SFleb f32_one x = false -> SFleb x f32_minus_one = false ->
                    -32766 <= r <= 32766).
  { intros H1 H2.
    pose proof (f32_value_inside x v Hx Hv H1 H2) as Hin.
    pose proof (f32_value_below_one x v Hx Hv Hin) as Hbelow.
    rewrite (convert_spec x v Hx Hv) in Hr. inversion Hr as [Hr']; clear Hr.
    rewrite convert_value_inside by lia.
    destruct (0 <=? v) eqn:Hpos.
    - apply Z.leb_le in Hpos. pose proof (rounded_inside v ltac:(lia)). lia.
    - apply Z.leb_gt in Hpos. pose proof (rounded_inside (- v) ltac:(lia)). lia. }
  pose proof (f32_leb_value f32_one x (2 ^ 149) v eq_refl Hx eq_refl Hv) as L1.
  pose proof (f32_leb_value x f32_minus_one v (- 2 ^ 149) Hx eq_refl Hv eq_refl) as L2.
  assert (HP : 0 < 2 ^ 149) by reflexivity.
  unfold ConvertToSInt16 in Hr.
  destruct (SFleb f32_one x) eqn:H1.
  - inversion Hr; subst r.
    symmetry in L1. apply Z.leb_le in L1.
    assert (L2' : SFleb x f32_minus_one = false) by (rewrite L2; apply Z.leb_gt; lia).
    rewrite L2'. repeat split; intros; try reflexivity; try discriminate; try lia.
  - destruct (SFleb x f32_minus_one) eqn:H2.
    + inversion Hr; subst r.
      repeat split; intros; try reflexivity; try discriminate; try lia.
    + specialize (Hinside eq_refl eq_refl).
      repeat split; intros; try discriminate; try lia.
Qed.

Lemma ConvertToSInt16_extremes_witness :
  (16383 = 32767 <-> SFleb f32_one f32_half = true) /\
  (16383 = -32768 <-> SFleb f32_half f32_minus_one = true) /\
  (SFleb f32_one f32_half = false -> SFleb f32_half f32_minus_one = false ->
   -32766 <= 16383 <= 32766) /\
  16383 <> -32767.
Proof.
  apply (ConvertToSInt16_extremes f32_half 16383); reflexivity.
Defined.

(** X22. On binary32 numbers the conversion is undefined for the NaN and
    for nothing else. *)
Theorem ConvertToSInt16_undefined (x : float32) :
  f32_valid x = true ->
  (ConvertToSInt16 x = None <-> x = S754_nan).
Proof.
  intros Hx. split.
  - intros Hnone. destruct x as [s|s| |s m e]; try reflexivity; exfalso;
      eapply ConvertToSInt16_defined; try exact Hnone; try exact Hx; discriminate.
  - intros ->. reflexivity.
Qed.

Lemma ConvertToSInt16_undefined_witness :
  ConvertToSInt16 S754_nan = None <-> S754_nan = S754_nan.
Proof. apply (ConvertToSInt16_undefined S754_nan). reflexivity. Defined.

(** ** Mapping the shared memory file *)

(** X23. [connect] keeps the object consistent and leaks nothing: whatever
    the system calls return (a mapping is never at the null address), the
    descriptors and mappings left open by its calls are exactly those the
    members account for afterwards; a connected object makes no call. *)
Theorem connect_owns (a : SharedAudioBufferState) (os : ConnectResults) :
  state_ok a ->
  mmap_result os <> 0 ->
  state_ok (fst (connect a os)) /\
  run_syscalls (snd (connect a os)) (owns a) = owns (fst (connect a os)) /\
  (ptr_ a <> 0 -> connect a os = (a, [])).
Proof.
  intros Hok Hmap. unfold connect.
  destruct (ptr_ a =? 0) eqn:Hp; cbn [negb].
  - apply Z.eqb_eq in Hp.
    destruct Hok as [(_ & Hfd)|(Hne & _)]; [|contradiction].
    assert (Hown : owns a = no_resources).
    { unfold owns. rewrite Hp.
      replace (0 <=? fd_ a) with false by (symmetry; apply Z.leb_gt; lia).
      reflexivity. }
    rewrite Hown.
    destruct (0 <=? open_result os) eqn:Hopen.
    + destruct (0 <? lseek_result os) eqn:Hsize.
      * destruct (mmap_result os =? MAP_FAILED) eqn:Hfail; cbn [negb fst snd].
        -- split; [left; cbn; lia|]. split; [|intros Hc; contradiction].
           unfold owns; cbn [ptr_ fd_ bufferSize_]. rewrite Hp.
           replace (0 <=? fd_ a) with false by (symmetry; apply Z.leb_gt; lia).
           cbn [Z.eqb]. unfold run_syscalls, no_resources.
           cbn [app fold_left sys_step open_fds mappings].
           rewrite Hopen, Hfail. cbn [open_fds mappings drop_fd].
           rewrite Z.eqb_refl. reflexivity.
        -- apply Z.eqb_neq in Hfail. apply Z.leb_le in Hopen.
           split; [right; cbn; lia|]. split; [|intros Hc; contradiction].
           unfold owns; cbn [ptr_ fd_ bufferSize_].
           replace (mmap_result os =? 0) with false
             by (symmetry; apply Z.eqb_neq; exact Hmap).
           replace (0 <=? open_result os) with true
             by (symmetry; apply Z.leb_le; exact Hopen).
           unfold run_syscalls, no_resources.
           cbn [app fold_left sys_step open_fds mappings].
           replace (0 <=? open_result os) with true
             by (symmetry; apply Z.leb_le; exact Hopen).
           replace (mmap_result os =? MAP_FAILED) with false
             by (symmetry; apply Z.eqb_neq; exact Hfail).
           reflexivity.
      * cbn [fst snd]. split; [left; lia|]. split; [|intros Hc; contradiction].
        rewrite Hown. unfold run_syscalls, no_resources.
        cbn [app fold_left sys_step open_fds mappings].
        rewrite Hopen. cbn [open_fds mappings drop_fd].
        rewrite Z.eqb_refl. reflexivity.
    + cbn [fst snd]. split; [left; lia|]. split; [|intros Hc; contradiction].
      rewrite Hown. unfold run_syscalls.
      cbn [fold_left sys_step]. rewrite Hopen. reflexivity.
  - cbn [fst snd]. split; [exact Hok|]. split; reflexivity.
Qed.

Lemma connect_owns_witness :
  state_ok
    (fst (connect unconnected
            {| open_result := 3; lseek_result := 1048592; mmap_result := 4096 |})) /\
  run_syscalls
    (snd (connect unconnected
            {| open_result := 3; lseek_result := 1048592; mmap_result := 4096 |}))
    (owns unconnected)
  = owns (fst (connect unconnected
                 {| open_result := 3; lseek_result := 1048592;
                    mmap_result := 4096 |})) /\
  (ptr_ unconnected <> 0 ->
   connect unconnected
     {| open_result := 3; lseek_result := 1048592; mmap_result := 4096 |}
   = (unconnected, [])).
Proof.
  apply (connect_owns unconnected
           {| open_result := 3; lseek_result := 1048592; mmap_result := 4096 |}).
  - left. cbn. lia.
  - cbn. lia.
Defined.

(** X24. [disconnect] releases everything the object holds and leaves it
    unconnected; a second [disconnect] makes no system call, so nothing is
    unmapped or closed twice. *)
Theorem disconnect_releases (a : SharedAudioBufferState) :
  state_ok a ->
  run_syscalls (snd (disconnect a)) (owns a) = no_resources /\
  state_ok (fst (disconnect a)) /\
  ptr_ (fst (disconnect a)) = 0 /\
  disconnect (fst (disconnect a)) = (fst (disconnect a), []).
Proof.
  intros Hok. unfold disconnect, owns.
  destruct Hok as [(Hp & Hfd)|(Hne & Hnf & Hfd)].
  - rewrite Hp.
    replace (0 <=? fd_ a) with false by (symmetry; apply Z.leb_gt; lia).
    cbn [Z.eqb negb andb fst snd ptr_ fd_ bufferSize_].
    replace (0 <=? fd_ a) with false by (symmetry; apply Z.leb_gt; lia).
    repeat split. left. cbn. lia.
  - replace (ptr_ a =? 0) with false by (symmetry; apply Z.eqb_neq; exact Hne).
    replace (ptr_ a =? MAP_FAILED) with false
      by (symmetry; apply Z.eqb_neq; exact Hnf).
    replace (0 <=? fd_ a) with true by (symmetry; apply Z.leb_le; exact Hfd).
    cbn [negb andb fst snd ptr_ fd_ bufferSize_ Z.eqb Z.leb Z.compare].
    repeat split.
    + unfold run_syscalls.
      cbn [app fold_left sys_step open_fds mappings drop_fd drop_mapping fst snd].
      rewrite !Z.eqb_refl. reflexivity.
    + left. cbn. lia.
Qed.

Lemma disconnect_releases_witness :
  run_syscalls
    (snd (disconnect {| ptr_ := 4096; fd_ := 3; bufferSize_ := 1048592 |}))
    (owns {| ptr_ := 4096; fd_ := 3; bufferSize_ := 1048592 |}) = no_resources /\
  state_ok (fst (disconnect {| ptr_ := 4096; fd_ := 3; bufferSize_ := 1048592 |})) /\
  ptr_ (fst (disconnect {| ptr_ := 4096; fd_ := 3; bufferSize_ := 1048592 |})) = 0 /\
  disconnect (fst (disconnect {| ptr_ := 4096; fd_ := 3; bufferSize_ := 1048592 |}))
  = (fst (disconnect {| ptr_ := 4096; fd_ := 3; bufferSize_ := 1048592 |}), []).
Proof.
  apply (disconnect_releases {| ptr_ := 4096; fd_ := 3; bufferSize_ := 1048592 |}).
  right. cbn. unfold MAP_FAILED. lia.
Defined.

(** X25. The driver connects once, when it is created.  If that attempt
    finds no file, an empty file or cannot map it, the object stays
    unconnected, and every pull of every handler is silent and leaves the
    handler where it was, whatever the file holds later. *)
Theorem failed_connect_silent (a : SharedAudioBufferState) (os : ConnectResults)
    (h : DuomicIOHandler) (contents : Segment) (bytesCount : Z) :
  ptr_ a = 0 ->
  open_result os < 0 \/ lseek_result os <= 0 \/ mmap_result os = MAP_FAILED ->
  ptr_ (fst (connect a os)) = 0 /\
  OnReadClientInput h (mapped_view (fst (connect a os)) contents) bytesCount
    = Some (h, silence (frames_of_bytes bytesCount)).
Proof.
  intros Hp Hfail.
  assert (Hnull : ptr_ (fst (connect a os)) = 0).
  { unfold connect. rewrite Hp. cbn [Z.eqb negb].
    destruct (0 <=? open_result os) eqn:Hopen; [|exact Hp].
    destruct (0 <? lseek_result os) eqn:Hsize; [|exact Hp].
    destruct (mmap_result os =? MAP_FAILED) eqn:Hm; [reflexivity|].
    apply Z.leb_le in Hopen. apply Z.ltb_lt in Hsize. apply Z.eqb_neq in Hm.
    lia. }
  split; [exact Hnull|].
  apply pull_inactive. unfold mapped_view. rewrite Hnull. reflexivity.
Qed.

Lemma failed_connect_silent_witness :
  ptr_ (fst (connect unconnected
               {| open_result := -1; lseek_result := 0; mmap_result := 0 |})) = 0 /\
  OnReadClientInput (new_handler 0)
    (mapped_view
       (fst (connect unconnected
               {| open_result := -1; lseek_result := 0; mmap_result := 0 |}))
       (segment_of 2048 2)) 2048
    = Some (new_handler 0, silence (frames_of_bytes 2048)).
Proof.
  apply (failed_connect_silent unconnected
           {| open_result := -1; lseek_result := 0; mmap_result := 0 |}
           (new_handler 0) (segment_of 2048 2) 2048).
  - reflexivity.
  - left. cbn. lia.
Defined.
